(** * Retail cleaning utility: src/cleaning_file.py

    A shallow embedding of the cleaning pipeline [clean_dataset] and of the
    functions around it ([_read_file], [_write_file],
    [load_clean_validate]), with the properties its specification states
    and further ones read off the code.

    - Python strings are Rocq [string]s; the character functions
      ([strip], [lower], [title]) are Python's on ASCII text.
    - A pandas cell is a tagged value: a string, an integer, a float, a
      boolean, a timestamp, or one of the missing values NaN and NaT, which is
      what [read_csv] and [read_excel] put into a frame.  A DataFrame is the
      length of its index and an ordered list of labelled columns; the
      theorems are about frames whose labels, once trimmed, are distinct.
    - pandas is that of the 1.x and 2.x releases: object columns for text,
      [astype(str)] turning every value, missing ones included, into text.
    - The scalar conversions of pandas that the script calls but does not
      define (printing of floats and timestamps, numeric and date parsing of
      text) are the methods of the class [PandasScalars]; the theorems hold
      for all its instances.
    - Exceptions are the [Raise] results of an error monad.  DataFrame
      objects live in a store indexed by object identity, on which
      [df.copy()] and the in-place assignments of the steps act.
    - The readers and writers of pandas are the methods of the class
      [PandasFiles]; what the script writes and prints is recorded in a
      [world].  The entry point under [__main__] (arguments, the test that
      the file exists) is not modelled. *)

From Stdlib Require Import Ascii String DecimalString Qcanon.
From stdpp Require Import base option list strings gmap numbers.

Close Scope Qc_scope.
Local Open Scope string_scope.
Local Open Scope list_scope.

(** ** Python strings (ASCII) *)

Module PyStr.

(** [str.isspace] on ASCII: TAB, LF, VT, FF, CR, FS, GS, RS, US and space. *)
Definition is_space (c : ascii) : bool :=
  let n := nat_of_ascii c in
  ((9 <=? n)%nat && (n <=? 13)%nat) || ((28 <=? n)%nat && (n <=? 32)%nat).

Definition is_upper (c : ascii) : bool :=
  let n := nat_of_ascii c in (65 <=? n)%nat && (n <=? 90)%nat.

Definition is_lower (c : ascii) : bool :=
  let n := nat_of_ascii c in (97 <=? n)%nat && (n <=? 122)%nat.

Definition is_alpha (c : ascii) : bool := is_upper c || is_lower c.

Definition is_digit (c : ascii) : bool :=
  let n := nat_of_ascii c in (48 <=? n)%nat && (n <=? 57)%nat.

Definition lower_char (c : ascii) : ascii :=
  if is_upper c then ascii_of_nat (nat_of_ascii c + 32) else c.

Definition upper_char (c : ascii) : ascii :=
  if is_lower c then ascii_of_nat (nat_of_ascii c - 32) else c.

(** [str.lower()] *)
Fixpoint lower (s : string) : string :=
  match s with
  | EmptyString => EmptyString
  | String c s' => String (lower_char c) (lower s')
  end.

(** [str.lstrip()], [str.rstrip()] and [str.strip()] with no argument. *)
Fixpoint lstrip (s : string) : string :=
  match s with
  | EmptyString => EmptyString
  | String c s' => if is_space c then lstrip s' else s
  end.

Definition is_empty (s : string) : bool :=
  match s with EmptyString => true | _ => false end.

Fixpoint rstrip (s : string) : string :=
  match s with
  | EmptyString => EmptyString
  | String c s' =>
      let r := rstrip s' in
      if is_space c && is_empty r then EmptyString else String c r
  end.

Definition strip (s : string) : string := rstrip (lstrip s).

(** [str.title()]: a letter that follows a letter is lower-cased, any other
    letter is upper-cased, everything else is kept. *)
Fixpoint title_from (previous_is_cased : bool) (s : string) : string :=
  match s with
  | EmptyString => EmptyString
  | String c s' =>
      String (if previous_is_cased then lower_char c else upper_char c)
             (title_from (is_alpha c) s')
  end.

Definition title (s : string) : string := title_from false s.

(** [s.startswith(p)] and [p in s]. *)
Fixpoint starts_with (p s : string) : bool :=
  match p, s with
  | EmptyString, _ => true
  | String a p', String b s' => bool_decide (a = b) && starts_with p' s'
  | String _ _, EmptyString => false
  end.

Fixpoint contains (key s : string) : bool :=
  starts_with key s ||
  match s with
  | EmptyString => false
  | String _ s' => contains key s'
  end.

(** The last character, when there is one. *)
Fixpoint last_char (s : string) : option ascii :=
  match s with
  | EmptyString => None
  | String c EmptyString => Some c
  | String _ s' => last_char s'
  end.

(** [s[:-1]] *)
Fixpoint drop_last (s : string) : string :=
  match s with
  | EmptyString => EmptyString
  | String c EmptyString => EmptyString
  | String c s' => String c (drop_last s')
  end.

End PyStr.

(** ** Regular expressions, as far as [EMAIL_REGEX] needs them *)

Module Re.

Inductive regex : Type :=
| Void
| Eps
| Class (p : ascii → bool)
| Cat (r1 r2 : regex)
| Alt (r1 r2 : regex)
| Star (r : regex).

(** [r+] and [r{2,}] *)
Definition Plus (r : regex) : regex := Cat r (Star r).
Definition AtLeast2 (r : regex) : regex := Cat r (Cat r (Star r)).
Definition Chr (a : ascii) : regex := Class (λ c, bool_decide (c = a)).

(** The language of a pattern. *)
Inductive lang : regex → string → Prop :=
| lang_eps : lang Eps EmptyString
| lang_class p c : p c = true → lang (Class p) (String c EmptyString)
| lang_cat r1 r2 s1 s2 :
    lang r1 s1 → lang r2 s2 → lang (Cat r1 r2) (s1 +:+ s2)
| lang_alt_l r1 r2 s : lang r1 s → lang (Alt r1 r2) s
| lang_alt_r r1 r2 s : lang r2 s → lang (Alt r1 r2) s
| lang_star_nil r : lang (Star r) EmptyString
| lang_star_cons r s1 s2 :
    lang r s1 → lang (Star r) s2 → lang (Star r) (s1 +:+ s2).

(** Matching by derivatives. *)
Fixpoint nullable (r : regex) : bool :=
  match r with
  | Void => false
  | Eps => true
  | Class _ => false
  | Cat r1 r2 => nullable r1 && nullable r2
  | Alt r1 r2 => nullable r1 || nullable r2
  | Star _ => true
  end.

Fixpoint deriv (c : ascii) (r : regex) : regex :=
  match r with
  | Void => Void
  | Eps => Void
  | Class p => if p c then Eps else Void
  | Cat r1 r2 =>
      if nullable r1
      then Alt (Cat (deriv c r1) r2) (deriv c r2)
      else Cat (deriv c r1) r2
  | Alt r1 r2 => Alt (deriv c r1) (deriv c r2)
  | Star r1 => Cat (deriv c r1) (Star r1)
  end.

Fixpoint accepts (r : regex) (s : string) : bool :=
  match s with
  | EmptyString => nullable r
  | String c s' => accepts (deriv c r) s'
  end.

(** [re.match] of the anchored pattern [^r$]: the whole string is in the
    language of [r], or the string ends in a newline and the rest is (Python's
    [$] also matches just before a final newline). *)
Definition LF : ascii := ascii_of_nat 10.

Definition match_anchored (r : regex) (s : string) : bool :=
  accepts r s ||
  match PyStr.last_char s with
  | Some c => bool_decide (c = LF) && accepts r (PyStr.drop_last s)
  | None => false
  end.

End Re.

(** ** Cells, columns and frames *)

(** A Python float other than NaN: a rational or an infinity.  The pipeline
    only compares floats, and on these values the order below is the IEEE
    one. *)
Inductive pyfloat : Type :=
| Fin (q : Qc)
| PosInf
| NegInf.

Definition float_of_Z (z : Z) : pyfloat := Fin (Qc_of_Z z).

Definition float_le (x y : pyfloat) : bool :=
  match x, y with
  | NegInf, _ => true
  | _, PosInf => true
  | Fin a, Fin b => bool_decide (a ≤ b)%Qc
  | _, _ => false
  end.

(** The value of one cell.  [NaN] is the missing value of numeric and object
    columns, [NaT] the missing value of datetime columns. *)
Inductive cell : Type :=
| Str (s : string)
| Int (z : Z)
| Float (x : pyfloat)
| NaN
| Bool (b : bool)
| Timestamp (ns : Z)
| NaT.

(** A parsed number: what [pd.to_numeric] makes of one value. *)
Inductive num : Type :=
| NInt (z : Z)
| NFloat (x : pyfloat).

Abbreviation Series := (list cell).
Abbreviation Mask := (list bool).

(** The scalar conversions of pandas and Python that the script relies on and
    does not define. *)
Class PandasScalars : Type := {
  (** [str(x)] of a float that is not NaN *)
  str_of_float : pyfloat → string;
  (** [str(t)] of a timestamp *)
  str_of_timestamp : Z → string;
  (** [pd.to_numeric(..., errors="coerce")] on a value that is not already a
      number: [None] stands for the missing result *)
  coerce_numeric : cell → option num;
  (** [pd.to_datetime(..., errors="coerce", dayfirst=False)] on one value, in
      nanoseconds since the epoch: [None] stands for NaT *)
  to_datetime_scalar : cell → option Z
}.

(** Exceptions and the error monad. *)
Inductive exn : Type :=
| KeyError (key : string)
| ValueError (msg : string).

Inductive outcome (A : Type) : Type :=
| Ok (a : A)
| Raise (e : exn).
Arguments Ok {A} a.
Arguments Raise {A} e.

#[global] Instance outcome_ret : MRet outcome := λ A a, Ok a.
#[global] Instance outcome_bind : MBind outcome := λ A B f m,
  match m with
  | Ok a => f a
  | Raise e => Raise e
  end.

(** A DataFrame: the length of its index and its labelled columns, in
    order. *)
Record DataFrame : Type := {
  nrows : nat;
  columns : list (string * Series)
}.

Definition labels (df : DataFrame) : list string := fst <$> columns df.

Fixpoint assoc (col : string) (cs : list (string * Series)) : option Series :=
  match cs with
  | [] => None
  | (name, s) :: cs' => if bool_decide (name = col) then Some s else assoc col cs'
  end.

Fixpoint assoc_set (col : string) (s : Series) (cs : list (string * Series))
  : list (string * Series) :=
  match cs with
  | [] => [(col, s)]
  | (name, s0) :: cs' =>
      if bool_decide (name = col) then (name, s) :: cs'
      else (name, s0) :: assoc_set col s cs'
  end.

(** [col in df.columns] *)
Definition has_column (col : string) (df : DataFrame) : bool :=
  bool_decide (col ∈ labels df).

(** [df[col]] *)
Definition getitem (col : string) (df : DataFrame) : outcome Series :=
  match assoc col (columns df) with
  | Some s => Ok s
  | None => Raise (KeyError col)
  end.

(** [df[col] = s]: replaces the column, or appends it as the last one. *)
Definition setitem (col : string) (s : Series) (df : DataFrame) : DataFrame :=
  {| nrows := nrows df; columns := assoc_set col s (columns df) |}.

(** [df[col] = v] for a scalar [v] *)
Definition setitem_scalar (col : string) (v : cell) (df : DataFrame) : DataFrame :=
  setitem col (replicate (nrows df) v) df.

(** The cell of column [col] at row [i]. *)
Definition cell_at (col : string) (i : nat) (df : DataFrame) : option cell :=
  assoc col (columns df) ≫= (λ s, s !! i).

(** Frames the model speaks about: unique labels, columns as long as the
    index. *)
Definition well_formed (df : DataFrame) : Prop :=
  NoDup (labels df) ∧
  Forall (λ c : string * Series, List.length c.2 = nrows df) (columns df).

(** ** Series operations *)

Section series.
Context `{PandasScalars}.

(** [str(v)] *)
Definition py_str (c : cell) : string :=
  match c with
  | Str s => s
  | Int z => NilZero.string_of_int (Z.to_int z)
  | Float x => str_of_float x
  | NaN => "nan"
  | Bool true => "True"
  | Bool false => "False"
  | Timestamp ns => str_of_timestamp ns
  | NaT => "NaT"
  end.

(** [s.astype(str)] *)
Definition astype_str (s : Series) : Series := (λ c, Str (py_str c)) <$> s.

(** The [.str] methods act on the strings of an object column and give NaN on
    anything else. *)
Definition str_method (f : string → string) (s : Series) : Series :=
  (λ c, match c with Str x => Str (f x) | _ => NaN end) <$> s.

Definition str_strip : Series → Series := str_method PyStr.strip.
Definition str_lower : Series → Series := str_method PyStr.lower.
Definition str_title : Series → Series := str_method PyStr.title.

(** [s.str.contains(key, na=False)]; the keys used are plain words, for which
    the regular-expression search is the substring test. *)
Definition str_contains (key : string) (s : Series) : Mask :=
  (λ c, match c with Str x => PyStr.contains key x | _ => false end) <$> s.

(** [s.str.match(^r$, na=False)] *)
Definition str_match (r : Re.regex) (s : Series) : Mask :=
  (λ c, match c with Str x => Re.match_anchored r x | _ => false end) <$> s.

(** [s.isna()] *)
Definition isna_cell (c : cell) : bool :=
  match c with NaN | NaT => true | _ => false end.
Definition isna (s : Series) : Mask := isna_cell <$> s.

(** [s.map(d)] for a dict [d]: values that are not keys become NaN. *)
Definition map_dict (d : gmap string string) (s : Series) : Series :=
  (λ c, match c with
        | Str x => match d !! x with Some v => Str v | None => NaN end
        | _ => NaN
        end) <$> s.

(** [s.fillna(other)] for a series [other] on the same index *)
Definition fillna (other s : Series) : Series :=
  zip_with (λ c o, if isna_cell c then o else c) s other.

(** [s.eq(v)] for a string [v] *)
Definition eq_str (v : string) (s : Series) : Mask :=
  (λ c, match c with Str x => bool_decide (x = v) | _ => false end) <$> s.

(** [a | b] and [~a] on boolean series *)
Definition mask_or (a b : Mask) : Mask := zip_with orb a b.
Definition mask_not (a : Mask) : Mask := negb <$> a.

(** A stored boolean column read back as a mask. *)
Definition as_mask (s : Series) : Mask :=
  (λ c, match c with Bool b => b | _ => false end) <$> s.

(** Comparisons of a numeric cell with an integer bound; a missing value
    compares false. *)
Definition cell_le (c : cell) (b : Z) : bool :=
  match c with
  | Int z => bool_decide (z ≤ b)%Z
  | Float x => float_le x (float_of_Z b)
  | _ => false
  end.

Definition cell_ge (c : cell) (b : Z) : bool :=
  match c with
  | Int z => bool_decide (b ≤ z)%Z
  | Float x => float_le (float_of_Z b) x
  | _ => false
  end.

(** [s.le(b)] *)
Definition le (b : Z) (s : Series) : Mask := (λ c, cell_le c b) <$> s.

(** The bound [b] written into a column next to [c]: an integer in an integer
    column, a float otherwise. *)
Definition bound_like (c : cell) (b : Z) : cell :=
  match c with
  | Int _ => Int b
  | _ => Float (float_of_Z b)
  end.

(** [s.clip(lo, hi)].  pandas computes [where(isna | s >= lo, lo)] and then
    [where(isna | s <= hi, hi)]. *)
Definition clip_cell (lo hi : Z) (c : cell) : cell :=
  if isna_cell c then c
  else
    let r := if cell_ge c lo then c else bound_like c lo in
    if cell_le c hi then r else bound_like c hi.

Definition clip (lo hi : Z) (s : Series) : Series := clip_cell lo hi <$> s.

(** [pd.to_numeric(s, errors="coerce")]: every value is parsed; the result is
    an integer column when every value is an integer, and a float column with
    NaN for the failures otherwise. *)
Definition to_numeric_scalar (c : cell) : option num :=
  match c with
  | Int z => Some (NInt z)
  | Float x => Some (NFloat x)
  | NaN => None
  | _ => coerce_numeric c
  end.

Definition is_int (o : option num) : bool :=
  match o with Some (NInt _) => true | _ => false end.

Definition as_int_cell (o : option num) : cell :=
  match o with Some (NInt z) => Int z | _ => NaN end.

Definition as_float_cell (o : option num) : cell :=
  match o with
  | Some (NInt z) => Float (float_of_Z z)
  | Some (NFloat x) => Float x
  | None => NaN
  end.

Definition to_numeric (s : Series) : Series :=
  let parsed := to_numeric_scalar <$> s in
  if forallb is_int parsed then as_int_cell <$> parsed
  else as_float_cell <$> parsed.

(** [pd.to_datetime(s, errors="coerce", dayfirst=False)] *)
Definition to_datetime (s : Series) : Series :=
  (λ c, match to_datetime_scalar c with
        | Some ns => Timestamp ns
        | None => NaT
        end) <$> s.

(** The rows of a series selected by a mask are set to [v], or get [msg]
    appended to their string. *)
Definition where_set (mask : Mask) (v : cell) (s : Series) : Series :=
  zip_with (λ (m : bool) c, if m then v else c) mask s.

Definition where_append (mask : Mask) (msg : string) (s : Series) : Series :=
  zip_with (λ (m : bool) c,
              if m then match c with Str x => Str (x +:+ msg) | _ => c end
              else c) mask s.

(** [df.loc[mask, col] = v] for a scalar [v].  An absent column is first
    created full of NaN; pandas refuses that on a frame with no rows. *)
Definition loc_setitem (mask : Mask) (col : string) (v : cell) (df : DataFrame)
  : outcome DataFrame :=
  match assoc col (columns df) with
  | Some s => Ok (setitem col (where_set mask v s) df)
  | None =>
      if bool_decide (nrows df = 0)
      then Raise (ValueError "cannot set a frame with no defined index and a scalar")
      else Ok (setitem col (where_set mask v (replicate (nrows df) NaN)) df)
  end.

(** [df.loc[mask, col] += msg] on a column of strings (the only use is on the
    column of issues, which holds the strings assigned just before). *)
Definition loc_iadd (mask : Mask) (col : string) (msg : string) (df : DataFrame)
  : outcome DataFrame :=
  s ← getitem col df;
  Ok (setitem col (where_append mask msg s) df).

End series.

(** ** Configuration tables *)

(** A dict iterated with [.items()]: the pairs in insertion order. *)
Definition CATEGORY_MAPPINGS : list (string * string) :=
  [ ("laptop", "Electronics");
    ("sofa", "Home");
    ("shoes", "Fashion");
    ("shampoo", "Beauty");
    ("novel", "Books") ].

Definition TEXT_COLUMNS : list string :=
  [ "City"; "Product_Category"; "Product_Name"; "Payment_Mode";
    "Delivery_Status"; "Customer_Name"; "Email"; "Gender"; "Country" ].

Definition NUMERIC_COLUMNS : list string :=
  [ "Purchase_Amount"; "Discount_Offered"; "Customer_Satisfaction"; "Age" ].

Definition DATE_COLUMNS : list string := [ "Purchase_Date" ].

Definition PAYMENT_MODE_MAP : gmap string string :=
  list_to_map
    [ ("upi", "UPI");
      ("debit card", "Debit Card");
      ("credit card", "Credit Card");
      ("cash", "Cash");
      ("net banking", "Net Banking") ].

Definition DELIVERY_STATUS_MAP : gmap string string :=
  list_to_map
    [ ("delivered", "Delivered");
      ("pending", "Pending");
      ("cancelled", "Cancelled");
      ("returned", "Returned") ].

Definition GENDER_MAP : gmap string string :=
  list_to_map
    [ ("male", "Male"); ("female", "Female"); ("m", "Male"); ("f", "Female") ].

(** [^[a-zA-Z0-9._%+-]+@[a-zA-Z0-9.-]+\.[a-zA-Z]{2,}$], without its anchors
    (they are [Re.match_anchored]'s). *)
Fixpoint char_in (cs : string) (c : ascii) : bool :=
  match cs with
  | EmptyString => false
  | String a cs' => bool_decide (c = a) || char_in cs' c
  end.

Definition local_char (c : ascii) : bool :=
  PyStr.is_alpha c || PyStr.is_digit c || char_in "._%+-" c.

Definition domain_char (c : ascii) : bool :=
  PyStr.is_alpha c || PyStr.is_digit c || char_in ".-" c.

Definition EMAIL_REGEX : Re.regex :=
  Re.Cat (Re.Plus (Re.Class local_char))
    (Re.Cat (Re.Chr "@")
       (Re.Cat (Re.Plus (Re.Class domain_char))
          (Re.Cat (Re.Chr ".") (Re.AtLeast2 (Re.Class PyStr.is_alpha))))).

(** ** The steps of [clean_dataset] *)

Section pipeline.
Context `{PandasScalars}.

(** [for x in xs: body] over a threaded state. *)
Fixpoint for_each {A S : Type} (xs : list A) (body : A → S → outcome S) (s : S)
  : outcome S :=
  match xs with
  | [] => Ok s
  | x :: xs' => s' ← body x s; for_each xs' body s'
  end.

(** 1: [df.columns = df.columns.str.strip()] *)
Definition strip_labels (df : DataFrame) : DataFrame :=
  {| nrows := nrows df;
     columns := (λ c : string * Series, (PyStr.strip c.1, c.2)) <$> columns df |}.

Definition column_name_hygiene (df : DataFrame) : outcome DataFrame :=
  Ok (strip_labels df).

(** 2: text normalisation *)
Definition text_normalisation (df : DataFrame) : outcome DataFrame :=
  for_each TEXT_COLUMNS
    (λ col df,
       if has_column col df then
         s ← getitem col df;
         Ok (setitem col (str_strip (astype_str s)) df)
       else Ok df)
    df.

(** 3: product category correction.  The body of the loop over
    [CATEGORY_MAPPINGS.items()] acts on the frame and on [mask_any]. *)
Definition category_body (item : string * string) (st : DataFrame * Mask)
  : outcome (DataFrame * Mask) :=
  let '(key, cat) := item in
  let '(df, mask_any) := st in
  name ← getitem "Product_Name" df;
  let key_mask := str_contains key (str_lower name) in
  df ← loc_setitem key_mask "Product_Category" (Str cat) df;
  Ok (df, mask_or mask_any key_mask).

Definition category_correction (df : DataFrame) : outcome DataFrame :=
  st ← for_each CATEGORY_MAPPINGS category_body (df, replicate (nrows df) false);
  Ok st.1.

(** 4: numeric coercion *)
Definition numeric_coercion (df : DataFrame) : outcome DataFrame :=
  for_each NUMERIC_COLUMNS
    (λ col df,
       if has_column col df then
         s ← getitem col df;
         Ok (setitem col (to_numeric s) df)
       else Ok df)
    df.

(** 5: date parsing *)
Definition date_parsing (df : DataFrame) : outcome DataFrame :=
  for_each DATE_COLUMNS
    (λ col df,
       if has_column col df then
         s ← getitem col df;
         Ok (setitem col (to_datetime s) df)
       else Ok df)
    df.

(** 6: categorical harmonisation.  The three assignments have one shape:
    [df[col] = df[col].str.lower().map(table).fillna(df[col])]. *)
Definition harmonise (col : string) (table : gmap string string) (df : DataFrame)
  : outcome DataFrame :=
  if has_column col df then
    s ← getitem col df;
    original ← getitem col df;
    Ok (setitem col (fillna original (map_dict table (str_lower s))) df)
  else Ok df.

Definition categorical_harmonisation (df : DataFrame) : outcome DataFrame :=
  df ← harmonise "Payment_Mode" PAYMENT_MODE_MAP df;
  df ← harmonise "Delivery_Status" DELIVERY_STATUS_MAP df;
  harmonise "Gender" GENDER_MAP df.

(** 7: email validation and formatting *)
Definition email_validation (df : DataFrame) : outcome DataFrame :=
  if has_column "Email" df then
    e ← getitem "Email" df;
    let df := setitem "Email" (str_strip (str_lower e)) df in
    e ← getitem "Email" df;
    Ok (setitem "Email_Valid" (Bool <$> str_match EMAIL_REGEX e) df)
  else Ok df.

(** 8: satisfaction clipping *)
Definition satisfaction_clipping (df : DataFrame) : outcome DataFrame :=
  if has_column "Customer_Satisfaction" df then
    s ← getitem "Customer_Satisfaction" df;
    Ok (setitem "Customer_Satisfaction" (clip 1 5 s) df)
  else Ok df.

(** 9: proper-case cities and countries *)
Definition proper_case (df : DataFrame) : outcome DataFrame :=
  for_each [ "City"; "Country" ]
    (λ loc_col df,
       if has_column loc_col df then
         s ← getitem loc_col df;
         Ok (setitem loc_col (str_title s) df)
       else Ok df)
    df.

(** 10: quality flags *)
Definition quality_flags (df : DataFrame) : outcome DataFrame :=
  let df := setitem_scalar "Data_Quality_Issues" (Str "") df in
  df ← (if has_column "Customer_Name" df then
          name ← getitem "Customer_Name" df;
          let miss_name := mask_or (eq_str "" name) (isna name) in
          loc_iadd miss_name "Data_Quality_Issues" "Missing Customer Name; " df
        else Ok df);
  df ← (if has_column "Email" df then
          valid ← getitem "Email_Valid" df;
          loc_iadd (mask_not (as_mask valid)) "Data_Quality_Issues"
            "Invalid Email; " df
        else Ok df);
  if has_column "Purchase_Amount" df then
    amount ← getitem "Purchase_Amount" df;
    let bad_amt := mask_or (le 0 amount) (isna amount) in
    loc_iadd bad_amt "Data_Quality_Issues" "Invalid Purchase Amount; " df
  else Ok df.

End pipeline.

(** ** Objects: the store of DataFrames *)

(** A DataFrame object is named by its identity; the store maps identities to
    the current contents.  New objects get the next identity. *)
Abbreviation obj := nat (only parsing).
Abbreviation store := (list DataFrame) (only parsing).

Definition Py (A : Type) : Type := store → outcome A * store.

#[global] Instance Py_ret : MRet Py := λ A a h, (Ok a, h).
#[global] Instance Py_bind : MBind Py := λ A B f m h,
  match m h with
  | (Ok a, h') => f a h'
  | (Raise e, h') => (Raise e, h')
  end.

(** A reference to no object; Python has none, and the theorems start from
    stores in which the argument exists. *)
Definition dangling : exn := ValueError "dangling reference".

(** [df.copy()]: a new object with the same contents. *)
Definition df_copy (r : obj) : Py obj := λ h,
  match h !! r with
  | Some df => (Ok (List.length h), h ++ [df])
  | None => (Raise dangling, h)
  end.

(** An in-place update of the object [r] by one step of the pipeline. *)
Definition in_place (r : obj) (step : DataFrame → outcome DataFrame) : Py unit :=
  λ h,
  match h !! r with
  | Some df =>
      match step df with
      | Ok df' => (Ok tt, <[r := df']> h)
      | Raise e => (Raise e, h)
      end
  | None => (Raise dangling, h)
  end.

Section clean.
Context `{PandasScalars}.

(** [clean_dataset(df)]: the parameter [df] is rebound to a copy, the copy is
    updated in place step by step and returned.  (The summary printed before
    returning touches no frame; it is [summary], printed by [clean_call].) *)
Definition clean_dataset (df : obj) : Py obj :=
  df ← df_copy df;
  in_place df column_name_hygiene;;
  in_place df text_normalisation;;
  in_place df category_correction;;
  in_place df numeric_coercion;;
  in_place df date_parsing;;
  in_place df categorical_harmonisation;;
  in_place df email_validation;;
  in_place df satisfaction_clipping;;
  in_place df proper_case;;
  in_place df quality_flags;;
  mret df.

(** The contents of the frame that [clean_dataset] returns when called on an
    object holding [df]. *)
Definition clean_frame (df : DataFrame) : outcome DataFrame :=
  match clean_dataset 0 [df] with
  | (Ok r, h) =>
      match h !! r with
      | Some df' => Ok df'
      | None => Raise dangling
      end
  | (Raise e, _) => Raise e
  end.

End clean.

(** ** Reading the steps on values

    The functions below say what the steps compute, column by column; the
    lemmas of the next part relate them to the steps themselves. *)

Section readings.
Context `{PandasScalars}.

(** The ten steps, composed on the contents of one frame. *)
Definition pipeline_steps (df : DataFrame) : outcome DataFrame :=
  df ← column_name_hygiene df;
  df ← text_normalisation df;
  df ← category_correction df;
  df ← numeric_coercion df;
  df ← date_parsing df;
  df ← categorical_harmonisation df;
  df ← email_validation df;
  df ← satisfaction_clipping df;
  df ← proper_case df;
  quality_flags df.

(** [f] applied to each of the columns [cols] that the frame has. *)
Definition map_columns (cols : list string) (f : Series → Series) (df : DataFrame)
  : DataFrame :=
  {| nrows := nrows df;
     columns := (λ c : string * Series,
                   if bool_decide (c.1 ∈ cols) then (c.1, f c.2) else c)
                <$> columns df |}.

(** Text normalisation of one cell and of one column. *)
Definition normal_text (c : cell) : string := PyStr.strip (py_str c).
Definition normalise (s : Series) : Series := str_strip (astype_str s).

(** The category column after the loop over the mapping [m]. *)
Definition corrected (m : list (string * string)) (names cats : Series) : Series :=
  foldl (λ cats (item : string * string),
           where_set (str_contains item.1 (str_lower names)) (Str item.2) cats)
        cats m.

(** The category step: what it returns, written without the loop. *)
Definition categorised (df : DataFrame) : outcome DataFrame :=
  match assoc "Product_Name" (columns df) with
  | None => Raise (KeyError "Product_Name")
  | Some names =>
      match assoc "Product_Category" (columns df) with
      | Some cats =>
          Ok (setitem "Product_Category" (corrected CATEGORY_MAPPINGS names cats) df)
      | None =>
          if bool_decide (nrows df = 0)
          then Raise (ValueError
                        "cannot set a frame with no defined index and a scalar")
          else Ok (setitem "Product_Category"
                     (corrected CATEGORY_MAPPINGS names (replicate (nrows df) NaN)) df)
      end
  end.

(** The category of one row: each matching pair overwrites, in order. *)
Definition correct_cell (m : list (string * string)) (name cat : cell) : cell :=
  foldl (λ cat (item : string * string),
           match name with
           | Str x => if PyStr.contains item.1 (PyStr.lower x) then Str item.2 else cat
           | _ => cat
           end)
        cat m.

(** The last pair of the mapping, in its order, whose keyword occurs in [s]. *)
Definition last_match (m : list (string * string)) (s : string) : option string :=
  snd <$> list.last
            (filter (λ item : string * string, PyStr.contains item.1 s = true) m).

(** Harmonisation of one column and of one (normalised) text value. *)
Definition harmonised (table : gmap string string) (s : Series) : Series :=
  fillna s (map_dict table (str_lower s)).

Definition canonical (table : gmap string string) (t : string) : string :=
  match table !! PyStr.lower t with
  | Some label => label
  | None => t
  end.

(** A cell holding a string with no white space at its ends. *)
Definition stripped_text (c : cell) : Prop :=
  ∃ x, c = Str x ∧ PyStr.strip x = x.

(** The three quality checks on one row. *)
Definition name_missing (v : cell) : bool :=
  match v with
  | Str s => bool_decide (s = "")
  | _ => isna_cell v
  end.

Definition bad_amount (v : cell) : bool := cell_le v 0 || isna_cell v.

(** The email step and the column of issues, written out. *)
Definition lower_strip (s : Series) : Series := str_strip (str_lower s).

Definition email_checked (df : DataFrame) : DataFrame :=
  match assoc "Email" (columns df) with
  | Some e =>
      setitem "Email_Valid" (Bool <$> str_match EMAIL_REGEX (lower_strip e))
        (map_columns ["Email"] lower_strip df)
  | None => df
  end.

Definition issues (df : DataFrame) : Series :=
  let s0 := replicate (nrows df) (Str "") in
  let s1 := match assoc "Customer_Name" (columns df) with
            | Some name =>
                where_append (mask_or (eq_str "" name) (isna name))
                  "Missing Customer Name; " s0
            | None => s0
            end in
  let s2 := match assoc "Email" (columns df), assoc "Email_Valid" (columns df) with
            | Some _, Some valid =>
                where_append (mask_not (as_mask valid)) "Invalid Email; " s1
            | _, _ => s1
            end in
  match assoc "Purchase_Amount" (columns df) with
  | Some amount =>
      where_append (mask_or (le 0 amount) (isna amount))
        "Invalid Purchase Amount; " s2
  | None => s2
  end.

Definition flagged (df : DataFrame) : DataFrame :=
  setitem "Data_Quality_Issues" (issues df) df.

(** Steps 4 to 9 on a frame, and steps 4 to 10. *)
Definition before_flags (df : DataFrame) : DataFrame :=
  map_columns ["City"; "Country"] str_title
    (map_columns ["Customer_Satisfaction"] (clip 1 5)
       (email_checked
          (map_columns ["Gender"] (harmonised GENDER_MAP)
             (map_columns ["Delivery_Status"] (harmonised DELIVERY_STATUS_MAP)
                (map_columns ["Payment_Mode"] (harmonised PAYMENT_MODE_MAP)
                   (map_columns DATE_COLUMNS to_datetime
                      (map_columns NUMERIC_COLUMNS to_numeric df))))))).

Definition after_categories (df : DataFrame) : DataFrame :=
  flagged (before_flags df).

(** The issues of one row, from its customer name, its validity flag and its
    purchase amount ([None] where the check does not apply). *)
Definition is_true (v : cell) : bool :=
  match v with Bool b => b | _ => false end.

Definition row_issues (name valid amount : option cell) : string :=
  (match name with
   | Some v => if name_missing v then "Missing Customer Name; " else ""
   | None => ""
   end) +:+
  (match valid with
   | Some v => if negb (is_true v) then "Invalid Email; " else ""
   | None => ""
   end) +:+
  (match amount with
   | Some v => if bad_amount v then "Invalid Purchase Amount; " else ""
   | None => ""
   end).

(** The numeric value of a cell, and the order on floats. *)
Definition numeric_value (c : cell) : option pyfloat :=
  match c with
  | Int z => Some (float_of_Z z)
  | Float x => Some x
  | _ => None
  end.

Definition parsed_value (o : option num) : option pyfloat :=
  match o with
  | Some (NInt z) => Some (float_of_Z z)
  | Some (NFloat x) => Some x
  | None => None
  end.

Definition float_lt (x y : pyfloat) : bool := negb (float_le y x).

Definition in_range (lo hi : Z) (c : cell) : bool := cell_ge c lo && cell_le c hi.

(** A frame in which the missing cells of the declared text columns hold
    their text instead: the string ["nan"] for NaN, the string ["NaT"] for
    NaT. *)
Definition stringify_missing (df : DataFrame) : DataFrame :=
  {| nrows := nrows df;
     columns := (λ c : string * Series,
                   if bool_decide (PyStr.strip c.1 ∈ TEXT_COLUMNS)
                   then (c.1, (λ v, match v with
                                    | NaN => Str "nan"
                                    | NaT => Str "NaT"
                                    | _ => v
                                    end) <$> c.2)
                   else c)
                <$> columns df |}.

End readings.

(** The shape that [EMAIL_REGEX] describes: [local@domain.tld]. *)
Fixpoint all_chars (p : ascii → bool) (s : string) : bool :=
  match s with
  | EmptyString => true
  | String c s' => p c && all_chars p s'
  end.

Definition email_shape (s : string) : Prop :=
  ∃ loc dom tld : string,
    s = loc +:+ "@" +:+ dom +:+ "." +:+ tld ∧
    loc ≠ "" ∧ all_chars local_char loc = true ∧
    dom ≠ "" ∧ all_chars domain_char dom = true ∧
    (2 ≤ String.length tld)%nat ∧ all_chars PyStr.is_alpha tld = true.

(** ** Worked inputs *)

(** An instance of the scalar conversions for the worked inputs: integers
    written in decimal are parsed, nothing else is. *)
Definition plain_coerce_numeric (c : cell) : option num :=
  match c with
  | Str s => (λ i, NInt (Z.of_int i)) <$> NilZero.int_of_string (PyStr.strip s)
  | Bool b => Some (NInt (if b then 1 else 0))
  | _ => None
  end.

Definition plain_to_datetime (c : cell) : option Z :=
  match c with
  | Timestamp ns => Some ns
  | _ => None
  end.

Definition plain_str_of_float (x : pyfloat) : string :=
  match x with
  | Fin q => NilZero.string_of_int (Z.to_int (QArith_base.Qnum (this q))) +:+ "/"
             +:+ NilZero.string_of_int (Z.to_int (Zpos (QArith_base.Qden (this q))))
  | PosInf => "inf"
  | NegInf => "-inf"
  end.

Definition plain_scalars : PandasScalars := {|
  str_of_float := plain_str_of_float;
  str_of_timestamp := λ ns, NilZero.string_of_int (Z.to_int ns);
  coerce_numeric := plain_coerce_numeric;
  to_datetime_scalar := plain_to_datetime
|}.

Definition orders : DataFrame := {|
  nrows := 3;
  columns :=
    [ (" Customer_Name", [Str ""; NaN; Str " Asha Rao "]);
      ("Email", [Str "not-an-email"; NaN; Str " Asha.Rao@Example.COM "]);
      ("Purchase_Amount", [Int (-5); Str "12"; Float (float_of_Z 40)]);
      ("Product_Name", [Str "Gaming Laptop Pro"; Str "Pen"; Str "Sofa shoes"]);
      ("Product_Category", [Str "Home"; Str " Office "; NaN]);
      ("Customer_Satisfaction", [Int 7; NaN; Int 0]);
      ("Payment_Mode", [Str " upi"; Str "Cheque"; Str "CASH"]);
      ("Gender", [Str "F"; Str "Other"; NaN]);
      ("City", [Str "new delhi"; Str "PUNE"; NaN]) ]
|}.

(** What [clean_dataset] returns for [orders]. *)
Definition orders_cleaned : DataFrame := {|
  nrows := 3;
  columns :=
    [ ("Customer_Name", [Str ""; Str "nan"; Str "Asha Rao"]);
      ("Email", [Str "not-an-email"; Str "nan"; Str "asha.rao@example.com"]);
      ("Purchase_Amount",
       [Float (float_of_Z (-5)); Float (float_of_Z 12); Float (float_of_Z 40)]);
      ("Product_Name", [Str "Gaming Laptop Pro"; Str "Pen"; Str "Sofa shoes"]);
      ("Product_Category", [Str "Electronics"; Str "Office"; Str "Fashion"]);
      ("Customer_Satisfaction", [Float (float_of_Z 5); NaN; Float (float_of_Z 1)]);
      ("Payment_Mode", [Str "UPI"; Str "Cheque"; Str "Cash"]);
      ("Gender", [Str "Female"; Str "Other"; Str "nan"]);
      ("City", [Str "New Delhi"; Str "Pune"; Str "Nan"]);
      ("Email_Valid", [Bool false; Bool false; Bool true]);
      ("Data_Quality_Issues",
       [Str "Missing Customer Name; Invalid Email; Invalid Purchase Amount; ";
        Str "Invalid Email; "; Str ""]) ]
|}.

(** A frame with a product name and no category column. *)
Definition uncategorised : DataFrame :=
  {| nrows := 1; columns := [ ("Product_Name", [Str "Pen"]) ] |}.

(** A frame without the product-name column. *)
Definition no_product_name : DataFrame :=
  {| nrows := 1; columns := [ ("Gender", [Str "F"]); ("Age", [Int 31]) ] |}.

(** A sheet whose customer-name column holds dates: a datetime column, with
    NaT for the cell left empty. *)
Definition dated_names : DataFrame :=
  {| nrows := 2;
     columns := [ ("Customer_Name", [Timestamp 0; NaT]);
                  ("Product_Name", [Str "Pen"; Str "Novel"]) ] |}.

(** ** Cleaning, column by column *)

Section rules.
Context `{PandasScalars}.

(** What the steps make of the column labelled [c], taken together: the text
    normalisation and then the step of the column, if it has one.  (The
    category column also depends on the product names, see [corrected]; the
    columns of validity flags and of issues are computed from other
    columns.) *)
Definition column_rule (c : string) (s : Series) : Series :=
  if bool_decide (c ∈ [ "City"; "Country" ]) then str_title (normalise s)
  else if bool_decide (c = "Payment_Mode")
  then harmonised PAYMENT_MODE_MAP (normalise s)
  else if bool_decide (c = "Delivery_Status")
  then harmonised DELIVERY_STATUS_MAP (normalise s)
  else if bool_decide (c = "Gender") then harmonised GENDER_MAP (normalise s)
  else if bool_decide (c = "Email") then lower_strip (normalise s)
  else if bool_decide (c ∈ TEXT_COLUMNS) then normalise s
  else if bool_decide (c = "Customer_Satisfaction") then clip 1 5 (to_numeric s)
  else if bool_decide (c ∈ NUMERIC_COLUMNS) then to_numeric s
  else if bool_decide (c ∈ DATE_COLUMNS) then to_datetime s
  else s.

End rules.

(** ** Files: [_read_file], [_write_file] and [load_clean_validate] *)

(** [s.endswith(suffix)] *)
Fixpoint ends_with (suffix s : string) : bool :=
  bool_decide (s = suffix) ||
  match s with
  | EmptyString => false
  | String _ s' => ends_with suffix s'
  end.

(** Patterns compiled with [re.I]: a character of the pattern matches the
    characters with the same lower case. *)
Definition Chr_i (a : ascii) : Re.regex :=
  Re.Class (λ c, bool_decide (PyStr.lower_char c = PyStr.lower_char a)).

Fixpoint Word_i (w : string) : Re.regex :=
  match w with
  | EmptyString => Re.Eps
  | String a w' => Re.Cat (Chr_i a) (Word_i w')
  end.

Definition Opt (r : Re.regex) : Re.regex := Re.Alt r Re.Eps.

(** [\.(csv|xlsx?|xls)] under [re.I]; the final [$] is [sub_extension]'s. *)
Definition EXTENSION_REGEX : Re.regex :=
  Re.Cat (Chr_i ".")
    (Re.Alt (Word_i "csv")
       (Re.Alt (Re.Cat (Word_i "xls") (Opt (Chr_i "x"))) (Word_i "xls"))).

(** The template [_cleaned.\1] for a matched text [m]: group 1 is what
    follows the dot that [m] starts with. *)
Definition expand_template (m : string) : string :=
  "_cleaned." +:+ match m with
                  | EmptyString => EmptyString
                  | String _ group1 => group1
                  end.

(** [re.sub(r"\.(csv|xlsx?|xls)$", r"_cleaned.\1", path, flags=re.I)]: the
    leftmost place where the pattern matches up to the end of the path, or up
    to a newline that ends it, is replaced. *)
Fixpoint sub_extension (path : string) : string :=
  match path with
  | EmptyString => EmptyString
  | String c rest =>
      if Re.accepts EXTENSION_REGEX path then expand_template path
      else if bool_decide (PyStr.last_char path = Some Re.LF) &&
              Re.accepts EXTENSION_REGEX (PyStr.drop_last path)
      then expand_template (PyStr.drop_last path) +:+ String Re.LF EmptyString
      else String c (sub_extension rest)
  end.

(** What the script leaves outside: the files it has written, in order, and
    the lines it has printed. *)
Inductive file_format : Type := CSV | Excel.

Record written_file : Type := {
  file_format_of : file_format;
  file_path : string;
  file_frame : DataFrame
}.

Inductive message : Type :=
| Summary (rows issues : nat)
| Saved (path : string)
| Snapshot (nulls : list (string * nat))
| Failed (e : exn).

Record world : Type := {
  disk : list written_file;
  stdout : list message
}.

Definition IO (A : Type) : Type := world → outcome A * world.

#[global] Instance IO_ret : MRet IO := λ A a w, (Ok a, w).
#[global] Instance IO_bind : MBind IO := λ A B f m w,
  match m w with
  | (Ok a, w') => f a w'
  | (Raise e, w') => (Raise e, w')
  end.

Definition lift {A : Type} (o : outcome A) : IO A := λ w, (o, w).

Definition print (m : message) : IO unit := λ w,
  (Ok tt, {| disk := disk w; stdout := stdout w ++ [m] |}).

(** The readers and writers of pandas: what [pd.read_csv(path)] and
    [pd.read_excel(path)] return or raise, and whether
    [df.to_csv(path, index=False)] and [df.to_excel(path, index=False)]
    complete or raise (a missing directory, no engine for the extension).
    The exceptions they raise are only ever caught as [Exception]. *)
Class PandasFiles : Type := {
  read_csv : string → outcome DataFrame;
  read_excel : string → outcome DataFrame;
  to_csv : string → DataFrame → outcome unit;
  to_excel : string → DataFrame → outcome unit
}.

(** [m.sum()] of a boolean series *)
Definition sum_mask (m : Mask) : nat := List.length (filter (λ b : bool, b = true) m).

(** [s != v] for a string [v] *)
Definition ne_str (v : string) (s : Series) : Mask :=
  (λ c, match c with Str x => negb (bool_decide (x = v)) | _ => true end) <$> s.

(** The summary that [clean_dataset] prints before it returns. *)
Definition summary (df : DataFrame) : outcome message :=
  q ← getitem "Data_Quality_Issues" df;
  Ok (Summary (nrows df) (sum_mask (ne_str "" q))).

(** [df.isnull().sum()]: the number of missing cells of each column. *)
Definition null_counts (df : DataFrame) : list (string * nat) :=
  (λ c : string * Series, (c.1, sum_mask (isna c.2))) <$> columns df.

(** The test of [_read_file] on the extension. *)
Definition supported (path : string) : bool :=
  ends_with ".csv" (PyStr.lower path) ||
  (ends_with ".xls" (PyStr.lower path) || ends_with ".xlsx" (PyStr.lower path)).

Section files.
Context `{PandasScalars} `{PandasFiles}.

Definition _read_file (path : string) : outcome DataFrame :=
  if ends_with ".csv" (PyStr.lower path) then read_csv path
  else if ends_with ".xls" (PyStr.lower path) || ends_with ".xlsx" (PyStr.lower path)
  then read_excel path
  else Raise (ValueError "Unsupported file format → use CSV or Excel.").

(** A write that completes adds the file to the disk. *)
Definition write (fmt : file_format) (path : string) (df : DataFrame) : IO unit :=
  λ w,
  match (match fmt with CSV => to_csv | Excel => to_excel end) path df with
  | Ok _ =>
      (Ok tt,
       {| disk := disk w ++ [ {| file_format_of := fmt; file_path := path;
                                 file_frame := df |} ];
          stdout := stdout w |})
  | Raise e => (Raise e, w)
  end.

Definition _write_file (df : DataFrame) (original_path : string) : IO string :=
  let cleaned_path := sub_extension original_path in
  (if ends_with ".csv" (PyStr.lower cleaned_path)
   then write CSV cleaned_path df
   else write Excel cleaned_path df);;
  mret cleaned_path.

(** A call of [clean_dataset] on the contents of a frame, with the summary
    it prints before it returns. *)
Definition clean_call (df : DataFrame) : IO DataFrame :=
  df ← lift (clean_frame df);
  line ← lift (summary df);
  print line;;
  mret df.

(** [load_clean_validate(file_path)]: the body of the [try], then the
    [except Exception] clause. *)
Definition load_clean_validate (file_path : string) : world → option DataFrame * world :=
  λ w,
  match (df_raw ← lift (_read_file file_path);
         df_clean ← clean_call df_raw;
         out_path ← _write_file df_clean file_path;
         print (Saved out_path);;
         print (Snapshot (null_counts df_clean));;
         mret df_clean) w with
  | (Ok df_clean, w') => (Some df_clean, w')
  | (Raise exc, w') =>
      (None, {| disk := disk w'; stdout := stdout w' ++ [Failed exc] |})
  end.

End files.

(** Files for the worked inputs: one CSV file holding [orders], one
    spreadsheet holding [no_product_name]; every write completes. *)
Definition sample_files : PandasFiles := {|
  read_csv := λ path,
    if bool_decide (path = "data/Orders.CSV") then Ok orders
    else Raise (ValueError "no such file");
  read_excel := λ path,
    if bool_decide (path = "book.xlsx") then Ok no_product_name
    else Raise (ValueError "no such file");
  to_csv := λ _ _, Ok tt;
  to_excel := λ _ _, Ok tt
|}.

Definition empty_world : world := {| disk := []; stdout := [] |}.

(** A frame with a column that the script declares nowhere, and a column
    of dates. *)
Definition receipts : DataFrame :=
  {| nrows := 2;
     columns := [ ("Order_ID", [Int 7; Int 8]);
                  ("Product_Name", [Str "Novel"; Str "Pen"]);
                  ("Product_Category", [Str "Paper"; Str "Office"]);
                  ("Purchase_Date", [Timestamp 5; NaT]) ] |}.

(** What [clean_dataset] returns for [receipts]. *)
Definition receipts_cleaned : DataFrame :=
  {| nrows := 2;
     columns := [ ("Order_ID", [Int 7; Int 8]);
                  ("Product_Name", [Str "Novel"; Str "Pen"]);
                  ("Product_Category", [Str "Books"; Str "Office"]);
                  ("Purchase_Date", [Timestamp 5; NaT]);
                  ("Data_Quality_Issues", [Str ""; Str ""]) ] |}.

(** The world after [load_clean_validate] on the CSV file of the worked
    inputs, started with nothing written and nothing printed. *)
Definition orders_saved : world :=
  {| disk := [ {| file_format_of := CSV;
                  file_path := "data/Orders_cleaned.CSV";
                  file_frame := orders_cleaned |} ];
     stdout := [ Summary 3 2;
                 Saved "data/Orders_cleaned.CSV";
                 Snapshot (null_counts orders_cleaned) ] |}.

(** * Properties *)

(** ** Strings *)

Section strings.
Import PyStr.

Lemma lstrip_shape (s : string) :
  lstrip s = "" ∨ ∃ c s', lstrip s = String c s' ∧ is_space c = false.
Proof.
  induction s as [|c s IH]; simpl; [by left|].
  destruct (is_space c) eqn:E; [done|]. right. by exists c, s.
Qed.

Lemma lstrip_fixed (c : ascii) (s : string) :
  is_space c = false → lstrip (String c s) = String c s.
Proof. intros E. simpl. by rewrite E. Qed.

Lemma rstrip_head (c : ascii) (s : string) :
  is_space c = false → rstrip (String c s) = String c (rstrip s).
Proof. intros E. simpl. by rewrite E. Qed.

Lemma rstrip_idem (s : string) : rstrip (rstrip s) = rstrip s.
Proof.
  induction s as [|c s IH]; simpl; [done|].
  destruct (is_space c && is_empty (rstrip s)) eqn:E; [done|].
  simpl. by rewrite IH, E.
Qed.

Lemma strip_idem (s : string) : strip (strip s) = strip s.
Proof.
  unfold strip. destruct (lstrip_shape s) as [->|(c & s' & -> & E)]; [done|].
  rewrite (rstrip_head _ _ E), (lstrip_fixed _ _ E), (rstrip_head _ _ E).
  by rewrite rstrip_idem.
Qed.

Lemma rstrip_last (s : string) (c : ascii) :
  last_char (rstrip s) = Some c → is_space c = false.
Proof.
  revert c. induction s as [|a s IH]; intros c; simpl; [done|].
  destruct (is_space a && is_empty (rstrip s)) eqn:E; [done|].
  simpl. destruct (rstrip s) as [|b r] eqn:R.
  - intros [= <-]. simpl in E. by rewrite andb_true_r in E.
  - intros Hl. by apply IH.
Qed.

Lemma strip_last (s : string) (c : ascii) :
  last_char (strip s) = Some c → is_space c = false.
Proof. apply rstrip_last. Qed.

End strings.

Lemma append_nil_l (s : string) : "" +:+ s = s.
Proof. reflexivity. Qed.

Lemma append_cons (c : ascii) (s t : string) :
  String c s +:+ t = String c (s +:+ t).
Proof. reflexivity. Qed.

Lemma append_nil_r (s : string) : s +:+ "" = s.
Proof. induction s as [|c s IH]; [done|]. by rewrite append_cons, IH. Qed.

Lemma append_assoc (s t u : string) : (s +:+ t) +:+ u = s +:+ (t +:+ u).
Proof. induction s as [|c s IH]; [done|]. by rewrite !append_cons, IH. Qed.

Lemma append_eq_nil (s t : string) : s +:+ t = "" → s = "" ∧ t = "".
Proof. destruct s; [done|]. rewrite append_cons. discriminate. Qed.

Lemma append_eq_cons (s t : string) (c : ascii) (u : string) :
  s +:+ t = String c u →
  (s = "" ∧ t = String c u) ∨ (∃ s', s = String c s' ∧ u = s' +:+ t).
Proof.
  destruct s as [|a s]; [by left|]. rewrite append_cons.
  intros [= -> <-]. right. by exists s.
Qed.

Section regex.
Import Re.

Lemma nullable_lang (r : regex) : nullable r = true ↔ lang r "".
Proof.
  induction r as [| |p|r1 IH1 r2 IH2|r1 IH1 r2 IH2|r IH]; simpl.
  - split; [done|]. inversion 1.
  - split; [constructor|done].
  - split; [done|]. inversion 1.
  - rewrite andb_true_iff, IH1, IH2. split.
    + intros [H1 H2]. apply (lang_cat _ _ "" "" H1 H2).
    + inversion 1 as [| |? ? s1 s2 H1 H2 E1 E2| | | |]; subst.
      by apply append_eq_nil in E2 as [-> ->].
  - rewrite orb_true_iff, IH1, IH2. split.
    + intros [?|?]; [by apply lang_alt_l|by apply lang_alt_r].
    + inversion 1; subst; auto.
  - split; [constructor|done].
Qed.

(** A non-empty word of [r*] starts with a non-empty word of [r]. *)
Lemma lang_star_cons_inv (r : regex) (c : ascii) (s : string) :
  lang (Star r) (String c s) →
  ∃ s1 s2, s = s1 +:+ s2 ∧ lang r (String c s1) ∧ lang (Star r) s2.
Proof.
  intros Hl. remember (Star r) as r' eqn:Er. remember (String c s) as w eqn:Ew.
  revert c s Ew.
  induction Hl as [| | | | | |r0 s1 s2 H1 _ H2 IH2]; intros a w Ew; try discriminate.
  injection Er as ->.
  apply append_eq_cons in Ew as [[-> ->]|(s1' & -> & ->)].
  - by apply IH2.
  - by exists s1', s2.
Qed.

Lemma deriv_lang (r : regex) (c : ascii) (s : string) :
  lang (deriv c r) s ↔ lang r (String c s).
Proof.
  revert s. induction r as [| |p|r1 IH1 r2 IH2|r1 IH1 r2 IH2|r IH]; intros s; simpl.
  - split; inversion 1.
  - split; inversion 1.
  - destruct (p c) eqn:E; split.
    + inversion 1; subst. by constructor.
    + inversion 1; subst. constructor.
    + inversion 1.
    + inversion 1; congruence.
  - assert (lang (Cat (deriv c r1) r2) s ↔
            ∃ s1 s2, s = s1 +:+ s2 ∧ lang r1 (String c s1) ∧ lang r2 s2) as Hcat.
    { split.
      - inversion 1 as [| |? ? s1 s2 H1 H2| | | |]; subst.
        exists s1, s2. by rewrite <- IH1.
      - intros (s1 & s2 & -> & H1 & H2). constructor; [by apply IH1|done]. }
    split.
    + intros Hl.
      assert (lang (Cat (deriv c r1) r2) s ∨ (nullable r1 = true ∧ lang (deriv c r2) s))
        as [Hl'|[Hn Hl']].
      { destruct (nullable r1) eqn:En; [|by left].
        inversion Hl; subst; auto. }
      * apply Hcat in Hl' as (s1 & s2 & -> & H1 & H2).
        apply (lang_cat _ _ (String c s1) s2 H1 H2).
      * apply nullable_lang in Hn. apply IH2 in Hl'.
        apply (lang_cat _ _ "" _ Hn Hl').
    + inversion 1 as [| |? ? s1 s2 H1 H2 E1 E2| | | |]; subst.
      apply append_eq_cons in E2 as [[-> ->]|(s1' & -> & ->)].
      * pose proof (proj2 (nullable_lang r1) H1) as Hn. rewrite Hn.
        apply lang_alt_r. by apply IH2.
      * assert (lang (Cat (deriv c r1) r2) (s1' +:+ s2)) as Hl'.
        { apply Hcat. by exists s1', s2. }
        destruct (nullable r1); [by apply lang_alt_l|done].
  - split.
    + inversion 1; subst;
        [apply lang_alt_l; by apply IH1|apply lang_alt_r; by apply IH2].
    + inversion 1; subst;
        [apply lang_alt_l; by apply IH1|apply lang_alt_r; by apply IH2].
  - split.
    + inversion 1 as [| |? ? s1 s2 H1 H2| | | |]; subst.
      apply IH in H1. apply (lang_star_cons _ (String c s1) s2 H1 H2).
    + intros Hl. apply lang_star_cons_inv in Hl as (s1 & s2 & -> & H1 & H2).
      constructor; [by apply IH|done].
Qed.

Lemma accepts_lang (r : regex) (s : string) : accepts r s = true ↔ lang r s.
Proof.
  revert r. induction s as [|c s IH]; intros r; simpl.
  - apply nullable_lang.
  - rewrite IH. apply deriv_lang.
Qed.

Lemma lang_cat_iff (r1 r2 : regex) (s : string) :
  lang (Cat r1 r2) s ↔ ∃ s1 s2, s = s1 +:+ s2 ∧ lang r1 s1 ∧ lang r2 s2.
Proof.
  split.
  - inversion 1; subst. eauto.
  - intros (s1 & s2 & -> & H1 & H2). by constructor.
Qed.

Lemma lang_class_iff (p : ascii → bool) (s : string) :
  lang (Class p) s ↔ ∃ c, s = String c "" ∧ p c = true.
Proof.
  split.
  - inversion 1; subst. eauto.
  - intros (c & -> & Hp). by constructor.
Qed.

Lemma lang_chr_iff (a : ascii) (s : string) : lang (Chr a) s ↔ s = String a "".
Proof.
  unfold Chr. rewrite lang_class_iff. split.
  - intros (c & -> & Hc). by apply bool_decide_eq_true in Hc as ->.
  - intros ->. exists a. split; [done|]. by apply bool_decide_eq_true.
Qed.

Lemma lang_star_class (p : ascii → bool) (s : string) :
  lang (Star (Class p)) s ↔ all_chars p s = true.
Proof.
  split.
  - intros Hl. remember (Star (Class p)) as r eqn:Er.
    induction Hl as [| | | | | |r0 s1 s2 H1 _ H2 IH2]; try discriminate; [done|].
    injection Er as ->. inversion H1; subst.
    rewrite append_cons, append_nil_l. simpl. rewrite IH2 by done.
    by rewrite andb_true_r.
  - induction s as [|c s IH]; simpl; [constructor|].
    intros [Hc Hs]%andb_true_iff.
    apply (lang_star_cons _ (String c "") s); [by constructor|by apply IH].
Qed.

Lemma lang_plus_class (p : ascii → bool) (s : string) :
  lang (Plus (Class p)) s ↔ s ≠ "" ∧ all_chars p s = true.
Proof.
  unfold Plus. rewrite lang_cat_iff. split.
  - intros (s1 & s2 & -> & (c & -> & Hc)%lang_class_iff & Hs%lang_star_class).
    rewrite append_cons, append_nil_l. simpl. by rewrite Hc, Hs.
  - intros [Hne Hall]. destruct s as [|c s]; [done|].
    simpl in Hall. apply andb_true_iff in Hall as [Hc Hs].
    exists (String c ""), s. split; [done|].
    split; [by constructor|by apply lang_star_class].
Qed.

Lemma lang_at_least2_class (p : ascii → bool) (s : string) :
  lang (AtLeast2 (Class p)) s ↔ (2 ≤ String.length s)%nat ∧ all_chars p s = true.
Proof.
  unfold AtLeast2. rewrite lang_cat_iff. split.
  - intros (s1 & s2 & -> & (c & -> & Hc)%lang_class_iff & Hs).
    apply lang_plus_class in Hs as [Hne Hs].
    rewrite append_cons, append_nil_l. simpl. rewrite Hc, Hs.
    split; [|done]. destruct s2; [done|simpl; lia].
  - intros [Hlen Hall]. destruct s as [|c s]; [simpl in Hlen; lia|].
    simpl in Hall. apply andb_true_iff in Hall as [Hc Hs].
    exists (String c ""), s. split; [done|].
    split; [by constructor|]. apply lang_plus_class. split; [|done].
    intros ->. simpl in Hlen. lia.
Qed.

Lemma email_regex_shape (s : string) : lang EMAIL_REGEX s ↔ email_shape s.
Proof.
  unfold EMAIL_REGEX, email_shape. split.
  - intros (loc & s1 & -> & [Hl1 Hl2]%lang_plus_class & H1)%lang_cat_iff.
    apply lang_cat_iff in H1 as (at_ & s2 & -> & ->%lang_chr_iff & H2).
    apply lang_cat_iff in H2 as (dom & s3 & -> & [Hd1 Hd2]%lang_plus_class & H3).
    apply lang_cat_iff in H3
      as (dot & tld & -> & ->%lang_chr_iff & [Ht1 Ht2]%lang_at_least2_class).
    by exists loc, dom, tld.
  - intros (loc & dom & tld & -> & Hl1 & Hl2 & Hd1 & Hd2 & Ht1 & Ht2).
    constructor; [by apply lang_plus_class|].
    constructor; [by apply lang_chr_iff|].
    constructor; [by apply lang_plus_class|].
    constructor; [by apply lang_chr_iff|].
    by apply lang_at_least2_class.
Qed.

End regex.

(** ** Columns of a frame *)

Lemma assoc_set_eq (col : string) (s : Series) (cs : list (string * Series)) :
  assoc col (assoc_set col s cs) = Some s.
Proof.
  induction cs as [|[name s0] cs IH]; simpl.
  - by rewrite bool_decide_eq_true_2.
  - case_bool_decide as E; simpl; [by rewrite bool_decide_eq_true_2|].
    by rewrite bool_decide_eq_false_2.
Qed.

Lemma assoc_set_ne (col c : string) (s : Series) (cs : list (string * Series)) :
  col ≠ c → assoc c (assoc_set col s cs) = assoc c cs.
Proof.
  intros Hne. induction cs as [|[name s0] cs IH]; simpl.
  - by rewrite bool_decide_eq_false_2.
  - case_bool_decide as E; simpl.
    + subst name. by rewrite !bool_decide_eq_false_2.
    + by rewrite IH.
Qed.

Lemma assoc_set_twice (col : string) (s1 s2 : Series) (cs : list (string * Series)) :
  assoc_set col s2 (assoc_set col s1 cs) = assoc_set col s2 cs.
Proof.
  induction cs as [|[name s0] cs IH]; simpl.
  - by rewrite bool_decide_eq_true_2.
  - case_bool_decide as E; simpl.
    + by rewrite bool_decide_eq_true_2.
    + by rewrite bool_decide_eq_false_2, IH.
Qed.

Lemma assoc_set_same (col : string) (s : Series) (cs : list (string * Series)) :
  assoc col cs = Some s → assoc_set col s cs = cs.
Proof.
  induction cs as [|[name s0] cs IH]; simpl; [done|].
  case_bool_decide as E; [by intros [= ->]|]. intros Hs. by rewrite IH.
Qed.

Lemma assoc_None (col : string) (cs : list (string * Series)) :
  assoc col cs = None ↔ col ∉ cs.*1.
Proof.
  induction cs as [|[name s0] cs IH]; simpl.
  - split; [intros _; apply not_elem_of_nil|done].
  - rewrite not_elem_of_cons. case_bool_decide as E.
    + split; [done|]. intros [Hne _]. by subst.
    + rewrite IH. split; [by intros ?|by intros [_ ?]].
Qed.

Lemma assoc_is_Some (col : string) (cs : list (string * Series)) :
  is_Some (assoc col cs) ↔ col ∈ cs.*1.
Proof.
  rewrite <- not_eq_None_Some, assoc_None.
  destruct (decide (col ∈ cs.*1)); naive_solver.
Qed.

Lemma labels_assoc_set_in (col : string) (s : Series) (cs : list (string * Series)) :
  col ∈ cs.*1 → (assoc_set col s cs).*1 = cs.*1.
Proof.
  induction cs as [|[name s0] cs IH]; simpl; [by intros ?%elem_of_nil|].
  case_bool_decide as E; simpl; [done|].
  intros [?|Hin]%elem_of_cons; [by subst|]. f_equal. by apply IH.
Qed.

Lemma assoc_set_notin (col : string) (s : Series) (cs : list (string * Series)) :
  col ∉ cs.*1 → assoc_set col s cs = cs ++ [(col, s)].
Proof.
  induction cs as [|[name s0] cs IH]; simpl; [done|].
  intros [Hne Hnin]%not_elem_of_cons.
  rewrite bool_decide_eq_false_2 by done. by rewrite IH.
Qed.

Lemma NoDup_assoc_set (col : string) (s : Series) (cs : list (string * Series)) :
  NoDup cs.*1 → NoDup (assoc_set col s cs).*1.
Proof.
  intros Hnd. destruct (decide (col ∈ cs.*1)) as [Hin|Hnin].
  - by rewrite labels_assoc_set_in.
  - rewrite assoc_set_notin, fmap_app by done. simpl.
    apply list.NoDup_app. split; [done|]. split; [|apply NoDup_singleton].
    intros x Hx ->%list_elem_of_singleton. done.
Qed.

Lemma assoc_set_map (col : string) (f : Series → Series) (s0 : Series)
    (cs : list (string * Series)) :
  NoDup cs.*1 → assoc col cs = Some s0 →
  assoc_set col (f s0) cs =
  (λ c : string * Series, if bool_decide (c.1 ∈ [col]) then (c.1, f c.2) else c) <$> cs.
Proof.
  induction cs as [|[name s1] cs IH]; simpl; [done|].
  intros [Hnin Hnd]%list.NoDup_cons. case_bool_decide as E.
  - subst name. intros [= ->].
    rewrite bool_decide_eq_true_2 by (by apply list_elem_of_singleton).
    f_equal. symmetry. rewrite <- (list_fmap_id cs) at 2.
    apply list_fmap_ext. intros i [n s1] Hi. simpl.
    rewrite bool_decide_eq_false_2; [done|].
    intros ->%list_elem_of_singleton. apply Hnin.
    apply list_elem_of_fmap. exists (col, s1). split; [done|].
    by apply list_elem_of_lookup_2 in Hi.
  - intros Hs. rewrite bool_decide_eq_false_2.
    + by rewrite IH.
    + by intros ->%list_elem_of_singleton.
Qed.

Lemma map_notin_id (col : string) (f : Series → Series) (cs : list (string * Series)) :
  col ∉ cs.*1 →
  (λ c : string * Series, if bool_decide (c.1 ∈ [col]) then (c.1, f c.2) else c)
    <$> cs = cs.
Proof.
  intros Hnin. rewrite <- (list_fmap_id cs) at 2.
  apply list_fmap_ext. intros i [n s1] Hi. simpl.
  rewrite bool_decide_eq_false_2; [done|].
  intros ->%list_elem_of_singleton. apply Hnin.
  apply list_elem_of_fmap. exists (col, s1). split; [done|].
  by apply list_elem_of_lookup_2 in Hi.
Qed.

Lemma has_column_true (col : string) (df : DataFrame) :
  has_column col df = true ↔ is_Some (assoc col (columns df)).
Proof. unfold has_column, labels. by rewrite bool_decide_eq_true, assoc_is_Some. Qed.

Lemma has_column_false (col : string) (df : DataFrame) :
  has_column col df = false ↔ assoc col (columns df) = None.
Proof. unfold has_column, labels. by rewrite bool_decide_eq_false, assoc_None. Qed.

Lemma has_column_assoc (col : string) (df : DataFrame) :
  has_column col df = bool_decide (is_Some (assoc col (columns df))).
Proof.
  destruct (has_column col df) eqn:E; symmetry.
  - apply bool_decide_eq_true. by apply has_column_true.
  - apply bool_decide_eq_false. apply has_column_false in E. rewrite E.
    by intros [? ?].
Qed.

Section frames.
Context `{PandasScalars}.

Lemma assoc_setitem (col c : string) (s : Series) (df : DataFrame) :
  assoc c (columns (setitem col s df)) =
  if bool_decide (col = c) then Some s else assoc c (columns df).
Proof.
  simpl. case_bool_decide as E.
  - subst. apply assoc_set_eq.
  - by apply assoc_set_ne.
Qed.

Lemma NoDup_setitem (col : string) (s : Series) (df : DataFrame) :
  NoDup (labels df) → NoDup (labels (setitem col s df)).
Proof. apply NoDup_assoc_set. Qed.

Lemma columns_length (col : string) (s : Series) (df : DataFrame) :
  well_formed df → assoc col (columns df) = Some s → List.length s = nrows df.
Proof.
  intros [_ Hlen]. induction (columns df) as [|[name s0] cs IH]; simpl; [done|].
  apply list.Forall_cons in Hlen as [Hs Hlen]. case_bool_decide.
  - by intros [= <-].
  - by apply IH.
Qed.

Lemma well_formed_setitem (col : string) (s : Series) (df : DataFrame) :
  well_formed df → List.length s = nrows df → well_formed (setitem col s df).
Proof.
  intros [Hnd Hlen] Hs. split; [by apply NoDup_setitem|].
  simpl. induction (columns df) as [|[name s0] cs IH]; simpl.
  - by apply Forall_singleton.
  - apply list.Forall_cons in Hlen as [Hs0 Hlen]. case_bool_decide.
    + by apply list.Forall_cons.
    + apply list.Forall_cons. split; [done|]. by apply IH.
Qed.

Lemma labels_map_columns (cols : list string) (f : Series → Series) (df : DataFrame) :
  labels (map_columns cols f df) = labels df.
Proof.
  unfold labels, map_columns. simpl. rewrite <- list_fmap_compose.
  apply list_fmap_ext. intros i [n s] _. simpl. by case_bool_decide.
Qed.

Lemma assoc_map_columns (cols : list string) (f : Series → Series) (c : string)
    (df : DataFrame) :
  assoc c (columns (map_columns cols f df)) =
  if bool_decide (c ∈ cols) then f <$> assoc c (columns df)
  else assoc c (columns df).
Proof.
  simpl. induction (columns df) as [|[name s0] cs IH].
  - simpl. by case_bool_decide.
  - rewrite fmap_cons. destruct (decide (name = c)) as [->|Hne].
    + simpl. destruct (bool_decide (c ∈ cols)); simpl;
        by rewrite bool_decide_eq_true_2.
    + simpl. destruct (bool_decide (name ∈ cols)); simpl;
        rewrite bool_decide_eq_false_2 by done; apply IH.
Qed.

Lemma well_formed_map_columns (cols : list string) (f : Series → Series)
    (df : DataFrame) :
  (∀ s, List.length (f s) = List.length s) →
  well_formed df → well_formed (map_columns cols f df).
Proof.
  intros Hf [Hnd Hlen]. split; [by rewrite labels_map_columns|].
  simpl. apply Forall_fmap. eapply list.Forall_impl; [exact Hlen|].
  intros [n s] Hs. simpl in *. case_bool_decide; simpl; [|done]. by rewrite Hf.
Qed.

Lemma map_columns_nil (f : Series → Series) (df : DataFrame) :
  map_columns [] f df = df.
Proof.
  destruct df as [n cs]. unfold map_columns. simpl. f_equal.
  rewrite <- (list_fmap_id cs) at 2. apply list_fmap_ext.
  by intros i [name s] _.
Qed.

Lemma map_columns_cons (col : string) (cols : list string) (f : Series → Series)
    (df : DataFrame) :
  col ∉ cols →
  map_columns cols f (map_columns [col] f df) = map_columns (col :: cols) f df.
Proof.
  intros Hnin. unfold map_columns. simpl. f_equal.
  rewrite <- list_fmap_compose. apply list_fmap_ext.
  intros i [name s] _. simpl.
  destruct (decide (name = col)) as [->|Hne].
  - rewrite (bool_decide_eq_true_2 (col ∈ [col])) by (by apply list_elem_of_singleton).
    simpl. rewrite (bool_decide_eq_false_2 (col ∈ cols)) by done.
    by rewrite bool_decide_eq_true_2 by (by left).
  - rewrite (bool_decide_eq_false_2 (name ∈ [col]))
      by (by intros ?%list_elem_of_singleton).
    destruct (decide (name ∈ cols)).
    + by rewrite !bool_decide_eq_true_2 by (done || by right).
    + rewrite !bool_decide_eq_false_2; [done| |done].
      by intros [?|?]%elem_of_cons.
Qed.

(** The guarded assignment [if col in df.columns: df[col] = f(df[col])]. *)
Lemma guarded_update (col : string) (f : Series → Series) (df : DataFrame) :
  NoDup (labels df) →
  (if has_column col df then s ← getitem col df; Ok (setitem col (f s) df)
   else Ok df) = Ok (map_columns [col] f df).
Proof.
  intros Hnd. destruct (has_column col df) eqn:E.
  - apply has_column_true in E as [s Hs]. unfold getitem. rewrite Hs. simpl.
    f_equal. unfold setitem, map_columns. f_equal. by apply assoc_set_map.
  - apply has_column_false in E. f_equal. unfold map_columns.
    destruct df as [n cs]. simpl in *. f_equal. symmetry. apply map_notin_id.
    by apply assoc_None.
Qed.

Lemma for_each_update (cols : list string) (f : Series → Series) (df : DataFrame) :
  NoDup cols → NoDup (labels df) →
  for_each cols
    (λ col df,
       if has_column col df then s ← getitem col df; Ok (setitem col (f s) df)
       else Ok df) df
  = Ok (map_columns cols f df).
Proof.
  intros Hcols. revert df. induction cols as [|col cols IH]; intros df Hnd; simpl.
  - by rewrite map_columns_nil.
  - apply list.NoDup_cons in Hcols as [Hnin Hcols].
    rewrite guarded_update by done. simpl.
    rewrite IH by (done || by rewrite labels_map_columns).
    by rewrite map_columns_cons.
Qed.

End frames.

(** Decides the tests on literal labels that are left in the goal. *)
Ltac decide_labels :=
  repeat match goal with
  | |- context [bool_decide ?P] =>
      let b := eval vm_compute in (bool_decide P) in
      lazymatch b with
      | true => change (bool_decide P) with true
      | false => change (bool_decide P) with false
      end
  end; cbv iota.

Section steps.
Context `{PandasScalars}.

Lemma text_normalisation_eq (df : DataFrame) :
  NoDup (labels df) →
  text_normalisation df = Ok (map_columns TEXT_COLUMNS normalise df).
Proof.
  intros Hnd. unfold text_normalisation.
  apply (for_each_update TEXT_COLUMNS normalise); [compute_done|done].
Qed.

Lemma numeric_coercion_eq (df : DataFrame) :
  NoDup (labels df) →
  numeric_coercion df = Ok (map_columns NUMERIC_COLUMNS to_numeric df).
Proof.
  intros Hnd. unfold numeric_coercion.
  apply (for_each_update NUMERIC_COLUMNS to_numeric); [compute_done|done].
Qed.

Lemma date_parsing_eq (df : DataFrame) :
  NoDup (labels df) →
  date_parsing df = Ok (map_columns DATE_COLUMNS to_datetime df).
Proof.
  intros Hnd. unfold date_parsing.
  apply (for_each_update DATE_COLUMNS to_datetime); [compute_done|done].
Qed.

Lemma proper_case_eq (df : DataFrame) :
  NoDup (labels df) →
  proper_case df = Ok (map_columns ["City"; "Country"] str_title df).
Proof.
  intros Hnd. unfold proper_case.
  apply (for_each_update ["City"; "Country"] str_title); [compute_done|done].
Qed.

Lemma satisfaction_clipping_eq (df : DataFrame) :
  NoDup (labels df) →
  satisfaction_clipping df =
  Ok (map_columns ["Customer_Satisfaction"] (clip 1 5) df).
Proof.
  intros Hnd. unfold satisfaction_clipping.
  by apply (guarded_update "Customer_Satisfaction" (clip 1 5)).
Qed.

Lemma harmonise_eq (col : string) (table : gmap string string) (df : DataFrame) :
  NoDup (labels df) →
  harmonise col table df = Ok (map_columns [col] (harmonised table) df).
Proof.
  intros Hnd. rewrite <- (guarded_update col (harmonised table)) by done.
  unfold harmonise, getitem. destruct (has_column col df); [|done].
  by destruct (assoc col (columns df)).
Qed.

Lemma categorical_harmonisation_eq (df : DataFrame) :
  NoDup (labels df) →
  categorical_harmonisation df =
  Ok (map_columns ["Gender"] (harmonised GENDER_MAP)
        (map_columns ["Delivery_Status"] (harmonised DELIVERY_STATUS_MAP)
           (map_columns ["Payment_Mode"] (harmonised PAYMENT_MODE_MAP) df))).
Proof.
  intros Hnd. unfold categorical_harmonisation.
  rewrite harmonise_eq by done. simpl.
  rewrite harmonise_eq by (by rewrite labels_map_columns). simpl.
  by rewrite harmonise_eq by (by rewrite !labels_map_columns).
Qed.

Lemma email_validation_eq (df : DataFrame) :
  NoDup (labels df) → email_validation df = Ok (email_checked df).
Proof.
  intros Hnd. unfold email_validation, email_checked.
  destruct (has_column "Email" df) eqn:E.
  - apply has_column_true in E as [e He]. unfold getitem. rewrite He. simpl.
    rewrite assoc_set_eq. simpl. f_equal. f_equal.
    unfold setitem, map_columns. f_equal.
    by apply (assoc_set_map "Email" lower_strip).
  - apply has_column_false in E. by rewrite E.
Qed.

Lemma loc_iadd_eq (mask : Mask) (col msg : string) (s : Series) (df : DataFrame) :
  assoc col (columns df) = Some s →
  loc_iadd mask col msg df = Ok (setitem col (where_append mask msg s) df).
Proof. intros Hs. unfold loc_iadd, getitem. by rewrite Hs. Qed.

Lemma setitem_twice (col : string) (s1 s2 : Series) (df : DataFrame) :
  setitem col s2 (setitem col s1 df) = setitem col s2 df.
Proof. unfold setitem. simpl. by rewrite assoc_set_twice. Qed.

Lemma has_column_setitem (col c : string) (s : Series) (df : DataFrame) :
  col ≠ c → has_column c (setitem col s df) = has_column c df.
Proof.
  intros Hne. rewrite !has_column_assoc, assoc_setitem.
  by rewrite (bool_decide_eq_false_2 (col = c)).
Qed.

Lemma setitem_same (col : string) (s : Series) (df : DataFrame) :
  assoc col (columns df) = Some s → setitem col s df = df.
Proof.
  intros Hs. destruct df as [n cs]. unfold setitem. simpl in *.
  by rewrite assoc_set_same.
Qed.

(** One quality check: [if c in df.columns: df.loc[mk(df[c']), issues] += msg],
    on a frame whose column of issues is [q]. *)
Lemma flag_block (c c' msg : string) (mk : Series → Mask) (q : Series)
    (df : DataFrame) :
  "Data_Quality_Issues" ≠ c → "Data_Quality_Issues" ≠ c' →
  (is_Some (assoc c (columns df)) → is_Some (assoc c' (columns df))) →
  (if has_column c (setitem "Data_Quality_Issues" q df)
   then x ← getitem c' (setitem "Data_Quality_Issues" q df);
        loc_iadd (mk x) "Data_Quality_Issues" msg
          (setitem "Data_Quality_Issues" q df)
   else Ok (setitem "Data_Quality_Issues" q df))
  = Ok (setitem "Data_Quality_Issues"
          (match assoc c (columns df), assoc c' (columns df) with
           | Some _, Some x => where_append (mk x) msg q
           | _, _ => q
           end) df).
Proof.
  intros Hc Hc' Hboth. rewrite has_column_setitem by done.
  destruct (has_column c df) eqn:E.
  - apply has_column_true in E. destruct (Hboth E) as [x Hx].
    destruct E as [y Hy]. rewrite Hy, Hx.
    unfold getitem. rewrite assoc_setitem.
    rewrite (bool_decide_eq_false_2 _ Hc'), Hx. simpl.
    rewrite (loc_iadd_eq _ _ _ q).
    + by rewrite setitem_twice.
    + rewrite assoc_setitem. by rewrite bool_decide_eq_true_2.
  - apply has_column_false in E. by rewrite E.
Qed.

Lemma quality_flags_eq (df : DataFrame) :
  (is_Some (assoc "Email" (columns df)) → is_Some (assoc "Email_Valid" (columns df))) →
  quality_flags df = Ok (flagged df).
Proof.
  intros Hvalid. unfold quality_flags, flagged, issues, setitem_scalar.
  set (s0 := replicate (nrows df) (Str "")).
  pose proof (flag_block "Customer_Name" "Customer_Name" "Missing Customer Name; "
                (λ name, mask_or (eq_str "" name) (isna name)) s0 df) as B1.
  cbv beta in B1. rewrite B1 by done. clear B1. simpl.
  set (s1 := match assoc "Customer_Name" (columns df) with
             | Some _ => _ | None => _ end).
  pose proof (flag_block "Email" "Email_Valid" "Invalid Email; "
                (λ valid, mask_not (as_mask valid)) s1 df) as B2.
  cbv beta in B2. rewrite B2 by done. clear B2. simpl.
  set (s2 := match assoc "Email" (columns df) with
             | Some _ => _ | None => _ end).
  pose proof (flag_block "Purchase_Amount" "Purchase_Amount"
                "Invalid Purchase Amount; "
                (λ amount, mask_or (le 0 amount) (isna amount)) s2 df) as B3.
  cbv beta in B3. rewrite B3 by done. clear B3.
  f_equal. f_equal. subst s2 s1.
  destruct (assoc "Customer_Name" (columns df)),
           (assoc "Email" (columns df)),
           (assoc "Email_Valid" (columns df)),
           (assoc "Purchase_Amount" (columns df)); done.
Qed.

End steps.

Section category.
Context `{PandasScalars}.

Lemma category_loop (m : list (string * string)) (df : DataFrame) (mask_any : Mask)
    (names cats : Series) :
  assoc "Product_Name" (columns df) = Some names →
  assoc "Product_Category" (columns df) = Some cats →
  ∃ mask_any',
    for_each m category_body (df, mask_any)
    = Ok (setitem "Product_Category" (corrected m names cats) df, mask_any').
Proof.
  revert df mask_any cats.
  induction m as [|[key cat] m IH]; intros df mask_any cats Hn Hc; simpl.
  - exists mask_any. by rewrite setitem_same.
  - unfold getitem. rewrite Hn. simpl. unfold loc_setitem. rewrite Hc. simpl.
    edestruct (IH (setitem "Product_Category"
                     (where_set (str_contains key (str_lower names)) (Str cat) cats)
                     df))
      as [mask' Hloop].
    + rewrite assoc_setitem. by rewrite bool_decide_eq_false_2.
    + rewrite assoc_setitem. by rewrite bool_decide_eq_true_2.
    + exists mask'. rewrite Hloop. by rewrite setitem_twice.
Qed.

Lemma category_loop_absent (m : list (string * string)) (key cat : string)
    (df : DataFrame) (mask_any : Mask) (names : Series) :
  assoc "Product_Name" (columns df) = Some names →
  assoc "Product_Category" (columns df) = None →
  nrows df ≠ 0%nat →
  ∃ mask_any',
    for_each ((key, cat) :: m) category_body (df, mask_any)
    = Ok (setitem "Product_Category"
            (corrected ((key, cat) :: m) names (replicate (nrows df) NaN)) df,
          mask_any').
Proof.
  intros Hn Hc Hrows. simpl. unfold getitem. rewrite Hn. simpl.
  unfold loc_setitem. rewrite Hc. rewrite bool_decide_eq_false_2 by done. simpl.
  edestruct (category_loop m
               (setitem "Product_Category"
                  (where_set (str_contains key (str_lower names)) (Str cat)
                     (replicate (nrows df) NaN)) df))
    as [mask' Hloop].
  - rewrite assoc_setitem. by rewrite bool_decide_eq_false_2.
  - rewrite assoc_setitem. by rewrite bool_decide_eq_true_2.
  - exists mask'. rewrite Hloop. by rewrite setitem_twice.
Qed.

Lemma category_correction_eq (df : DataFrame) :
  category_correction df = categorised df.
Proof.
  unfold category_correction, categorised.
  destruct (assoc "Product_Name" (columns df)) as [names|] eqn:Hn.
  - destruct (assoc "Product_Category" (columns df)) as [cats|] eqn:Hc.
    + destruct (category_loop CATEGORY_MAPPINGS df (replicate (nrows df) false)
                  names cats Hn Hc) as [mask' ->]. done.
    + case_bool_decide as E.
      * unfold CATEGORY_MAPPINGS. simpl. unfold getitem. rewrite Hn. simpl.
        unfold loc_setitem. rewrite Hc. by rewrite bool_decide_eq_true_2.
      * unfold CATEGORY_MAPPINGS at 1.
        destruct (category_loop_absent
                    [("sofa", "Home"); ("shoes", "Fashion"); ("shampoo", "Beauty");
                     ("novel", "Books")] "laptop" "Electronics" df
                    (replicate (nrows df) false) names Hn Hc E) as [mask' ->].
        done.
  - unfold CATEGORY_MAPPINGS. simpl. unfold getitem. by rewrite Hn.
Qed.

End category.

Section whole.
Context `{PandasScalars}.

Lemma NoDup_email_checked (df : DataFrame) :
  NoDup (labels df) → NoDup (labels (email_checked df)).
Proof.
  intros Hnd. unfold email_checked. destruct (assoc "Email" (columns df)); [|done].
  apply NoDup_setitem. by rewrite labels_map_columns.
Qed.

Lemma categorised_NoDup (df df' : DataFrame) :
  NoDup (labels df) → categorised df = Ok df' → NoDup (labels df').
Proof.
  intros Hnd. unfold categorised.
  destruct (assoc "Product_Name" (columns df)); [|done].
  destruct (assoc "Product_Category" (columns df)).
  - intros [= <-]. by apply NoDup_setitem.
  - case_bool_decide; [done|]. intros [= <-]. by apply NoDup_setitem.
Qed.

Lemma email_valid_present (df : DataFrame) :
  is_Some (assoc "Email" (columns (email_checked df))) →
  is_Some (assoc "Email_Valid" (columns (email_checked df))).
Proof.
  unfold email_checked. destruct (assoc "Email" (columns df)) eqn:E.
  - intros _. rewrite assoc_setitem. by rewrite bool_decide_eq_true_2.
  - rewrite E. by intros [? ?].
Qed.

Lemma tail_steps_eq (df : DataFrame) :
  NoDup (labels df) →
  (df ← numeric_coercion df;
   df ← date_parsing df;
   df ← categorical_harmonisation df;
   df ← email_validation df;
   df ← satisfaction_clipping df;
   df ← proper_case df;
   quality_flags df) = Ok (after_categories df).
Proof.
  intros Hnd.
  rewrite numeric_coercion_eq by done. simpl.
  rewrite date_parsing_eq by (by rewrite !labels_map_columns). simpl.
  rewrite categorical_harmonisation_eq by (by rewrite !labels_map_columns). simpl.
  rewrite email_validation_eq by (by rewrite !labels_map_columns). simpl.
  rewrite satisfaction_clipping_eq
    by (apply NoDup_email_checked; by rewrite !labels_map_columns). simpl.
  rewrite proper_case_eq
    by (rewrite labels_map_columns; apply NoDup_email_checked;
        by rewrite !labels_map_columns). simpl.
  rewrite quality_flags_eq; [done|].
  rewrite !assoc_map_columns. decide_labels. apply email_valid_present.
Qed.

(** The whole pipeline on the contents of a frame. *)
Lemma pipeline_steps_eq (df : DataFrame) :
  NoDup (labels (strip_labels df)) →
  pipeline_steps df =
  (d ← categorised (map_columns TEXT_COLUMNS normalise (strip_labels df));
   Ok (after_categories d)).
Proof.
  intros Hnd. unfold pipeline_steps, column_name_hygiene. simpl.
  rewrite text_normalisation_eq by done. simpl.
  rewrite category_correction_eq.
  destruct (categorised _) as [d|e] eqn:E; [|done]. simpl.
  apply tail_steps_eq. eapply categorised_NoDup; [|exact E].
  by rewrite labels_map_columns.
Qed.

End whole.

(** ** The store *)

Section store.
Context `{PandasScalars}.

Lemma in_place_last (h : list DataFrame) (x : DataFrame)
    (step : DataFrame → outcome DataFrame) :
  in_place (List.length h) step (h ++ [x]) =
  match step x with
  | Ok x' => (Ok (), h ++ [x'])
  | Raise e => (Raise e, h ++ [x])
  end.
Proof.
  unfold in_place. rewrite list_lookup_middle by done.
  destruct (step x) as [x'|e]; [|done]. f_equal.
  rewrite insert_app_r_alt by done. by rewrite Nat.sub_diag.
Qed.

Lemma py_bind_run {A B : Type} (m : Py A) (f : A → Py B) (h : list DataFrame) :
  (m ≫= f) h =
  match m h with
  | (Ok a, h') => f a h'
  | (Raise e, h') => (Raise e, h')
  end.
Proof. reflexivity. Qed.

Lemma in_place_then {A : Type} (h : list DataFrame) (x : DataFrame)
    (step : DataFrame → outcome DataFrame) (k : Py A) :
  (in_place (List.length h) step ≫= λ _, k) (h ++ [x]) =
  match step x with
  | Ok x' => k (h ++ [x'])
  | Raise e => (Raise e, h ++ [x])
  end.
Proof. rewrite py_bind_run, in_place_last. by destruct (step x). Qed.

(** A call of [clean_dataset]: the store grows by one object, which holds the
    result of the steps when none of them raises. *)
Lemma clean_dataset_run (h : list DataFrame) (r : nat) (df : DataFrame) :
  h !! r = Some df →
  match pipeline_steps df with
  | Ok df' => clean_dataset r h = (Ok (List.length h), h ++ [df'])
  | Raise e => ∃ x, clean_dataset r h = (Raise e, h ++ [x])
  end.
Proof.
  intros Hr.
  destruct (pipeline_steps df) as [df'|e] eqn:E; unfold pipeline_steps in E;
    unfold clean_dataset; rewrite py_bind_run; unfold df_copy at 1; rewrite Hr;
    repeat (rewrite in_place_then;
            match goal with
            | |- context [match ?step ?x with Ok _ => _ | Raise _ => _ end] =>
                destruct (step x) as [?d|?e]; simpl in E;
                [|first [discriminate E | injection E as ->; by eexists]]
            end).
  - by injection E as ->.
  - discriminate E.
Qed.

Lemma clean_frame_eq (df : DataFrame) : clean_frame df = pipeline_steps df.
Proof.
  unfold clean_frame.
  pose proof (clean_dataset_run [df] 0 df eq_refl) as Hrun.
  destruct (pipeline_steps df) as [df'|e].
  - by rewrite Hrun.
  - destruct Hrun as [x ->]. done.
Qed.

End store.

(** ** Rows *)

Section rows.
Context `{PandasScalars}.

Lemma zip_with_fmap_same {A B C D : Type} (f : B → C → D) (g : A → B) (h : A → C)
    (l : list A) :
  zip_with f (g <$> l) (h <$> l) = (λ x, f (g x) (h x)) <$> l.
Proof. induction l as [|x l IH]; csimpl; [done|]. by f_equal. Qed.

Lemma normalise_fmap (s : Series) :
  normalise s = (λ c, Str (normal_text c)) <$> s.
Proof.
  unfold normalise, str_strip, str_method, astype_str.
  by rewrite <- list_fmap_compose.
Qed.

Lemma lower_strip_normalise (s : Series) :
  lower_strip (normalise s) =
  (λ c, Str (PyStr.strip (PyStr.lower (normal_text c)))) <$> s.
Proof.
  rewrite normalise_fmap. unfold lower_strip, str_strip, str_lower, str_method.
  by rewrite <- !list_fmap_compose.
Qed.

Lemma harmonised_normalise (table : gmap string string) (s : Series) :
  harmonised table (normalise s) =
  (λ c, Str (canonical table (normal_text c))) <$> s.
Proof.
  rewrite normalise_fmap.
  unfold harmonised, fillna, map_dict, str_lower, str_method.
  rewrite <- !list_fmap_compose. rewrite zip_with_fmap_same.
  apply list_fmap_ext. intros i c _. simpl. unfold canonical.
  by destruct (table !! PyStr.lower (normal_text c)).
Qed.

Lemma length_normalise (s : Series) : List.length (normalise s) = List.length s.
Proof. by rewrite normalise_fmap, length_fmap. Qed.

Lemma length_str_method (f : string → string) (s : Series) :
  List.length (str_method f s) = List.length s.
Proof. unfold str_method. by rewrite length_fmap. Qed.

Lemma length_lower_strip (s : Series) : List.length (lower_strip s) = List.length s.
Proof. unfold lower_strip, str_strip, str_lower. by rewrite !length_str_method. Qed.

Lemma length_to_numeric (s : Series) : List.length (to_numeric s) = List.length s.
Proof. unfold to_numeric. destruct (forallb _ _); by rewrite !length_fmap. Qed.

Lemma length_to_datetime (s : Series) : List.length (to_datetime s) = List.length s.
Proof. unfold to_datetime. by rewrite length_fmap. Qed.

Lemma length_harmonised (table : gmap string string) (s : Series) :
  List.length (harmonised table s) = List.length s.
Proof.
  unfold harmonised, fillna, map_dict, str_lower, str_method.
  rewrite length_zip_with, !length_fmap. lia.
Qed.

Lemma length_clip (lo hi : Z) (s : Series) :
  List.length (clip lo hi s) = List.length s.
Proof. unfold clip. by rewrite length_fmap. Qed.

Lemma length_where_set (mask : Mask) (v : cell) (s : Series) :
  List.length mask = List.length s →
  List.length (where_set mask v s) = List.length s.
Proof. intros Hl. unfold where_set. rewrite length_zip_with. lia. Qed.

Lemma length_where_append (mask : Mask) (msg : string) (s : Series) :
  List.length mask = List.length s →
  List.length (where_append mask msg s) = List.length s.
Proof. intros Hl. unfold where_append. rewrite length_zip_with. lia. Qed.

Lemma length_str_contains (key : string) (s : Series) :
  List.length (str_contains key s) = List.length s.
Proof. unfold str_contains. by rewrite length_fmap. Qed.

Lemma length_corrected (m : list (string * string)) (names cats : Series) :
  List.length names = List.length cats →
  List.length (corrected m names cats) = List.length cats.
Proof.
  revert cats. induction m as [|[key cat] m IH]; intros cats Hl; simpl; [done|].
  assert (List.length (where_set (str_contains key (str_lower names)) (Str cat) cats)
          = List.length cats) as Hw.
  { apply length_where_set.
    rewrite length_str_contains. unfold str_lower. by rewrite length_str_method. }
  unfold corrected in *. simpl. rewrite IH; [done|]. by rewrite Hw.
Qed.

(** ** Well-formed frames stay well-formed *)

Lemma well_formed_categorised (df df' : DataFrame) :
  well_formed df → categorised df = Ok df' → well_formed df' ∧ nrows df' = nrows df.
Proof.
  intros Hwf. unfold categorised.
  destruct (assoc "Product_Name" (columns df)) as [names|] eqn:Hn; [|done].
  pose proof (columns_length _ _ _ Hwf Hn) as Hln.
  destruct (assoc "Product_Category" (columns df)) as [cats|] eqn:Hc.
  - pose proof (columns_length _ _ _ Hwf Hc) as Hlc.
    intros [= <-]. split; [|done]. apply well_formed_setitem; [done|].
    rewrite <- Hlc. apply (length_corrected CATEGORY_MAPPINGS). congruence.
  - case_bool_decide; [done|]. intros [= <-]. split; [|done].
    apply well_formed_setitem; [done|].
    rewrite <- (length_replicate (nrows df) NaN) at 2.
    apply (length_corrected CATEGORY_MAPPINGS). by rewrite length_replicate.
Qed.

Lemma well_formed_email_checked (df : DataFrame) :
  well_formed df → well_formed (email_checked df).
Proof.
  intros Hwf. unfold email_checked.
  destruct (assoc "Email" (columns df)) as [e|] eqn:He; [|done].
  apply well_formed_setitem.
  - apply well_formed_map_columns; [apply length_lower_strip|done].
  - simpl. unfold str_match. rewrite !length_fmap, length_lower_strip.
    by apply (columns_length "Email").
Qed.

(** The frame on which the quality flags are computed. *)
Lemma well_formed_before_flags (df : DataFrame) :
  well_formed df → well_formed (before_flags df).
Proof.
  intros Hwf. unfold before_flags.
  apply well_formed_map_columns; [apply length_str_method|].
  apply well_formed_map_columns; [apply length_clip|].
  apply well_formed_email_checked.
  repeat (apply well_formed_map_columns;
          [first [apply length_harmonised | apply length_to_datetime
                 | apply length_to_numeric]|]).
  done.
Qed.

End rows.

Section tracing.
Context `{PandasScalars}.

Lemma assoc_email_checked (c : string) (df : DataFrame) :
  assoc c (columns (email_checked df)) =
  if bool_decide (c = "Email_Valid") then
    match assoc "Email" (columns df) with
    | Some e => Some (Bool <$> str_match EMAIL_REGEX (lower_strip e))
    | None => assoc c (columns df)
    end
  else if bool_decide (c = "Email") then lower_strip <$> assoc c (columns df)
  else assoc c (columns df).
Proof.
  unfold email_checked. destruct (assoc "Email" (columns df)) as [e|] eqn:He.
  - rewrite assoc_setitem, assoc_map_columns.
    destruct (decide (c = "Email_Valid")) as [->|Hne1]; [done|].
    rewrite (bool_decide_eq_false_2 ("Email_Valid" = c)) by done.
    rewrite (bool_decide_eq_false_2 (c = "Email_Valid")) by done.
    destruct (decide (c = "Email")) as [->|Hne2].
    + by rewrite !bool_decide_eq_true_2 by (done || by apply list_elem_of_singleton).
    + rewrite !bool_decide_eq_false_2; [done|done|].
      by intros ?%list_elem_of_singleton.
  - destruct (decide (c = "Email")) as [->|Hne2].
    + rewrite He. by repeat case_bool_decide.
    + by repeat case_bool_decide.
Qed.

Lemma nrows_email_checked (df : DataFrame) : nrows (email_checked df) = nrows df.
Proof. unfold email_checked. by destruct (assoc "Email" (columns df)). Qed.

Lemma nrows_before_flags (df : DataFrame) : nrows (before_flags df) = nrows df.
Proof. unfold before_flags. simpl. by rewrite nrows_email_checked. Qed.

Lemma assoc_flagged (c : string) (df : DataFrame) :
  assoc c (columns (flagged df)) =
  if bool_decide ("Data_Quality_Issues" = c) then Some (issues df)
  else assoc c (columns df).
Proof. unfold flagged. apply assoc_setitem. Qed.

Lemma assoc_categorised (c : string) (df df' : DataFrame) :
  categorised df = Ok df' → c ≠ "Product_Category" →
  assoc c (columns df') = assoc c (columns df).
Proof.
  unfold categorised. intros Hc Hne.
  destruct (assoc "Product_Name" (columns df)); [|done].
  destruct (assoc "Product_Category" (columns df)).
  - injection Hc as <-. rewrite assoc_setitem. by rewrite bool_decide_eq_false_2.
  - case_bool_decide; [done|]. injection Hc as <-.
    rewrite assoc_setitem. by rewrite bool_decide_eq_false_2.
Qed.

(** What a successful run is made of. *)
Lemma clean_frame_Ok (df df' : DataFrame) :
  well_formed (strip_labels df) → clean_frame df = Ok df' →
  ∃ d, categorised (map_columns TEXT_COLUMNS normalise (strip_labels df)) = Ok d ∧
       df' = after_categories d ∧ well_formed d ∧ nrows d = nrows df.
Proof.
  intros Hwf. rewrite clean_frame_eq, pipeline_steps_eq by apply Hwf.
  destruct (categorised _) as [d|e] eqn:E; [|done]. simpl. intros [= <-].
  exists d. split; [done|]. split; [done|].
  apply well_formed_categorised in E; [done|].
  apply well_formed_map_columns; [apply length_normalise|done].
Qed.

End tracing.

(** Rewrites the column of a literal label through the steps. *)
Ltac trace_column :=
  unfold after_categories, before_flags;
  rewrite ?assoc_flagged, ?assoc_map_columns, ?assoc_email_checked,
    ?assoc_map_columns;
  decide_labels.

Section harmonisation.
Context `{PandasScalars}.

Lemma cell_at_Some (c : string) (i : nat) (df : DataFrame) (v : cell) :
  cell_at c i df = Some v ↔ ∃ s, assoc c (columns df) = Some s ∧ s !! i = Some v.
Proof.
  unfold cell_at. destruct (assoc c (columns df)) as [s|]; simpl.
  - split; [by exists s|]. by intros (s' & [= <-] & ?).
  - split; [done|]. by intros (s' & ? & ?).
Qed.

(** C8: for the payment-mode, delivery-status and gender columns, the cleaned
    value is the canonical label of the table when the lower-cased trimmed
    text of the input is one of its keys, and the trimmed text itself, in its
    original case, otherwise. *)
Theorem harmonisation_canonical (df df' : DataFrame) (col : string)
    (table : gmap string string) (i : nat) (v : cell) :
  well_formed (strip_labels df) →
  clean_frame df = Ok df' →
  (col, table) ∈ [ ("Payment_Mode", PAYMENT_MODE_MAP);
                   ("Delivery_Status", DELIVERY_STATUS_MAP);
                   ("Gender", GENDER_MAP) ] →
  cell_at col i (strip_labels df) = Some v →
  cell_at col i df' = Some (Str (canonical table (normal_text v))).
Proof.
  intros Hwf Hclean Hcol Hv.
  destruct (clean_frame_Ok _ _ Hwf Hclean) as (d & Hd & -> & _ & _).
  apply cell_at_Some in Hv as (s & Hs & Hi).
  apply cell_at_Some. exists (harmonised table (normalise s)). split.
  - repeat (apply elem_of_cons in Hcol as [[= -> ->]|Hcol]);
      [..|by apply elem_of_nil in Hcol];
      trace_column; rewrite (assoc_categorised _ _ _ Hd) by done;
      rewrite assoc_map_columns; decide_labels; by rewrite Hs.
  - rewrite harmonised_normalise, list_lookup_fmap. by rewrite Hi.
Qed.

End harmonisation.

Section issues.
Context `{PandasScalars}.

Lemma match_anchored_strip (r : Re.regex) (s : string) :
  Re.match_anchored r (PyStr.strip s) = Re.accepts r (PyStr.strip s).
Proof.
  unfold Re.match_anchored.
  destruct (PyStr.last_char (PyStr.strip s)) as [c|] eqn:E; [|apply orb_false_r].
  apply strip_last in E. case_bool_decide as Ec; [|apply orb_false_r].
  subst c. discriminate E.
Qed.

Lemma where_append_lookup (mask : Mask) (msg : string) (s : Series) (i : nat)
    (b : bool) (x : string) :
  mask !! i = Some b → s !! i = Some (Str x) →
  where_append mask msg s !! i = Some (Str (x +:+ (if b then msg else ""))).
Proof.
  intros Hm Hs. unfold where_append. rewrite lookup_zip_with, Hm, Hs. simpl.
  destruct b; [done|]. by rewrite append_nil_r.
Qed.

(** One check on row [i]: the column [o], when present, decides by [test]
    whether [msg] is appended. *)
Lemma check_lookup (o : option Series) (mk : Series → Mask) (test : cell → bool)
    (msg : string) (s : Series) (i n : nat) (x : string) :
  (∀ col v, col !! i = Some v → mk col !! i = Some (test v)) →
  (∀ col, o = Some col → List.length col = n) → (i < n)%nat →
  s !! i = Some (Str x) →
  match o with Some col => where_append (mk col) msg s | None => s end !! i
  = Some (Str (x +:+ match o ≫= (λ col, col !! i) with
                     | Some v => if test v then msg else ""
                     | None => ""
                     end)).
Proof.
  intros Hmk Hlen Hi Hs. destruct o as [col|]; simpl.
  - destruct (lookup_lt_is_Some_2 col i) as [v Hv];
      [by rewrite (Hlen col eq_refl)|].
    rewrite Hv. by apply where_append_lookup; [apply Hmk|].
  - by rewrite append_nil_r.
Qed.

Lemma mask_name_lookup (col : Series) (i : nat) (v : cell) :
  col !! i = Some v →
  mask_or (eq_str "" col) (isna col) !! i = Some (name_missing v).
Proof.
  intros Hv. unfold mask_or, eq_str, isna.
  rewrite lookup_zip_with, !list_lookup_fmap, Hv. simpl.
  destruct v; simpl; by rewrite ?orb_false_r.
Qed.

Lemma mask_valid_lookup (col : Series) (i : nat) (v : cell) :
  col !! i = Some v →
  mask_not (as_mask col) !! i = Some (negb (is_true v)).
Proof.
  intros Hv. unfold mask_not, as_mask. by rewrite !list_lookup_fmap, Hv.
Qed.

Lemma mask_amount_lookup (col : Series) (i : nat) (v : cell) :
  col !! i = Some v →
  mask_or (le 0 col) (isna col) !! i = Some (bad_amount v).
Proof.
  intros Hv. unfold mask_or, le, isna.
  by rewrite lookup_zip_with, !list_lookup_fmap, Hv.
Qed.

(** The issues of row [i]. *)
Lemma issues_lookup (df : DataFrame) (i : nat) :
  well_formed df → (i < nrows df)%nat →
  issues df !! i =
  Some (Str (row_issues
               (cell_at "Customer_Name" i df)
               (match assoc "Email" (columns df) with
                | Some _ => cell_at "Email_Valid" i df
                | None => None
                end)
               (cell_at "Purchase_Amount" i df))).
Proof.
  intros Hwf Hi. unfold issues, row_issues, cell_at.
  set (s0 := replicate (nrows df) (Str "")).
  assert (s0 !! i = Some (Str "")) as H0 by (by apply lookup_replicate_2).
  pose proof (check_lookup (assoc "Customer_Name" (columns df))
                (λ name, mask_or (eq_str "" name) (isna name)) name_missing
                "Missing Customer Name; " s0 i (nrows df) ""
                (λ col v, mask_name_lookup col i v)
                (λ col, columns_length _ col df Hwf) Hi H0) as H1.
  cbv beta in H1. rewrite append_nil_l in H1.
  set (s1 := match assoc "Customer_Name" (columns df) with
             | Some _ => _ | None => _ end) in *.
  set (m1 := match assoc "Customer_Name" (columns df) ≫= _ with
             | Some _ => _ | None => _ end) in *.
  assert (match assoc "Email" (columns df), assoc "Email_Valid" (columns df) with
          | Some _, Some valid =>
              where_append (mask_not (as_mask valid)) "Invalid Email; " s1
          | _, _ => s1
          end !! i
          = Some (Str (m1 +:+
                       match match assoc "Email" (columns df) with
                             | Some _ => assoc "Email_Valid" (columns df)
                                         ≫= (λ s, s !! i)
                             | None => None
                             end with
                       | Some v => if negb (is_true v) then "Invalid Email; " else ""
                       | None => ""
                       end))) as H2.
  { destruct (assoc "Email" (columns df)); [|by rewrite append_nil_r].
    apply (check_lookup (assoc "Email_Valid" (columns df))
             (λ valid, mask_not (as_mask valid)) (λ v, negb (is_true v))
             "Invalid Email; " s1 i (nrows df) m1
             (λ col v, mask_valid_lookup col i v)
             (λ col, columns_length _ col df Hwf) Hi H1). }
  set (s2 := match assoc "Email" (columns df) with
             | Some _ => _ | None => _ end) in *.
  pose proof (check_lookup (assoc "Purchase_Amount" (columns df))
                (λ amount, mask_or (le 0 amount) (isna amount)) bad_amount
                "Invalid Purchase Amount; " s2 i (nrows df) _
                (λ col v, mask_amount_lookup col i v)
                (λ col, columns_length _ col df Hwf) Hi H2) as H3.
  cbv beta in H3. rewrite H3. by rewrite append_assoc.
Qed.

End issues.

Section cleaned.
Context `{PandasScalars}.

Lemma cell_at_lt (c : string) (i : nat) (df : DataFrame) (v : cell) :
  well_formed df → cell_at c i df = Some v → (i < nrows df)%nat.
Proof.
  intros Hwf (s & Hs & Hi)%cell_at_Some.
  rewrite <- (columns_length _ _ _ Hwf Hs). by apply lookup_lt_Some in Hi.
Qed.

(** The columns of a cleaned frame, from those of the input. *)
Lemma cleaned_text_column (df df' : DataFrame) (c : string) :
  well_formed (strip_labels df) → clean_frame df = Ok df' →
  c ∈ [ "Customer_Name"; "Product_Name" ] →
  assoc c (columns df') = normalise <$> assoc c (columns (strip_labels df)).
Proof.
  intros Hwf Hclean Hc.
  destruct (clean_frame_Ok _ _ Hwf Hclean) as (d & Hd & -> & _ & _).
  repeat (apply elem_of_cons in Hc as [->|Hc]); [..|by apply elem_of_nil in Hc];
    trace_column; rewrite (assoc_categorised _ _ _ Hd) by done;
    rewrite assoc_map_columns; by decide_labels.
Qed.

Lemma cleaned_email (df df' : DataFrame) :
  well_formed (strip_labels df) → clean_frame df = Ok df' →
  assoc "Email" (columns df') =
  (λ s, lower_strip (normalise s)) <$> assoc "Email" (columns (strip_labels df)).
Proof.
  intros Hwf Hclean.
  destruct (clean_frame_Ok _ _ Hwf Hclean) as (d & Hd & -> & _ & _).
  trace_column. rewrite (assoc_categorised _ _ _ Hd) by done.
  rewrite assoc_map_columns. decide_labels.
  by destruct (assoc "Email" (columns (strip_labels df))).
Qed.

Lemma cleaned_email_valid (df df' : DataFrame) (s : Series) :
  well_formed (strip_labels df) → clean_frame df = Ok df' →
  assoc "Email" (columns (strip_labels df)) = Some s →
  assoc "Email_Valid" (columns df') =
  Some (Bool <$> str_match EMAIL_REGEX (lower_strip (normalise s))).
Proof.
  intros Hwf Hclean Hs.
  destruct (clean_frame_Ok _ _ Hwf Hclean) as (d & Hd & -> & _ & _).
  trace_column. rewrite (assoc_categorised _ _ _ Hd) by done.
  rewrite assoc_map_columns. decide_labels. by rewrite Hs.
Qed.

Lemma cleaned_numeric_column (df df' : DataFrame) :
  well_formed (strip_labels df) → clean_frame df = Ok df' →
  assoc "Purchase_Amount" (columns df') =
  to_numeric <$> assoc "Purchase_Amount" (columns (strip_labels df)).
Proof.
  intros Hwf Hclean.
  destruct (clean_frame_Ok _ _ Hwf Hclean) as (d & Hd & -> & _ & _).
  trace_column. rewrite (assoc_categorised _ _ _ Hd) by done.
  rewrite assoc_map_columns. by decide_labels.
Qed.

Lemma cleaned_satisfaction (df df' : DataFrame) :
  well_formed (strip_labels df) → clean_frame df = Ok df' →
  assoc "Customer_Satisfaction" (columns df') =
  (λ s, clip 1 5 (to_numeric s)) <$>
    assoc "Customer_Satisfaction" (columns (strip_labels df)).
Proof.
  intros Hwf Hclean.
  destruct (clean_frame_Ok _ _ Hwf Hclean) as (d & Hd & -> & _ & _).
  trace_column. rewrite (assoc_categorised _ _ _ Hd) by done.
  rewrite assoc_map_columns. decide_labels.
  by destruct (assoc "Customer_Satisfaction" (columns (strip_labels df))).
Qed.

(** The issues of a row of a cleaned frame, from the cleaned row itself. *)
Lemma cleaned_issues (df df' : DataFrame) (i : nat) :
  well_formed (strip_labels df) → clean_frame df = Ok df' →
  (i < nrows df)%nat →
  cell_at "Data_Quality_Issues" i df' =
  Some (Str (row_issues
               (cell_at "Customer_Name" i df')
               (match assoc "Email" (columns df') with
                | Some _ => cell_at "Email_Valid" i df'
                | None => None
                end)
               (cell_at "Purchase_Amount" i df'))).
Proof.
  intros Hwf Hclean Hi.
  destruct (clean_frame_Ok _ _ Hwf Hclean) as (d & Hd & -> & Hwfd & Hrows).
  unfold after_categories, cell_at. rewrite !assoc_flagged. decide_labels. simpl.
  rewrite issues_lookup;
    [done|by apply well_formed_before_flags|by rewrite nrows_before_flags, Hrows].
Qed.

End cleaned.

(** ** Numbers *)

Lemma float_le_total (x y : pyfloat) : float_le x y = false → float_le y x = true.
Proof.
  destruct x as [a| |], y as [b| |]; simpl; try done.
  intros Hab%bool_decide_eq_false. apply bool_decide_eq_true.
  apply Qclt_le_weak. by apply Qcnot_le_lt.
Qed.

Lemma float_le_trans (x y z : pyfloat) :
  float_le x y = true → float_le y z = true → float_le x z = true.
Proof.
  destruct x as [a| |], y as [b| |], z as [c| |]; simpl; try done.
  intros Hab%bool_decide_eq_true Hbc%bool_decide_eq_true.
  apply bool_decide_eq_true. by apply Qcle_trans with b.
Qed.

Lemma float_le_of_Z (a b : Z) :
  float_le (float_of_Z a) (float_of_Z b) = bool_decide (a ≤ b)%Z.
Proof.
  simpl. apply bool_decide_ext. symmetry. apply Z2Qc_inj_le.
Qed.

Lemma float_of_Z_inj (a b : Z) : float_of_Z a = float_of_Z b → a = b.
Proof. unfold float_of_Z. intros E. apply Z2Qc_inj. congruence. Qed.

Section numeric.
Context `{PandasScalars}.

(** A cell of a coerced column, from the cell it was parsed from. *)
Lemma to_numeric_lookup (s : Series) (i : nat) (c : cell) :
  s !! i = Some c →
  ∃ c', to_numeric s !! i = Some c' ∧
        numeric_value c' = parsed_value (to_numeric_scalar c) ∧
        (parsed_value (to_numeric_scalar c) = None → c' = NaN).
Proof.
  intros Hc. unfold to_numeric.
  destruct (forallb is_int (to_numeric_scalar <$> s)) eqn:E.
  - exists (as_int_cell (to_numeric_scalar c)).
    rewrite !list_lookup_fmap, Hc. split; [done|].
    rewrite forallb_forall in E.
    assert (is_int (to_numeric_scalar c) = true) as Hint.
    { apply E. apply list_elem_of_In, list_elem_of_fmap. exists c.
      split; [done|]. by apply list_elem_of_lookup_2 in Hc. }
    by destruct (to_numeric_scalar c) as [[z|x]|].
  - exists (as_float_cell (to_numeric_scalar c)).
    rewrite !list_lookup_fmap, Hc. split; [done|].
    by destruct (to_numeric_scalar c) as [[z|x]|].
Qed.

(** Clipping to [1, 5]. *)
Lemma clip_cell_value (c : cell) (x : pyfloat) :
  numeric_value c = Some x →
  in_range 1 5 (clip_cell 1 5 c) = true ∧
  (float_lt (float_of_Z 5) x = true →
   numeric_value (clip_cell 1 5 c) = Some (float_of_Z 5)) ∧
  (float_lt x (float_of_Z 1) = true →
   numeric_value (clip_cell 1 5 c) = Some (float_of_Z 1)) ∧
  (float_le (float_of_Z 1) x = true → float_le x (float_of_Z 5) = true →
   numeric_value (clip_cell 1 5 c) = Some x).
Proof.
  unfold float_lt, in_range.
  destruct c as [s|z|y| |b|ns|]; try discriminate; intros [= <-].
  - rewrite !float_le_of_Z.
    unfold clip_cell, isna_cell, cell_ge, cell_le, bound_like.
    repeat case_bool_decide; unfold cell_ge, cell_le, numeric_value;
      repeat split; intros; try done; try lia;
      rewrite ?andb_true_iff, ?bool_decide_eq_true; try lia; try done.
  - unfold clip_cell, isna_cell, cell_ge, cell_le, bound_like. cbv beta iota zeta.
    destruct (float_le (float_of_Z 1) y) eqn:E1,
             (float_le y (float_of_Z 5)) eqn:E2;
      unfold cell_ge, cell_le, numeric_value;
      rewrite ?E1, ?E2, ?float_le_of_Z; repeat split; intros; try done.
    apply float_le_total in E2.
    pose proof (float_le_trans _ _ _ (float_le_of_Z 1 5) E2). congruence.
Qed.

End numeric.

Section quality.
Context `{PandasScalars}.

(** The run succeeds when the product-name column is there, and the category
    column too or at least one row. *)
Lemma clean_frame_succeeds (df : DataFrame) :
  well_formed (strip_labels df) →
  has_column "Product_Name" (strip_labels df) = true →
  has_column "Product_Category" (strip_labels df) = true ∨ nrows df ≠ 0%nat →
  ∃ df', clean_frame df = Ok df'.
Proof.
  intros Hwf [names Hn]%has_column_true Hc.
  rewrite clean_frame_eq, pipeline_steps_eq by apply Hwf.
  unfold categorised. rewrite !assoc_map_columns. decide_labels.
  rewrite Hn. destruct Hc as [[cats Hc]%has_column_true|Hrows].
  - rewrite Hc. simpl. by eexists.
  - destruct (assoc "Product_Category" (columns (strip_labels df))).
    + simpl. by eexists.
    + change (nrows (map_columns TEXT_COLUMNS normalise (strip_labels df)))
        with (nrows df).
      rewrite bool_decide_eq_false_2 by done. simpl. by eexists.
Qed.

(** C2: a row whose input has the empty customer name, the email
    ["not-an-email"] and the purchase amount -5 gets exactly the three
    messages, in the order of the checks; and the frame is cleaned without
    error as soon as it has a product-name column. *)
Theorem issues_of_bad_row (df : DataFrame) (i : nat) (amount : cell) :
  well_formed (strip_labels df) →
  cell_at "Customer_Name" i (strip_labels df) = Some (Str "") →
  cell_at "Email" i (strip_labels df) = Some (Str "not-an-email") →
  cell_at "Purchase_Amount" i (strip_labels df) = Some amount →
  amount = Int (-5) ∨ amount = Float (float_of_Z (-5)) →
  (∀ df', clean_frame df = Ok df' →
          cell_at "Data_Quality_Issues" i df' =
          Some (Str "Missing Customer Name; Invalid Email; Invalid Purchase Amount; "))
  ∧ (has_column "Product_Name" (strip_labels df) = true →
     ∃ df', clean_frame df = Ok df').
Proof.
  intros Hwf Hname Hemail Hamount Hval.
  pose proof (cell_at_lt _ _ _ _ Hwf Hname) as Hi. simpl in Hi.
  split.
  - intros df' Hclean.
    apply cell_at_Some in Hname as (sn & Hsn & Hni).
    apply cell_at_Some in Hemail as (se & Hse & Hei).
    apply cell_at_Some in Hamount as (sa & Hsa & Hai).
    assert (cell_at "Customer_Name" i df' = Some (Str "")) as Hn'.
    { unfold cell_at.
      rewrite (cleaned_text_column df df' "Customer_Name" Hwf Hclean)
        by (repeat constructor).
      rewrite Hsn. simpl. by rewrite normalise_fmap, list_lookup_fmap, Hni. }
    assert (match assoc "Email" (columns df') with
            | Some _ => cell_at "Email_Valid" i df'
            | None => None
            end = Some (Bool false)) as Hv'.
    { unfold cell_at. rewrite (cleaned_email df df' Hwf Hclean), Hse.
      rewrite (cleaned_email_valid df df' se Hwf Hclean Hse). simpl.
      unfold str_match. rewrite !list_lookup_fmap, lower_strip_normalise.
      by rewrite list_lookup_fmap, Hei. }
    assert (∃ c', cell_at "Purchase_Amount" i df' = Some c' ∧ bad_amount c' = true)
      as (c' & Ha' & Hbad).
    { unfold cell_at. rewrite (cleaned_numeric_column df df' Hwf Hclean), Hsa.
      destruct (to_numeric_lookup sa i amount Hai) as (c' & Hl & Hc' & _).
      exists c'. split; [done|].
      assert (numeric_value c' = Some (float_of_Z (-5))) as Hnum
        by (by destruct Hval as [-> | ->]).
      destruct c' as [s|z|y| |b|ns|]; try discriminate.
      - assert (z = (-5)%Z) as ->
          by (apply float_of_Z_inj; apply (inj Some); exact Hnum).
        done.
      - by injection Hnum as ->. }
    rewrite (cleaned_issues df df' i Hwf Hclean Hi), Hn', Hv', Ha'.
    unfold row_issues. by rewrite Hbad.
  - intros Hpn. apply clean_frame_succeeds; [done|done|right; lia].
Qed.

End quality.

Section cleaned_rows.
Context `{PandasScalars}.

(** The first check on a row of a cleaned frame: the message is appended
    exactly when the cleaned name is empty (or missing), and the cleaned name
    is the trimmed text of the input name. *)
Lemma name_flag_row (df df' : DataFrame) (i : nat) (v : cell) :
  well_formed (strip_labels df) →
  clean_frame df = Ok df' →
  cell_at "Customer_Name" i df' = Some v →
  (∀ v0, cell_at "Customer_Name" i (strip_labels df) = Some v0 →
         v = Str (normal_text v0)) ∧
  ∃ rest,
    cell_at "Data_Quality_Issues" i df' =
    Some (Str ((if name_missing v then "Missing Customer Name; " else "") +:+ rest)) ∧
    rest ∈ [ ""; "Invalid Email; "; "Invalid Purchase Amount; ";
             "Invalid Email; Invalid Purchase Amount; " ].
Proof.
  intros Hwf Hclean Hv.
  assert (∃ s, assoc "Customer_Name" (columns (strip_labels df)) = Some s ∧
               normalise s !! i = Some v) as (s & Hs & Hsi).
  { unfold cell_at in Hv.
    rewrite (cleaned_text_column df df' "Customer_Name" Hwf Hclean) in Hv
      by (repeat constructor).
    destruct (assoc "Customer_Name" (columns (strip_labels df))) as [s|];
      [by exists s|done]. }
  assert (i < nrows df)%nat as Hi.
  { apply lookup_lt_Some in Hsi. rewrite length_normalise in Hsi.
    by rewrite (columns_length _ _ _ Hwf Hs) in Hsi. }
  split.
  - intros v0 (s' & Hs' & Hi')%cell_at_Some.
    rewrite Hs in Hs'. injection Hs' as <-.
    rewrite normalise_fmap, list_lookup_fmap, Hi' in Hsi. by injection Hsi as <-.
  - rewrite (cleaned_issues df df' i Hwf Hclean Hi), Hv. unfold row_issues.
    eexists. split; [reflexivity|].
    destruct (match assoc "Email" (columns df') with
              | Some _ => cell_at "Email_Valid" i df'
              | None => None
              end) as [valid|];
      [destruct (negb (is_true valid))|];
      (destruct (cell_at "Purchase_Amount" i df') as [a|];
       [destruct (bad_amount a)|]);
      compute_done.
Qed.

(** C4: the cleaned email is the lower-cased, trimmed text of the input, and
    [Email_Valid] is true exactly when it is in the language of [EMAIL_REGEX],
    that is when it has the shape [local@domain.tld]; this holds for every
    row, the empty email included. *)
Theorem email_valid_iff (df df' : DataFrame) (i : nat) (v : cell) :
  well_formed (strip_labels df) →
  clean_frame df = Ok df' →
  cell_at "Email" i (strip_labels df) = Some v →
  let e := PyStr.strip (PyStr.lower (normal_text v)) in
  cell_at "Email" i df' = Some (Str e) ∧
  ∃ b, cell_at "Email_Valid" i df' = Some (Bool b) ∧
       (b = true ↔ Re.lang EMAIL_REGEX e) ∧
       (b = true ↔ email_shape e).
Proof.
  intros Hwf Hclean (s & Hs & Hi)%cell_at_Some e. split.
  - unfold cell_at. rewrite (cleaned_email df df' Hwf Hclean), Hs. simpl.
    by rewrite lower_strip_normalise, list_lookup_fmap, Hi.
  - exists (Re.accepts EMAIL_REGEX e). split; [|split].
    + unfold cell_at. rewrite (cleaned_email_valid df df' s Hwf Hclean Hs). simpl.
      unfold str_match. rewrite !list_lookup_fmap, lower_strip_normalise.
      rewrite list_lookup_fmap, Hi. simpl. by rewrite match_anchored_strip.
    + apply accepts_lang.
    + rewrite accepts_lang. apply email_regex_shape.
Qed.

(** C5: the cleaned satisfaction is missing or within [1, 5]; a missing value
    stays missing, a number above 5 becomes 5, a number below 1 becomes 1 and
    a number of [1, 5] keeps its value. *)
Theorem satisfaction_clipped (df df' : DataFrame) (i : nat) (raw : cell) :
  well_formed (strip_labels df) →
  clean_frame df = Ok df' →
  cell_at "Customer_Satisfaction" i (strip_labels df) = Some raw →
  ∃ c, cell_at "Customer_Satisfaction" i df' = Some c ∧
       (c = NaN ∨ in_range 1 5 c = true) ∧
       (raw = NaN → c = NaN) ∧
       ∀ x, numeric_value raw = Some x →
            (float_lt (float_of_Z 5) x = true →
             numeric_value c = Some (float_of_Z 5)) ∧
            (float_lt x (float_of_Z 1) = true →
             numeric_value c = Some (float_of_Z 1)) ∧
            (float_le (float_of_Z 1) x = true → float_le x (float_of_Z 5) = true →
             numeric_value c = Some x).
Proof.
  intros Hwf Hclean (s & Hs & Hi)%cell_at_Some.
  destruct (to_numeric_lookup s i raw Hi) as (c1 & Hc1 & Hval & Hnone).
  exists (clip_cell 1 5 c1). split; [|split; [|split]].
  - unfold cell_at. rewrite (cleaned_satisfaction df df' Hwf Hclean), Hs. simpl.
    unfold clip. by rewrite list_lookup_fmap, Hc1.
  - destruct (parsed_value (to_numeric_scalar raw)) as [x|] eqn:E.
    + right. by apply (clip_cell_value c1 x).
    + left. by rewrite Hnone.
  - intros ->. by rewrite Hnone.
  - intros x Hx. apply clip_cell_value. rewrite Hval.
    by destruct raw as [?|z|y| |?|?|]; try discriminate; injection Hx as <-.
Qed.

End cleaned_rows.

Section last_match.
Context `{PandasScalars}.

Lemma corrected_lookup (m : list (string * string)) (names cats : Series)
    (i : nat) (n c : cell) :
  names !! i = Some n → cats !! i = Some c →
  corrected m names cats !! i = Some (correct_cell m n c).
Proof.
  intros Hn. revert cats c.
  induction m as [|[key cat] m IH]; intros cats c Hc; [done|].
  unfold corrected, correct_cell. simpl. apply IH.
  unfold where_set, str_contains, str_lower, str_method.
  rewrite lookup_zip_with, !list_lookup_fmap, Hn, Hc. simpl.
  by destruct n.
Qed.

Lemma last_match_cons (key cat : string) (m : list (string * string)) (s : string) :
  last_match ((key, cat) :: m) s =
  match last_match m s with
  | Some x => Some x
  | None => if PyStr.contains key s then Some cat else None
  end.
Proof.
  unfold last_match. rewrite filter_cons. simpl.
  destruct (decide (PyStr.contains key s = true)) as [E|E].
  - rewrite E, last_cons.
    by destruct (list.last (filter _ m)).
  - apply not_true_is_false in E. rewrite E.
    by destruct (list.last (filter _ m)).
Qed.

Lemma correct_cell_last_match (m : list (string * string)) (s : string) (c : cell) :
  correct_cell m (Str s) c =
  match last_match m (PyStr.lower s) with
  | Some cat => Str cat
  | None => c
  end.
Proof.
  revert c. induction m as [|[key cat] m IH]; intros c; [done|].
  rewrite last_match_cons. unfold correct_cell in *. simpl. rewrite IH.
  destruct (last_match m (PyStr.lower s)); [done|].
  by destruct (PyStr.contains key (PyStr.lower s)).
Qed.

Lemma cleaned_category (df df' : DataFrame) (names : Series) :
  well_formed (strip_labels df) → clean_frame df = Ok df' →
  assoc "Product_Name" (columns (strip_labels df)) = Some names →
  assoc "Product_Category" (columns df') =
  Some (corrected CATEGORY_MAPPINGS (normalise names)
          (match assoc "Product_Category" (columns (strip_labels df)) with
           | Some cats => normalise cats
           | None => replicate (nrows df) NaN
           end)).
Proof.
  intros Hwf Hclean Hn.
  destruct (clean_frame_Ok _ _ Hwf Hclean) as (d & Hd & -> & _ & _).
  trace_column. revert Hd. unfold categorised.
  rewrite !assoc_map_columns. decide_labels. rewrite Hn.
  destruct (assoc "Product_Category" (columns (strip_labels df))) as [cats|].
  - intros [= <-]. rewrite assoc_setitem. by decide_labels.
  - change (nrows (map_columns TEXT_COLUMNS normalise (strip_labels df)))
      with (nrows df).
    case_bool_decide; [done|]. intros [= <-]. rewrite assoc_setitem.
    by decide_labels.
Qed.

(** The category of a row of a cleaned frame, from the input row. *)
Lemma cleaned_category_row (df df' : DataFrame) (j : nat) (v : cell) :
  well_formed (strip_labels df) → clean_frame df = Ok df' →
  cell_at "Product_Name" j (strip_labels df) = Some v →
  cell_at "Product_Category" j df' =
  Some (match last_match CATEGORY_MAPPINGS (PyStr.lower (normal_text v)) with
        | Some cat => Str cat
        | None =>
            match cell_at "Product_Category" j (strip_labels df) with
            | Some c => Str (normal_text c)
            | None => NaN
            end
        end).
Proof.
  intros Hwf Hclean (names & Hn & Hj)%cell_at_Some.
  apply cell_at_Some. eexists.
  split; [by apply (cleaned_category df df' names Hwf Hclean Hn)|].
  assert (j < nrows df)%nat as Hlt.
  { apply lookup_lt_Some in Hj. by rewrite (columns_length _ _ _ Hwf Hn) in Hj. }
  rewrite <- correct_cell_last_match. apply corrected_lookup.
  - by rewrite normalise_fmap, list_lookup_fmap, Hj.
  - unfold cell_at.
    destruct (assoc "Product_Category" (columns (strip_labels df))) as [cats|] eqn:E.
    + simpl. rewrite normalise_fmap, list_lookup_fmap.
      destruct (lookup_lt_is_Some_2 cats j) as [c Hc];
        [by rewrite (columns_length _ _ _ Hwf E)|].
      by rewrite Hc.
    + simpl. by apply lookup_replicate_2.
Qed.

(** C6: category correction gives a row the category of the last pair of
    [CATEGORY_MAPPINGS] whose keyword occurs in the lower-cased product name,
    and leaves the category of a row that matches none; so does the whole
    pipeline, on the trimmed text of the input name and category; the product
    ["Gaming Laptop Pro"] matches ["laptop"] only, and is in category
    ["Electronics"] after cleaning whatever its category was. *)
Theorem category_last_match (df : DataFrame) (i : nat) (s : string) (c : cell) :
  cell_at "Product_Name" i df = Some (Str s) →
  cell_at "Product_Category" i df = Some c →
  (∃ df', category_correction df = Ok df' ∧
          cell_at "Product_Category" i df' =
          Some (match last_match CATEGORY_MAPPINGS (PyStr.lower s) with
                | Some cat => Str cat
                | None => c
                end)) ∧
  (∀ df0 df1 j v c0,
     well_formed (strip_labels df0) → clean_frame df0 = Ok df1 →
     cell_at "Product_Name" j (strip_labels df0) = Some v →
     cell_at "Product_Category" j (strip_labels df0) = Some c0 →
     cell_at "Product_Category" j df1 =
     Some (match last_match CATEGORY_MAPPINGS (PyStr.lower (normal_text v)) with
           | Some cat => Str cat
           | None => Str (normal_text c0)
           end)) ∧
  (s = "Gaming Laptop Pro" →
   last_match CATEGORY_MAPPINGS (PyStr.lower s) = Some "Electronics") ∧
  (∀ df0 df1 j,
     well_formed (strip_labels df0) → clean_frame df0 = Ok df1 →
     cell_at "Product_Name" j (strip_labels df0) = Some (Str "Gaming Laptop Pro") →
     cell_at "Product_Category" j df1 = Some (Str "Electronics")).
Proof.
  intros (names & Hn & Hni)%cell_at_Some (cats & Hc & Hci)%cell_at_Some.
  split; [|split; [|split]].
  - rewrite category_correction_eq. unfold categorised. rewrite Hn, Hc.
    eexists. split; [done|]. apply cell_at_Some. eexists.
    split; [rewrite assoc_setitem; by decide_labels|].
    rewrite (corrected_lookup _ _ _ _ _ _ Hni Hci).
    by rewrite correct_cell_last_match.
  - intros df0 df1 j v c0 Hwf Hclean Hv Hc0.
    by rewrite (cleaned_category_row df0 df1 j v Hwf Hclean Hv), Hc0.
  - by intros ->.
  - intros df0 df1 j Hwf Hclean Hv.
    by rewrite (cleaned_category_row df0 df1 j _ Hwf Hclean Hv).
Qed.

End last_match.

Section failures_and_frames.
Context `{PandasScalars}.

Lemma for_each_cons {A S : Type} (x : A) (xs : list A) (body : A → S → outcome S)
    (s : S) :
  for_each (x :: xs) body s = body x s ≫= for_each xs body.
Proof. reflexivity. Qed.

Lemma getitem_Some (col : string) (s : Series) (df : DataFrame) :
  assoc col (columns df) = Some s → getitem col df = Ok s.
Proof. intros Hs. unfold getitem. by rewrite Hs. Qed.

Lemma bind_Ok {A B : Type} (a : A) (f : A → outcome B) : Ok a ≫= f = f a.
Proof. reflexivity. Qed.

(** The guarded loops never raise and keep the labels, whatever the frame. *)
Lemma for_each_guarded_labels (cols : list string) (f : Series → Series)
    (df : DataFrame) :
  ∃ df',
    for_each cols
      (λ col df,
         if has_column col df then s ← getitem col df; Ok (setitem col (f s) df)
         else Ok df) df = Ok df' ∧
    labels df' = labels df.
Proof.
  revert df. induction cols as [|col cols IH]; intros df; [by exists df|].
  rewrite for_each_cons. cbv beta. destruct (has_column col df) eqn:E.
  - pose proof E as [s Hs]%has_column_true. rewrite (getitem_Some _ _ _ Hs).
    rewrite !bind_Ok.
    destruct (IH (setitem col (f s) df)) as (df' & -> & Hl). exists df'.
    split; [done|]. rewrite Hl. unfold labels, setitem. simpl.
    apply labels_assoc_set_in. by apply assoc_is_Some.
  - rewrite bind_Ok. apply IH.
Qed.

(** The guarded steps do nothing to a frame that lacks their columns. *)
Lemma for_each_absent (cols : list string) (f : Series → Series) (df : DataFrame) :
  (∀ col, col ∈ cols → has_column col df = false) →
  for_each cols
    (λ col df,
       if has_column col df then s ← getitem col df; Ok (setitem col (f s) df)
       else Ok df) df = Ok df.
Proof.
  induction cols as [|col cols IH]; intros Habsent; [done|].
  rewrite for_each_cons. cbv beta. rewrite Habsent by apply list_elem_of_here.
  rewrite bind_Ok. apply IH. intros c Hc. apply Habsent. by right.
Qed.

Lemma guarded_steps_absent (df : DataFrame) :
  (∀ col, col ∈ NUMERIC_COLUMNS ++ DATE_COLUMNS ++
                ["Payment_Mode"; "Delivery_Status"; "Gender"; "Email"; "City";
                 "Country"] →
          has_column col df = false) →
  numeric_coercion df = Ok df ∧ date_parsing df = Ok df ∧
  categorical_harmonisation df = Ok df ∧ email_validation df = Ok df ∧
  satisfaction_clipping df = Ok df ∧ proper_case df = Ok df.
Proof.
  intros Habsent. repeat split.
  - apply (for_each_absent NUMERIC_COLUMNS to_numeric). intros col Hc.
    apply Habsent. apply elem_of_app. by left.
  - apply (for_each_absent DATE_COLUMNS to_datetime). intros col Hc.
    apply Habsent. apply elem_of_app. right. apply elem_of_app. by left.
  - unfold categorical_harmonisation, harmonise.
    rewrite (Habsent "Payment_Mode") by compute_done. cbv iota. rewrite bind_Ok.
    rewrite (Habsent "Delivery_Status") by compute_done. cbv iota. rewrite bind_Ok.
    by rewrite (Habsent "Gender") by compute_done.
  - unfold email_validation. by rewrite (Habsent "Email") by compute_done.
  - unfold satisfaction_clipping.
    by rewrite (Habsent "Customer_Satisfaction") by compute_done.
  - apply (for_each_absent ["City"; "Country"] str_title). intros col Hc.
    apply Habsent. apply elem_of_app. right. apply elem_of_app. right.
    repeat (apply elem_of_cons in Hc as [->|Hc]); [compute_done..|].
    by apply elem_of_nil in Hc.
Qed.

(** C1 (the code departs from the claim): on a frame that, once its labels
    are trimmed, has no [Product_Name] column, [clean_dataset] raises
    [KeyError "Product_Name"]: step 3 reads the column without the test
    [col in df.columns] that the other steps make. *)
Theorem absent_product_name_raises (df : DataFrame) :
  has_column "Product_Name" (strip_labels df) = false →
  clean_frame df = Raise (KeyError "Product_Name").
Proof.
  intros Habsent. rewrite clean_frame_eq. unfold pipeline_steps, column_name_hygiene.
  rewrite bind_Ok.
  destruct (for_each_guarded_labels TEXT_COLUMNS normalise (strip_labels df))
    as (d & Hd & Hl).
  change (text_normalisation (strip_labels df) = Ok d) in Hd.
  rewrite Hd, bind_Ok, category_correction_eq. unfold categorised.
  assert (assoc "Product_Name" (columns d) = None) as ->; [|done].
  apply has_column_false. unfold has_column in *. by rewrite Hl.
Qed.

(** C9: a call of [clean_dataset] leaves the argument and every other object
    of the store as they were; the object it returns is a new one, and holds
    the cleaned frame. *)
Theorem original_unchanged (h : list DataFrame) (r : nat) (df : DataFrame) :
  h !! r = Some df →
  ∃ res h',
    clean_dataset r h = (res, h') ∧
    h' !! r = Some df ∧
    (∀ r0 d0, h !! r0 = Some d0 → h' !! r0 = Some d0) ∧
    (∀ r', res = Ok r' →
           r' ≠ r ∧ h !! r' = None ∧
           ∃ df', clean_frame df = Ok df' ∧ h' !! r' = Some df').
Proof.
  intros Hr. pose proof (clean_dataset_run h r df Hr) as Hrun.
  rewrite clean_frame_eq.
  assert (∀ x r0 d0, h !! r0 = Some d0 → (h ++ [x]) !! r0 = Some d0) as Hkeep.
  { intros x r0 d0 H0. by apply lookup_app_l_Some. }
  destruct (pipeline_steps df) as [df'|e].
  - exists (Ok (List.length h)), (h ++ [df']). split; [done|].
    split; [by apply Hkeep|]. split; [by apply Hkeep|].
    intros r' [= <-]. split; [|split].
    + apply lookup_lt_Some in Hr. lia.
    + by apply lookup_ge_None_2.
    + exists df'. split; [done|]. by apply list_lookup_middle.
  - destruct Hrun as [x Hrun]. exists (Raise e), (h ++ [x]). split; [done|].
    split; [by apply Hkeep|]. split; [by apply Hkeep|]. by intros r' [=].
Qed.

Lemma labels_strip_stringify (df : DataFrame) :
  labels (strip_labels (stringify_missing df)) = labels (strip_labels df).
Proof.
  unfold labels, strip_labels, stringify_missing. simpl.
  rewrite <- !list_fmap_compose. apply list_fmap_ext.
  intros i [name s] _. simpl. by case_bool_decide.
Qed.

Lemma normalise_stringify (df : DataFrame) :
  map_columns TEXT_COLUMNS normalise (strip_labels (stringify_missing df)) =
  map_columns TEXT_COLUMNS normalise (strip_labels df).
Proof.
  unfold map_columns, strip_labels, stringify_missing. simpl. f_equal.
  rewrite <- !list_fmap_compose. apply list_fmap_ext.
  intros i [name s] _. simpl.
  destruct (bool_decide (PyStr.strip name ∈ TEXT_COLUMNS)) eqn:E; simpl;
    rewrite E; [|done].
  f_equal. rewrite !normalise_fmap, <- list_fmap_compose.
  apply list_fmap_ext. intros j c _. simpl. by destruct c.
Qed.

(** C10, as amended: text normalisation turns a missing cell of a declared
    text column that is present into the text of that missing value, the
    string ["nan"] for NaN and the string ["NaT"] for NaT, which is neither
    missing nor empty; and the pipeline gives the same result as on the frame
    in which these cells held that string from the start. *)
Theorem missing_text_is_stringified (df : DataFrame) (col : string) (i : nat)
    (v : cell) :
  well_formed (strip_labels df) →
  col ∈ TEXT_COLUMNS →
  cell_at col i (strip_labels df) = Some v →
  isna_cell v = true →
  ∃ t, (v = NaN ∧ t = "nan" ∨ v = NaT ∧ t = "NaT") ∧
       t ≠ "" ∧
       isna_cell (Str t) = false ∧
       (∃ d, text_normalisation (strip_labels df) = Ok d ∧
             cell_at col i d = Some (Str t)) ∧
       clean_frame (stringify_missing df) = clean_frame df.
Proof.
  intros Hwf Hcol (s & Hs & Hi)%cell_at_Some Hv.
  exists (normal_text v). split; [|split; [|split; [done|split]]].
  - destruct v; try done; [by left | by right].
  - by destruct v.
  - rewrite text_normalisation_eq by apply Hwf. eexists. split; [done|].
    apply cell_at_Some. exists (normalise s). split.
    + rewrite assoc_map_columns, bool_decide_eq_true_2 by done. by rewrite Hs.
    + by rewrite normalise_fmap, list_lookup_fmap, Hi.
  - rewrite !clean_frame_eq. unfold pipeline_steps, column_name_hygiene.
    simpl. rewrite !text_normalisation_eq;
      [|apply Hwf|rewrite labels_strip_stringify; apply Hwf].
    by rewrite normalise_stringify.
Qed.

End failures_and_frames.

Section idempotence.
Context `{PandasScalars}.

Lemma normalise_stripped (s : Series) : Forall stripped_text (normalise s).
Proof.
  rewrite normalise_fmap. apply Forall_fmap, Forall_true.
  intros c. eexists. split; [done|]. apply strip_idem.
Qed.

Lemma normalise_fixed (s : Series) : Forall stripped_text s → normalise s = s.
Proof.
  intros Hs. rewrite normalise_fmap. rewrite <- (list_fmap_id s) at 2.
  apply list.Forall_fmap_ext_1. eapply list.Forall_impl; [exact Hs|].
  intros c (x & -> & Hx). unfold normal_text. simpl. by rewrite Hx.
Qed.

Lemma Forall_where_set (P : cell → Prop) (mask : Mask) (v : cell) (s : Series) :
  P v → Forall P s → Forall P (where_set mask v s).
Proof.
  intros Hv Hs. revert mask. induction Hs as [|c s Hc Hs IH]; intros mask.
  - by destruct mask.
  - destruct mask as [|b mask]; [constructor|]. unfold where_set. simpl.
    constructor; [by destruct b|apply IH].
Qed.

Lemma corrected_stripped (m : list (string * string)) (names cats : Series) :
  Forall (λ item : string * string, PyStr.strip item.2 = item.2) m →
  Forall stripped_text cats → Forall stripped_text (corrected m names cats).
Proof.
  intros Hm. revert cats. induction Hm as [|[key cat] m Hcat Hm IH]; intros cats Hc.
  - done.
  - unfold corrected. simpl. apply IH. apply Forall_where_set; [|done].
    by exists cat.
Qed.

Lemma correct_cell_idem (m : list (string * string)) (n c : cell) :
  correct_cell m n (correct_cell m n c) = correct_cell m n c.
Proof.
  destruct n as [s| | | | | |];
    try (revert c; induction m as [|[key cat] m IH]; intros c; [done|];
         unfold correct_cell in *; simpl; by rewrite !IH).
  rewrite !correct_cell_last_match.
  by destruct (last_match m (PyStr.lower s)).
Qed.

Lemma corrected_idem (m : list (string * string)) (names cats : Series) :
  List.length names = List.length cats →
  corrected m names (corrected m names cats) = corrected m names cats.
Proof.
  intros Hlen. apply list_eq. intros i.
  destruct (decide (i < List.length cats)%nat) as [Hi|Hi].
  - destruct (lookup_lt_is_Some_2 cats i Hi) as [c Hc].
    destruct (lookup_lt_is_Some_2 names i) as [n Hn]; [lia|].
    rewrite (corrected_lookup m names _ i n (correct_cell m n c));
      [|done|by apply corrected_lookup].
    rewrite (corrected_lookup m names cats i n c) by done.
    by rewrite correct_cell_idem.
  - rewrite !lookup_ge_None_2; [done|..];
      rewrite !length_corrected; try lia.
    rewrite length_corrected; lia.
Qed.

(** Labels without white space at their ends. *)
Lemma strip_labels_stripped (df : DataFrame) :
  Forall (λ l, PyStr.strip l = l) (labels (strip_labels df)).
Proof.
  unfold labels, strip_labels. simpl. rewrite <- list_fmap_compose.
  apply Forall_fmap, Forall_true. intros [n s]. simpl. apply strip_idem.
Qed.

Lemma strip_labels_fixed (df : DataFrame) :
  Forall (λ l, PyStr.strip l = l) (labels df) → strip_labels df = df.
Proof.
  intros Hl. destruct df as [n cs]. unfold strip_labels, labels in *. simpl in *.
  f_equal. rewrite <- (list_fmap_id cs) at 2.
  apply list.Forall_fmap_ext_1. apply Forall_fmap in Hl.
  eapply list.Forall_impl; [exact Hl|]. intros [l s] Hs. simpl in *. by rewrite Hs.
Qed.

Lemma Forall_labels_setitem (P : string → Prop) (col : string) (s : Series)
    (df : DataFrame) :
  P col → Forall P (labels df) → Forall P (labels (setitem col s df)).
Proof.
  intros Hcol Hl. unfold labels, setitem in *. simpl.
  destruct (decide (col ∈ (columns df).*1)) as [Hin|Hnin].
  - by rewrite labels_assoc_set_in.
  - rewrite assoc_set_notin, fmap_app by done. apply Forall_app. split; [done|].
    by apply Forall_singleton.
Qed.

Lemma length_issues (df : DataFrame) :
  well_formed df → List.length (issues df) = nrows df.
Proof.
  intros Hwf. unfold issues.
  set (s0 := replicate (nrows df) (Str "")).
  assert (List.length s0 = nrows df) as H0 by apply length_replicate.
  assert (∀ c col, assoc c (columns df) = Some col → List.length col = nrows df)
    as Hcol by (intros c col; apply columns_length, Hwf).
  set (s1 := match assoc "Customer_Name" (columns df) with
             | Some _ => _ | None => _ end).
  assert (List.length s1 = nrows df) as H1.
  { subst s1. destruct (assoc "Customer_Name" (columns df)) as [col|] eqn:E; [|done].
    rewrite length_where_append; [done|].
    unfold mask_or, eq_str, isna. rewrite length_zip_with, !length_fmap.
    rewrite (Hcol _ _ E). lia. }
  set (s2 := match assoc "Email" (columns df) with
             | Some _ => _ | None => _ end).
  assert (List.length s2 = nrows df) as H2.
  { subst s2. destruct (assoc "Email" (columns df)); [|done].
    destruct (assoc "Email_Valid" (columns df)) as [col|] eqn:E; [|done].
    rewrite length_where_append; [done|].
    unfold mask_not, as_mask. rewrite !length_fmap. rewrite (Hcol _ _ E). lia. }
  destruct (assoc "Purchase_Amount" (columns df)) as [col|] eqn:E; [|done].
  rewrite length_where_append; [done|].
  unfold mask_or, le, isna. rewrite length_zip_with, !length_fmap.
  rewrite (Hcol _ _ E). lia.
Qed.

Lemma well_formed_after_categories (df : DataFrame) :
  well_formed df → well_formed (after_categories df).
Proof.
  intros Hwf. unfold after_categories, flagged.
  apply well_formed_setitem; [by apply well_formed_before_flags|].
  apply length_issues. by apply well_formed_before_flags.
Qed.

Lemma stripped_after_categories (df : DataFrame) :
  Forall (λ l, PyStr.strip l = l) (labels df) →
  Forall (λ l, PyStr.strip l = l) (labels (after_categories df)).
Proof.
  intros Hl. unfold after_categories, flagged, before_flags.
  apply Forall_labels_setitem; [done|]. rewrite !labels_map_columns.
  unfold email_checked.
  destruct (assoc "Email" (columns _)); [|by rewrite !labels_map_columns].
  apply Forall_labels_setitem; [done|]. by rewrite !labels_map_columns.
Qed.

Lemma stripped_categorised (df df' : DataFrame) :
  Forall (λ l, PyStr.strip l = l) (labels df) → categorised df = Ok df' →
  Forall (λ l, PyStr.strip l = l) (labels df').
Proof.
  intros Hl. unfold categorised.
  destruct (assoc "Product_Name" (columns df)); [|done].
  destruct (assoc "Product_Category" (columns df)).
  - intros [= <-]. by apply Forall_labels_setitem.
  - case_bool_decide; [done|]. intros [= <-]. by apply Forall_labels_setitem.
Qed.

(** A cleaned frame is a well-formed input with clean labels. *)
Lemma cleaned_is_input (df df' : DataFrame) :
  well_formed (strip_labels df) → clean_frame df = Ok df' →
  strip_labels df' = df' ∧ well_formed df'.
Proof.
  intros Hwf Hclean.
  destruct (clean_frame_Ok _ _ Hwf Hclean) as (d & Hd & -> & Hwfd & _).
  split; [|by apply well_formed_after_categories].
  apply strip_labels_fixed, stripped_after_categories.
  apply (stripped_categorised _ _) in Hd; [done|].
  rewrite labels_map_columns. apply strip_labels_stripped.
Qed.

(** On a frame that has a category column a second run gives the categories
    and the product names of the first. *)
Lemma category_idempotent (df d1 : DataFrame) :
  well_formed (strip_labels df) →
  has_column "Product_Category" (strip_labels df) = true →
  clean_frame df = Ok d1 →
  ∃ d2, clean_frame d1 = Ok d2 ∧
        assoc "Product_Category" (columns d2) = assoc "Product_Category" (columns d1) ∧
        assoc "Product_Name" (columns d2) = assoc "Product_Name" (columns d1).
Proof.
  intros Hwf [cats Hcats]%has_column_true Hclean.
  destruct (cleaned_is_input df d1 Hwf Hclean) as [Hfix Hwf1].
  assert (well_formed (strip_labels d1)) as Hwf1' by (by rewrite Hfix).
  (* the first run *)
  destruct (clean_frame_Ok _ _ Hwf Hclean) as (d & Hd & _ & _ & _).
  assert (∃ names, assoc "Product_Name" (columns (strip_labels df)) = Some names)
    as [names Hnames].
  { revert Hd. unfold categorised. rewrite !assoc_map_columns. decide_labels.
    destruct (assoc "Product_Name" (columns (strip_labels df))); [by eexists|done]. }
  pose proof (cleaned_text_column df d1 "Product_Name" Hwf Hclean) as Hn1.
  rewrite Hnames in Hn1. specialize (Hn1 ltac:(repeat constructor)). simpl in Hn1.
  pose proof (cleaned_category df d1 names Hwf Hclean Hnames) as Hc1.
  rewrite Hcats in Hc1.
  (* the second run *)
  destruct (clean_frame_succeeds d1 Hwf1') as [d2 Hclean2].
  { apply has_column_true. rewrite Hfix, Hn1. by eexists. }
  { left. apply has_column_true. rewrite Hfix, Hc1. by eexists. }
  exists d2. split; [done|].
  pose proof (cleaned_text_column d1 d2 "Product_Name" Hwf1' Hclean2) as Hn2.
  specialize (Hn2 ltac:(repeat constructor)).
  rewrite Hfix, Hn1 in Hn2. simpl in Hn2.
  rewrite (normalise_fixed _ (normalise_stripped names)) in Hn2.
  assert (assoc "Product_Name" (columns (strip_labels d1)) = Some (normalise names))
    as Hn1' by (by rewrite Hfix).
  pose proof (cleaned_category d1 d2 (normalise names) Hwf1' Hclean2 Hn1') as Hc2.
  rewrite Hfix, Hc1 in Hc2.
  assert (Forall stripped_text
            (corrected CATEGORY_MAPPINGS (normalise names) (normalise cats))) as Hst.
  { apply corrected_stripped; [|apply normalise_stripped].
    unfold CATEGORY_MAPPINGS. by repeat constructor. }
  rewrite (normalise_fixed _ (normalise_stripped names)) in Hc2.
  rewrite (normalise_fixed _ Hst) in Hc2.
  rewrite corrected_idem in Hc2.
  - split; congruence.
  - rewrite !length_normalise.
    rewrite (columns_length _ _ _ Hwf Hnames), (columns_length _ _ _ Hwf Hcats).
    done.
Qed.

End idempotence.

Section divergences.
Context `{PandasScalars}.

(** C3 (the code departs from the claim): a missing customer name becomes
    the text ["nan"] in step 2, so that the test of step 10 finds it neither
    empty nor missing: the row gets no ["Missing Customer Name; "], its
    issues are made of the two other messages only. *)
Theorem null_name_not_flagged (df df' : DataFrame) (i : nat) :
  well_formed (strip_labels df) →
  clean_frame df = Ok df' →
  cell_at "Customer_Name" i (strip_labels df) = Some NaN →
  cell_at "Customer_Name" i df' = Some (Str "nan") ∧
  ∃ issues,
    cell_at "Data_Quality_Issues" i df' = Some (Str issues) ∧
    issues ∈ [ ""; "Invalid Email; "; "Invalid Purchase Amount; ";
               "Invalid Email; Invalid Purchase Amount; " ].
Proof.
  intros Hwf Hclean Hnan.
  assert (cell_at "Customer_Name" i df' = Some (Str "nan")) as Hname.
  { apply cell_at_Some in Hnan as (s & Hs & Hi). apply cell_at_Some.
    exists (normalise s). split.
    - rewrite (cleaned_text_column df df' "Customer_Name" Hwf Hclean)
        by (repeat constructor).
      by rewrite Hs.
    - by rewrite normalise_fmap, list_lookup_fmap, Hi. }
  split; [done|].
  destruct (name_flag_row df df' i (Str "nan") Hwf Hclean Hname)
    as (_ & rest & Hq & Hrest).
  exists rest. by split.
Qed.

(** C7 (the code departs from the claim): on a frame with a product name and
    no category column, the first run creates the category column with a
    missing value for the row that matches no keyword, and a run on that
    result turns the missing value into the string ["nan"]. *)
Theorem category_not_idempotent :
  clean_frame uncategorised =
    Ok {| nrows := 1;
          columns := [ ("Product_Name", [Str "Pen"]);
                       ("Product_Category", [NaN]);
                       ("Data_Quality_Issues", [Str ""]) ] |} ∧
  clean_frame {| nrows := 1;
                 columns := [ ("Product_Name", [Str "Pen"]);
                              ("Product_Category", [NaN]);
                              ("Data_Quality_Issues", [Str ""]) ] |} =
    Ok {| nrows := 1;
          columns := [ ("Product_Name", [Str "Pen"]);
                       ("Product_Category", [Str "nan"]);
                       ("Data_Quality_Issues", [Str ""]) ] |}.
Proof. split; vm_compute; reflexivity. Qed.

End divergences.

(** ** The theorems at the worked inputs *)

Lemma dated_names_well_formed : well_formed (strip_labels dated_names).
Proof. split; [compute_done|repeat constructor]. Defined.

Lemma orders_well_formed : well_formed (strip_labels orders).
Proof. split; [compute_done|repeat constructor]. Defined.

Lemma orders_clean : @clean_frame plain_scalars orders = Ok orders_cleaned.
Proof. vm_compute. reflexivity. Defined.

Lemma absent_product_name_raises_witness :
  has_column "Product_Name" (strip_labels no_product_name) = false ∧
  @clean_frame plain_scalars no_product_name = Raise (KeyError "Product_Name").
Proof.
  split; [reflexivity|].
  apply (@absent_product_name_raises plain_scalars no_product_name). reflexivity.
Defined.

Lemma issues_of_bad_row_witness :
  cell_at "Data_Quality_Issues" 0 orders_cleaned =
  Some (Str "Missing Customer Name; Invalid Email; Invalid Purchase Amount; ").
Proof.
  apply (proj1 (@issues_of_bad_row plain_scalars orders 0 (Int (-5))
                  orders_well_formed eq_refl eq_refl eq_refl (or_introl eq_refl))).
  exact orders_clean.
Defined.

Lemma null_name_not_flagged_witness :
  cell_at "Customer_Name" 1 orders_cleaned = Some (Str "nan") ∧
  ∃ issues,
    cell_at "Data_Quality_Issues" 1 orders_cleaned = Some (Str issues) ∧
    issues ∈ [ ""; "Invalid Email; "; "Invalid Purchase Amount; ";
               "Invalid Email; Invalid Purchase Amount; " ].
Proof.
  apply (@null_name_not_flagged plain_scalars orders orders_cleaned 1
           orders_well_formed orders_clean). reflexivity.
Defined.

Lemma email_valid_iff_witness :
  cell_at "Email" 2 orders_cleaned = Some (Str "asha.rao@example.com") ∧
  ∃ b, cell_at "Email_Valid" 2 orders_cleaned = Some (Bool b) ∧
       (b = true ↔ Re.lang EMAIL_REGEX "asha.rao@example.com") ∧
       (b = true ↔ email_shape "asha.rao@example.com").
Proof.
  apply (@email_valid_iff plain_scalars orders orders_cleaned 2
           (Str " Asha.Rao@Example.COM ") orders_well_formed orders_clean).
  reflexivity.
Defined.

Lemma satisfaction_clipped_witness :
  ∃ c, cell_at "Customer_Satisfaction" 0 orders_cleaned = Some c ∧
       (c = NaN ∨ in_range 1 5 c = true) ∧
       (Int 7 = NaN → c = NaN) ∧
       ∀ x, numeric_value (Int 7) = Some x →
            (float_lt (float_of_Z 5) x = true →
             numeric_value c = Some (float_of_Z 5)) ∧
            (float_lt x (float_of_Z 1) = true →
             numeric_value c = Some (float_of_Z 1)) ∧
            (float_le (float_of_Z 1) x = true → float_le x (float_of_Z 5) = true →
             numeric_value c = Some x).
Proof.
  apply (@satisfaction_clipped plain_scalars orders orders_cleaned 0 (Int 7)
           orders_well_formed orders_clean). reflexivity.
Defined.

Lemma category_last_match_witness :
  ∃ df', category_correction orders = Ok df' ∧
         cell_at "Product_Category" 0 df' = Some (Str "Electronics").
Proof.
  apply (proj1 (@category_last_match plain_scalars orders 0 "Gaming Laptop Pro"
                  (Str "Home") eq_refl eq_refl)).
Defined.

Lemma harmonisation_canonical_witness :
  cell_at "Payment_Mode" 2 orders_cleaned = Some (Str "Cash") ∧
  cell_at "Payment_Mode" 1 orders_cleaned = Some (Str "Cheque").
Proof.
  split.
  - apply (@harmonisation_canonical plain_scalars orders orders_cleaned
             "Payment_Mode" PAYMENT_MODE_MAP 2 (Str "CASH")
             orders_well_formed orders_clean); [|reflexivity].
    apply list_elem_of_here.
  - apply (@harmonisation_canonical plain_scalars orders orders_cleaned
             "Payment_Mode" PAYMENT_MODE_MAP 1 (Str "Cheque")
             orders_well_formed orders_clean); [|reflexivity].
    apply list_elem_of_here.
Defined.

Lemma original_unchanged_witness :
  ∃ res h',
    @clean_dataset plain_scalars 0 [orders] = (res, h') ∧
    h' !! 0%nat = Some orders ∧
    (∀ r0 d0, [orders] !! r0 = Some d0 → h' !! r0 = Some d0) ∧
    (∀ r', res = Ok r' →
           r' ≠ 0%nat ∧ [orders] !! r' = None ∧
           ∃ df', @clean_frame plain_scalars orders = Ok df' ∧ h' !! r' = Some df').
Proof.
  apply (@original_unchanged plain_scalars [orders] 0 orders). reflexivity.
Defined.

Lemma missing_text_is_stringified_witness :
  ∃ t, (NaT = NaN ∧ t = "nan" ∨ NaT = NaT ∧ t = "NaT") ∧
       t ≠ "" ∧
       isna_cell (Str t) = false ∧
       (∃ d, @text_normalisation plain_scalars (strip_labels dated_names) = Ok d ∧
             cell_at "Customer_Name" 1 d = Some (Str t)) ∧
       @clean_frame plain_scalars (stringify_missing dated_names) =
       @clean_frame plain_scalars dated_names.
Proof.
  apply (@missing_text_is_stringified plain_scalars dated_names "Customer_Name" 1
           NaT dated_names_well_formed); [|reflexivity|reflexivity].
  compute_done.
Defined.

(** C10, as stated, fails: the missing cell of the customer-name column of
    [dated_names] is NaT, and text normalisation makes the string ["NaT"] of
    it, not the string ["nan"]. *)
Lemma missing_text_not_always_nan :
  well_formed (strip_labels dated_names) ∧
  "Customer_Name" ∈ TEXT_COLUMNS ∧
  cell_at "Customer_Name" 1 (strip_labels dated_names) = Some NaT ∧
  isna_cell NaT = true ∧
  @text_normalisation plain_scalars (strip_labels dated_names) =
    Ok {| nrows := 2;
          columns := [ ("Customer_Name", [Str "0"; Str "NaT"]);
                       ("Product_Name", [Str "Pen"; Str "Novel"]) ] |} ∧
  ¬ (∃ d, @text_normalisation plain_scalars (strip_labels dated_names) = Ok d ∧
          cell_at "Customer_Name" 1 d = Some (Str "nan")).
Proof.
  split; [exact dated_names_well_formed|].
  split; [compute_done|]. split; [reflexivity|]. split; [reflexivity|].
  assert (@text_normalisation plain_scalars (strip_labels dated_names) =
          Ok {| nrows := 2;
                columns := [ ("Customer_Name", [Str "0"; Str "NaT"]);
                             ("Product_Name", [Str "Pen"; Str "Novel"]) ] |}) as E
    by (vm_compute; reflexivity).
  split; [exact E|]. rewrite E. intros (d & [= <-] & Hd). discriminate Hd.
Qed.

(** * Beyond the claims: the whole of [clean_dataset] *)

(** ** Case changes and white space *)

Section casing.
Import PyStr.

Ltac by_cases_on c := destruct c as [[] [] [] [] [] [] [] []]; reflexivity.

Lemma is_space_lower_char (c : ascii) : is_space (lower_char c) = is_space c.
Proof. by_cases_on c. Qed.

Lemma is_space_upper_char (c : ascii) : is_space (upper_char c) = is_space c.
Proof. by_cases_on c. Qed.

Lemma is_alpha_lower_char (c : ascii) : is_alpha (lower_char c) = is_alpha c.
Proof. by_cases_on c. Qed.

Lemma is_alpha_upper_char (c : ascii) : is_alpha (upper_char c) = is_alpha c.
Proof. by_cases_on c. Qed.

Lemma lower_char_idem (c : ascii) : lower_char (lower_char c) = lower_char c.
Proof. by_cases_on c. Qed.

Lemma upper_char_idem (c : ascii) : upper_char (upper_char c) = upper_char c.
Proof. by_cases_on c. Qed.

Lemma lower_idem (s : string) : lower (lower s) = lower s.
Proof.
  induction s as [|c s IH]; [done|]. cbn [lower]. by rewrite lower_char_idem, IH.
Qed.

Lemma title_from_idem (b : bool) (s : string) :
  title_from b (title_from b s) = title_from b s.
Proof.
  revert b. induction s as [|c s IH]; intros b; [done|]. cbn [title_from].
  destruct b.
  - by rewrite lower_char_idem, is_alpha_lower_char, IH.
  - by rewrite upper_char_idem, is_alpha_upper_char, IH.
Qed.

Lemma title_idem (s : string) : title (title s) = title s.
Proof. apply title_from_idem. Qed.

Lemma lstrip_lower (s : string) : lstrip (lower s) = lower (lstrip s).
Proof.
  induction s as [|c s IH]; [done|]. cbn [lower lstrip].
  rewrite is_space_lower_char. by destruct (is_space c).
Qed.

Lemma rstrip_lower (s : string) : rstrip (lower s) = lower (rstrip s).
Proof.
  induction s as [|c s IH]; [done|]. cbn [lower rstrip].
  rewrite is_space_lower_char, IH.
  assert (is_empty (lower (rstrip s)) = is_empty (rstrip s)) as ->
    by (by destruct (rstrip s)).
  by destruct (is_space c && is_empty (rstrip s)).
Qed.

Lemma strip_lower (s : string) : strip (lower s) = lower (strip s).
Proof. unfold strip. by rewrite lstrip_lower, rstrip_lower. Qed.

Lemma rstrip_title_from (b : bool) (s : string) :
  rstrip (title_from b s) = title_from b (rstrip s).
Proof.
  revert b. induction s as [|c s IH]; intros b; [done|]. cbn [title_from rstrip].
  rewrite IH.
  assert (is_empty (title_from (is_alpha c) (rstrip s)) = is_empty (rstrip s)) as ->
    by (by destruct (rstrip s)).
  assert (is_space (if b then lower_char c else upper_char c) = is_space c) as ->
    by (destruct b; [apply is_space_lower_char | apply is_space_upper_char]).
  by destruct (is_space c && is_empty (rstrip s)).
Qed.

Lemma rstrip_length (s : string) : (String.length (rstrip s) ≤ String.length s)%nat.
Proof.
  induction s as [|c s IH]; [done|]. cbn [rstrip].
  destruct (is_space c && is_empty (rstrip s)); cbn [String.length]; lia.
Qed.

Lemma lstrip_length (s : string) : (String.length (lstrip s) ≤ String.length s)%nat.
Proof.
  induction s as [|c s IH]; [done|]. cbn [lstrip].
  destruct (is_space c); cbn [String.length]; lia.
Qed.

(** A text that [strip] leaves alone starts with no white space. *)
Lemma stripped_lstrip (s : string) : strip s = s → lstrip s = s.
Proof.
  destruct s as [|c s]; [done|]. unfold strip. cbn [lstrip].
  destruct (is_space c); [|done]. intros E.
  pose proof (rstrip_length (lstrip s)) as L1.
  pose proof (lstrip_length s) as L2.
  rewrite E in L1. cbn [String.length] in L1. lia.
Qed.

Lemma strip_title (s : string) : strip s = s → strip (title s) = title s.
Proof.
  intros E. pose proof (stripped_lstrip s E) as El.
  assert (rstrip s = s) as Er by (unfold strip in E; by rewrite El in E).
  unfold strip.
  assert (lstrip (title s) = title s) as ->.
  { destruct s as [|c s]; [done|]. cbn [lstrip] in El. unfold title. cbn [title_from lstrip].
    rewrite is_space_upper_char. destruct (is_space c); [|done].
    pose proof (lstrip_length s) as L. rewrite El in L. cbn [String.length] in L. lia. }
  unfold title. by rewrite rstrip_title_from, Er.
Qed.

End casing.

(** ** The rule of each column, applied twice *)

Section rules_twice.
Context `{PandasScalars}.

(** Columns of one numeric kind: integers only, or floats and NaN only. *)
Lemma to_numeric_kind (s : Series) :
  Forall (λ c, ∃ z, c = Int z) (to_numeric s) ∨
  (Forall (λ c, c = NaN ∨ ∃ x, c = Float x) (to_numeric s)).
Proof.
  unfold to_numeric. destruct (forallb is_int (to_numeric_scalar <$> s)) eqn:E.
  - left. apply Is_true_true_2, forallb_True in E. rewrite Forall_fmap in E.
    rewrite !Forall_fmap.
    eapply list.Forall_impl; [exact E|]. intros c. simpl.
    destruct (to_numeric_scalar c) as [[z|x]|]; simpl; try done. eauto.
  - right. rewrite !Forall_fmap. apply Forall_forall. intros c _. simpl.
    destruct (to_numeric_scalar c) as [[z|x]|]; simpl; eauto.
Qed.

Lemma to_numeric_ints (s : Series) :
  Forall (λ c, ∃ z, c = Int z) s → to_numeric s = s.
Proof.
  intros Hs. unfold to_numeric.
  assert (to_numeric_scalar <$> s = (λ c, match c with Int z => Some (NInt z) | _ => None end) <$> s) as E.
  { apply Forall_fmap_ext_1. eapply list.Forall_impl; [exact Hs|]. by intros c [z ->]. }
  rewrite E. clear E.
  induction Hs as [|c s [z ->] Hs IH]; [done|]. csimpl.
  destruct (forallb is_int _) eqn:E.
  - f_equal. exact IH.
  - exfalso. clear IH. induction Hs as [|c s [z' ->] Hs IH]; [done|].
    csimpl in E. auto.
Qed.

Lemma to_numeric_floats (s : Series) :
  Forall (λ c, c = NaN ∨ ∃ x, c = Float x) s → to_numeric s = s.
Proof.
  intros Hs. unfold to_numeric.
  destruct Hs as [|c s Hc Hs]; [done|].
  assert (forallb is_int (to_numeric_scalar <$> c :: s) = false) as ->.
  { csimpl. by destruct Hc as [-> | [x ->]]. }
  rewrite <- list_fmap_compose.
  rewrite <- (list_fmap_id (c :: s)) at 2.
  apply Forall_fmap_ext_1. constructor.
  - by destruct Hc as [-> | [x ->]].
  - eapply list.Forall_impl; [exact Hs|]. by intros c' [-> | [x ->]].
Qed.

Lemma to_numeric_idem (s : Series) : to_numeric (to_numeric s) = to_numeric s.
Proof.
  destruct (to_numeric_kind s); [by apply to_numeric_ints | by apply to_numeric_floats].
Qed.

Lemma clip_cell_idem (c : cell) : clip_cell 1 5 (clip_cell 1 5 c) = clip_cell 1 5 c.
Proof.
  assert (Hb : ∀ b : Z, (1 ≤ b ≤ 5)%Z →
                        clip_cell 1 5 (Float (float_of_Z b)) = Float (float_of_Z b)).
  { intros b Hb. unfold clip_cell, isna_cell, cell_ge, cell_le, bound_like.
    rewrite !float_le_of_Z. rewrite !bool_decide_eq_true_2 by lia. done. }
  destruct c as [s|z|x| |b|ns| ]; try done; try (apply (Hb 5%Z); lia).
  - unfold clip_cell, isna_cell, cell_ge, cell_le, bound_like.
    repeat case_bool_decide; try lia; repeat case_bool_decide; try lia; done.
  - assert (clip_cell 1 5 (Float x) = Float x ∨
            ∃ b : Z, (1 ≤ b ≤ 5)%Z ∧ clip_cell 1 5 (Float x) = Float (float_of_Z b))
      as [E | (b & Hr & E)].
    { unfold clip_cell, isna_cell, cell_ge, cell_le, bound_like.
      destruct (float_le x (float_of_Z 5)), (float_le (float_of_Z 1) x);
        [by left|right; exists 1%Z|right; exists 5%Z..]; by split. }
    + by rewrite !E.
    + rewrite E. by apply Hb.
Qed.

Lemma clip_idem (s : Series) : clip 1 5 (clip 1 5 s) = clip 1 5 s.
Proof.
  unfold clip. rewrite <- list_fmap_compose. apply list_fmap_ext.
  intros i c _. apply clip_cell_idem.
Qed.

Lemma clip_kind (P : cell → Prop) (s : Series) :
  (∀ c, P c → P (clip_cell 1 5 c)) → Forall P s → Forall P (clip 1 5 s).
Proof.
  intros HP Hs. unfold clip. rewrite Forall_fmap.
  eapply list.Forall_impl; [exact Hs|]. exact HP.
Qed.

Lemma to_numeric_clip (s : Series) :
  to_numeric (clip 1 5 (to_numeric s)) = clip 1 5 (to_numeric s).
Proof.
  destruct (to_numeric_kind s) as [Hs | Hs].
  - apply to_numeric_ints. apply clip_kind; [|exact Hs].
    intros c [z ->]. unfold clip_cell, isna_cell, cell_ge, cell_le, bound_like.
    repeat case_bool_decide; eauto.
  - apply to_numeric_floats. apply clip_kind; [|exact Hs].
    intros c [-> | [x ->]]; [by left|]. right.
    unfold clip_cell, isna_cell, cell_ge, cell_le, bound_like.
    destruct (float_le (float_of_Z 1) x), (float_le x (float_of_Z 5)); eauto.
Qed.

Lemma satisfaction_rule_idem (s : Series) :
  clip 1 5 (to_numeric (clip 1 5 (to_numeric s))) = clip 1 5 (to_numeric s).
Proof. by rewrite to_numeric_clip, clip_idem. Qed.

Lemma to_datetime_idem (s : Series) :
  (∀ ns, to_datetime_scalar (Timestamp ns) = Some ns) →
  to_datetime_scalar NaT = None →
  to_datetime (to_datetime s) = to_datetime s.
Proof.
  intros Hts Hnat. unfold to_datetime. rewrite <- list_fmap_compose.
  apply list_fmap_ext. intros i c _. simpl.
  destruct (to_datetime_scalar c); by rewrite ?Hts, ?Hnat.
Qed.

Lemma normalise_idem (s : Series) : normalise (normalise s) = normalise s.
Proof. apply normalise_fixed, normalise_stripped. Qed.

Lemma email_rule_idem (s : Series) :
  lower_strip (normalise (lower_strip (normalise s))) = lower_strip (normalise s).
Proof.
  rewrite !lower_strip_normalise, <- list_fmap_compose.
  apply list_fmap_ext. intros i c _. simpl. f_equal. unfold normal_text at 1.
  simpl. by rewrite strip_idem, <- (strip_lower (PyStr.lower _)), lower_idem, !strip_idem.
Qed.

Lemma title_rule_idem (s : Series) :
  str_title (normalise (str_title (normalise s))) = str_title (normalise s).
Proof.
  rewrite !normalise_fmap. unfold str_title, str_method.
  rewrite <- !list_fmap_compose. apply list_fmap_ext. intros i c _. simpl.
  f_equal. unfold normal_text at 1. simpl.
  rewrite strip_title by apply strip_idem. apply title_idem.
Qed.

(** The labels of a table are canonical, and have no white space around. *)
Lemma canonical_idem (table : gmap string string) (t : string) :
  map_Forall (λ _ label, table !! PyStr.lower label = Some label ∧
                         PyStr.strip label = label) table →
  PyStr.strip t = t →
  PyStr.strip (canonical table t) = canonical table t ∧
  canonical table (canonical table t) = canonical table t.
Proof.
  intros Ht Es.
  assert (canonical table t = t ∧ table !! PyStr.lower t = None ∨
          ∃ label, canonical table t = label ∧ table !! PyStr.lower t = Some label)
    as [[E N] | (label & E & S)].
  { unfold canonical. destruct (table !! PyStr.lower t) as [label|]; eauto. }
  - rewrite !E. done.
  - rewrite !E. destruct (Ht _ _ S) as [E1 E2]. split; [done|].
    unfold canonical. by rewrite E1.
Qed.

Lemma harmonise_rule_idem (table : gmap string string) (s : Series) :
  map_Forall (λ _ label, table !! PyStr.lower label = Some label ∧
                         PyStr.strip label = label) table →
  harmonised table (normalise (harmonised table (normalise s))) =
  harmonised table (normalise s).
Proof.
  intros Ht. rewrite !harmonised_normalise, <- list_fmap_compose.
  apply list_fmap_ext. intros i c _. simpl. f_equal. unfold normal_text at 1.
  simpl. destruct (canonical_idem table (normal_text c) Ht) as [E1 E2].
  { apply strip_idem. }
  by rewrite E1, E2.
Qed.

Lemma tables_canonical :
  Forall (λ table : gmap string string,
            map_Forall (λ _ label, table !! PyStr.lower label = Some label ∧
                                   PyStr.strip label = label) table)
    [ PAYMENT_MODE_MAP; DELIVERY_STATUS_MAP; GENDER_MAP ].
Proof.
  repeat (apply list.Forall_cons; split); [compute_done..|apply Forall_nil].
Qed.

End rules_twice.

(** ** How a run ends, and the shape of what it returns *)

Section outcome.
Context `{PandasScalars}.


Lemma labels_setitem (col : string) (s : Series) (df : DataFrame) :
  labels (setitem col s df) = labels df ++ filter (λ c, c ∉ labels df) [col].
Proof.
  unfold labels, setitem. cbn [columns].
  destruct (decide (col ∈ (columns df).*1)) as [Hin | Hnot].
  - rewrite labels_assoc_set_in by exact Hin.
    rewrite filter_cons_False by (intros N; exact (N Hin)).
    rewrite filter_nil, app_nil_r. reflexivity.
  - rewrite assoc_set_notin by exact Hnot.
    rewrite filter_cons_True by exact Hnot.
    rewrite filter_nil, fmap_app. reflexivity.
Qed.

Lemma filter_new_snoc (L xs : list string) (b : string) :
  b ∉ xs →
  (L ++ filter (λ c, c ∉ L) xs) ++
    filter (λ c, c ∉ L ++ filter (λ c, c ∉ L) xs) [b]
  = L ++ filter (λ c, c ∉ L) (xs ++ [b]).
Proof.
  intros Hb. rewrite list.filter_app, <- app_assoc. f_equal. f_equal.
  destruct (decide (b ∈ L)) as [Hin | Hnot].
  - rewrite !filter_cons_False; [done|by intros N|].
    intros N. apply N. apply elem_of_app. by left.
  - rewrite !filter_cons_True; [done|done|].
    intros [Hin | Hin%list_elem_of_filter]%elem_of_app; [done|].
    destruct Hin as [_ Hin]. done.
Qed.

Lemma cleaned_nrows (df df' : DataFrame) :
  well_formed (strip_labels df) → clean_frame df = Ok df' → nrows df' = nrows df.
Proof.
  intros Hwf Hclean.
  destruct (clean_frame_Ok _ _ Hwf Hclean) as (d & Hd & -> & Hwfd & Hrows).
  unfold after_categories, flagged. cbn [nrows setitem].
  by rewrite nrows_before_flags.
Qed.

Lemma cleaned_labels (df df' : DataFrame) :
  well_formed (strip_labels df) → clean_frame df = Ok df' →
  labels df' =
    labels (strip_labels df) ++
    filter (λ c, c ∉ labels (strip_labels df))
      ([ "Product_Category" ] ++
       (if has_column "Email" (strip_labels df) then [ "Email_Valid" ] else []) ++
       [ "Data_Quality_Issues" ]).
Proof.
  intros Hwf Hclean.
  destruct (clean_frame_Ok _ _ Hwf Hclean) as (d & Hd & -> & Hwfd & Hrows).
  assert (labels d = labels (strip_labels df) ++
                     filter (λ c, c ∉ labels (strip_labels df)) [ "Product_Category" ])
    as Hld.
  { revert Hd. unfold categorised.
    destruct (assoc "Product_Name" _); [|done].
    rewrite <- (labels_map_columns TEXT_COLUMNS normalise (strip_labels df)).
    destruct (assoc "Product_Category" _).
    - intros [= <-]. apply labels_setitem.
    - case_bool_decide; [done|]. intros [= <-]. apply labels_setitem. }
  assert (has_column "Email" (strip_labels df) =
          bool_decide (is_Some (assoc "Email" (columns d)))) as ->.
  { rewrite (assoc_categorised _ _ _ Hd) by done.
    rewrite assoc_map_columns. decide_labels.
    rewrite has_column_assoc.
    by destruct (assoc "Email" (columns (strip_labels df))). }
  unfold after_categories, flagged. rewrite labels_setitem.
  unfold before_flags. rewrite !labels_map_columns.
  assert (labels (email_checked
                    (map_columns ["Gender"] (harmonised GENDER_MAP)
                       (map_columns ["Delivery_Status"] (harmonised DELIVERY_STATUS_MAP)
                          (map_columns ["Payment_Mode"] (harmonised PAYMENT_MODE_MAP)
                             (map_columns DATE_COLUMNS to_datetime
                                (map_columns NUMERIC_COLUMNS to_numeric d))))))
          = labels d ++ filter (λ c, c ∉ labels d)
                          (if bool_decide (is_Some (assoc "Email" (columns d)))
                           then [ "Email_Valid" ] else [])) as ->.
  { unfold email_checked. rewrite !assoc_map_columns. decide_labels.
    destruct (assoc "Email" (columns d)).
    - rewrite labels_setitem, !labels_map_columns. done.
    - rewrite !labels_map_columns.
      change (bool_decide (is_Some None)) with false. cbv iota.
      rewrite filter_nil, app_nil_r. done. }
  rewrite Hld.
  destruct (bool_decide (is_Some (assoc "Email" (columns d)))).
  + rewrite (filter_new_snoc _ [ "Product_Category" ] "Email_Valid") by compute_done.
    rewrite (filter_new_snoc _ [ "Product_Category"; "Email_Valid" ]
               "Data_Quality_Issues") by compute_done.
    done.
  + rewrite filter_nil, app_nil_r.
    rewrite (filter_new_snoc _ [ "Product_Category" ] "Data_Quality_Issues")
      by compute_done.
    done.
Qed.


Lemma assoc_map_columns_other (cols : list string) (f : Series → Series) (c : string)
    (df : DataFrame) :
  c ∉ cols → assoc c (columns (map_columns cols f df)) = assoc c (columns df).
Proof. intros Hc. rewrite assoc_map_columns. by rewrite bool_decide_eq_false_2. Qed.

Lemma assoc_email_checked_other (c : string) (df : DataFrame) :
  c ≠ "Email" → c ≠ "Email_Valid" →
  assoc c (columns (email_checked df)) = assoc c (columns df).
Proof.
  intros H1 H2. rewrite assoc_email_checked. by rewrite !bool_decide_eq_false_2.
Qed.

Lemma assoc_before_flags_other (c : string) (df : DataFrame) :
  c ∉ NUMERIC_COLUMNS ++ DATE_COLUMNS ++
      [ "Payment_Mode"; "Delivery_Status"; "Gender"; "Email"; "Email_Valid";
        "City"; "Country" ] →
  assoc c (columns (before_flags df)) = assoc c (columns df).
Proof.
  intros Hc. unfold before_flags.
  rewrite !assoc_map_columns_other, assoc_email_checked_other,
    !assoc_map_columns_other; first done;
    try intros ->; try intros Hin; apply Hc;
    unfold NUMERIC_COLUMNS, DATE_COLUMNS in *;
    rewrite ?elem_of_app, ?elem_of_cons, ?elem_of_nil in *; tauto.
Qed.

Lemma assoc_cleaned_other (df df' : DataFrame) (c : string) :
  well_formed (strip_labels df) → clean_frame df = Ok df' →
  c ∉ TEXT_COLUMNS ++ NUMERIC_COLUMNS ++ DATE_COLUMNS ++
      [ "Email_Valid"; "Data_Quality_Issues" ] →
  assoc c (columns df') = assoc c (columns (strip_labels df)).
Proof.
  intros Hwf Hclean Hc.
  destruct (clean_frame_Ok _ _ Hwf Hclean) as (d & Hd & -> & _ & _).
  unfold after_categories. rewrite assoc_flagged.
  rewrite bool_decide_eq_false_2.
  2:{ intros <-. apply Hc. compute_done. }
  rewrite assoc_before_flags_other.
  2:{ intros Hin. apply Hc.
      unfold TEXT_COLUMNS, NUMERIC_COLUMNS, DATE_COLUMNS in *.
      rewrite ?elem_of_app, ?elem_of_cons, ?elem_of_nil in *. tauto. }
  rewrite (assoc_categorised _ _ _ Hd).
  2:{ intros ->. apply Hc. compute_done. }
  apply assoc_map_columns_other.
  intros Hin. apply Hc. rewrite elem_of_app. by left.
Qed.


End outcome.

(** ** Column by column *)

Section columns.
Context `{PandasScalars}.

Lemma column_rule_other (c : string) (s : Series) :
  c ∉ TEXT_COLUMNS ++ NUMERIC_COLUMNS ++ DATE_COLUMNS → column_rule c s = s.
Proof.
  intros Hc. unfold column_rule.
  rewrite !bool_decide_eq_false_2; first done;
    try intros ->; try intros Hin; apply Hc;
    unfold TEXT_COLUMNS, NUMERIC_COLUMNS, DATE_COLUMNS in *;
    rewrite ?elem_of_app, ?elem_of_cons, ?elem_of_nil in *; tauto.
Qed.

Lemma cleaned_column (df df' : DataFrame) (c : string) :
  well_formed (strip_labels df) → clean_frame df = Ok df' →
  c ∉ [ "Product_Category"; "Email_Valid"; "Data_Quality_Issues" ] →
  assoc c (columns df') = column_rule c <$> assoc c (columns (strip_labels df)).
Proof.
  intros Hwf Hclean Hc.
  destruct (decide (c ∈ TEXT_COLUMNS ++ NUMERIC_COLUMNS ++ DATE_COLUMNS)) as [Hin | Hout].
  - destruct (clean_frame_Ok _ _ Hwf Hclean) as (d & Hd & -> & _ & _).
    assert (c ≠ "Product_Category") as Hpc.
    { intros ->. apply Hc. compute_done. }
    clear Hc.
    unfold TEXT_COLUMNS, NUMERIC_COLUMNS, DATE_COLUMNS in Hin.
    rewrite ?elem_of_app, ?elem_of_cons, ?elem_of_nil in Hin.
    destruct_or!; try done; subst c;
      trace_column; rewrite (assoc_categorised _ _ _ Hd) by done;
      rewrite assoc_map_columns; decide_labels;
      unfold column_rule; decide_labels;
      by destruct (assoc _ (columns (strip_labels df))).
  - rewrite (assoc_cleaned_other df df' c Hwf Hclean).
    + destruct (assoc c _); [|done]. simpl. by rewrite column_rule_other.
    + intros Hin. rewrite !elem_of_app in Hin. rewrite !elem_of_app in Hout.
      destruct Hin as [?|[?|[?|?]]]; [tauto..|]. by apply Hc; right.
Qed.

End columns.

Lemma assoc_head_notin (l : string) (cs : list (string * Series)) :
  l ∉ cs.*1 → assoc l cs = None.
Proof. apply assoc_None. Qed.

Lemma columns_ext (cs cs' : list (string * Series)) :
  NoDup cs.*1 → cs.*1 = cs'.*1 →
  (∀ c, assoc c cs = assoc c cs') → cs = cs'.
Proof.
  revert cs'. induction cs as [|[l s] cs IH]; intros [|[l' s'] cs'] Hnd Hl Ha;
    try done.
  csimpl in *. injection Hl as <- Hl. apply list.NoDup_cons in Hnd as [Hl0 Hnd].
  pose proof (Ha l) as E. cbn [assoc] in E.
  rewrite !bool_decide_eq_true_2 in E by done. injection E as <-.
  f_equal. apply IH; [done|done|]. intros c.
  destruct (decide (l = c)) as [<- | Hne].
  - rewrite !assoc_head_notin; [done|by rewrite <- Hl|done].
  - specialize (Ha c). cbn [assoc] in Ha.
    by rewrite !bool_decide_eq_false_2 in Ha by done.
Qed.

Lemma frame_ext (d d' : DataFrame) :
  NoDup (labels d) → labels d = labels d' → nrows d = nrows d' →
  (∀ c, assoc c (columns d) = assoc c (columns d')) → d = d'.
Proof.
  destruct d as [n cs], d' as [n' cs']. unfold labels. cbn [nrows columns].
  intros Hnd Hl -> Ha. f_equal. by apply columns_ext.
Qed.

Lemma filter_known (L xs : list string) :
  Forall (λ c, c ∈ L) xs → filter (λ c, c ∉ L) xs = [].
Proof.
  induction 1 as [|x xs Hx _ IH]; [done|].
  rewrite filter_cons_False by (intros N; exact (N Hx)). exact IH.
Qed.

(** ** A second run *)

Section again.
Context `{PandasScalars}.

Lemma issues_ext (d d' : DataFrame) :
  nrows d = nrows d' →
  (∀ c, c ∈ [ "Customer_Name"; "Email"; "Email_Valid"; "Purchase_Amount" ] →
        assoc c (columns d) = assoc c (columns d')) →
  issues d = issues d'.
Proof.
  intros Hn Ha. unfold issues.
  rewrite Hn, !Ha by compute_done. done.
Qed.

Lemma cleaned_flag_column (df df' : DataFrame) :
  well_formed (strip_labels df) → clean_frame df = Ok df' →
  assoc "Email_Valid" (columns df') =
  match assoc "Email" (columns (strip_labels df)) with
  | Some e => Some (Bool <$> str_match EMAIL_REGEX (lower_strip (normalise e)))
  | None => assoc "Email_Valid" (columns (strip_labels df))
  end.
Proof.
  intros Hwf Hclean.
  destruct (clean_frame_Ok _ _ Hwf Hclean) as (d & Hd & -> & _ & _).
  trace_column. rewrite !(assoc_categorised _ _ _ Hd) by done.
  rewrite !assoc_map_columns. decide_labels.
  by destruct (assoc "Email" (columns (strip_labels df))).
Qed.

Lemma column_rule_idem (c : string) (s : Series) :
  (∀ ns, to_datetime_scalar (Timestamp ns) = Some ns) →
  to_datetime_scalar NaT = None →
  column_rule c (column_rule c s) = column_rule c s.
Proof.
  intros Hts Hnat. pose proof tables_canonical as Ht.
  rewrite !list.Forall_cons in Ht. destruct Ht as (Hp & Hd & Hg & _).
  unfold column_rule. repeat case_bool_decide;
    auto using title_rule_idem, harmonise_rule_idem, email_rule_idem,
      normalise_idem, satisfaction_rule_idem, to_numeric_idem, to_datetime_idem.
Qed.


End again.

(** ** The cells of a cleaned frame *)

Section cells.
Context `{PandasScalars}.

Lemma harmonised_cells (table : gmap string string) (s : Series) :
  harmonised table s =
  (λ c, match c with Str x => Str (canonical table x) | _ => c end) <$> s.
Proof.
  unfold harmonised, fillna, map_dict, str_lower, str_method.
  rewrite <- list_fmap_compose.
  rewrite <- (list_fmap_id s) at 2. rewrite zip_with_fmap_same.
  apply list_fmap_ext. intros i c _. simpl. destruct c; try done.
  unfold canonical. by destruct (table !! PyStr.lower s0).
Qed.


Lemma column_rule_stripped (c : string) (s : Series) :
  c ∈ TEXT_COLUMNS → Forall stripped_text (column_rule c s).
Proof.
  intros Hc. pose proof tables_canonical as Ht.
  rewrite !list.Forall_cons in Ht. destruct Ht as (Hp & Hd & Hg & _).
  assert (Hh : ∀ table,
             map_Forall (λ _ label, table !! PyStr.lower label = Some label ∧
                                    PyStr.strip label = label) table →
             Forall stripped_text (harmonised table (normalise s))).
  { intros table Ht. rewrite harmonised_normalise. apply Forall_fmap, Forall_true.
    intros v. eexists. split; [done|].
    by apply canonical_idem; [|apply strip_idem]. }
  assert (Ht : Forall stripped_text (str_title (normalise s))).
  { rewrite normalise_fmap. unfold str_title, str_method.
    rewrite <- list_fmap_compose. apply Forall_fmap, Forall_true.
    intros v. eexists. split; [done|]. apply strip_title, strip_idem. }
  assert (He : Forall stripped_text (lower_strip (normalise s))).
  { rewrite lower_strip_normalise. apply Forall_fmap, Forall_true.
    intros v. eexists. split; [done|]. apply strip_idem. }
  unfold column_rule. repeat case_bool_decide; auto using normalise_stripped; done.
Qed.

Lemma cleaned_has_names (df df' : DataFrame) :
  well_formed (strip_labels df) → clean_frame df = Ok df' →
  ∃ names, assoc "Product_Name" (columns (strip_labels df)) = Some names.
Proof.
  intros Hwf Hclean.
  destruct (clean_frame_Ok _ _ Hwf Hclean) as (d & Hd & _).
  revert Hd. unfold categorised. rewrite assoc_map_columns. decide_labels.
  destruct (assoc "Product_Name" (columns (strip_labels df))); [eauto|done].
Qed.

Lemma cleaned_text_series (df df' : DataFrame) (c : string) (s0 : Series) :
  well_formed (strip_labels df) → clean_frame df = Ok df' →
  c ∈ TEXT_COLUMNS →
  assoc c (columns (strip_labels df)) = Some s0 →
  ∃ s, assoc c (columns df') = Some s ∧ List.length s = List.length s0 ∧
       Forall stripped_text s.
Proof.
  intros Hwf Hclean Hc Hs0.
  destruct (decide (c = "Product_Category")) as [-> | Hpc].
  - destruct (cleaned_has_names df df' Hwf Hclean) as [names Hn].
    rewrite (cleaned_category df df' names Hwf Hclean Hn), Hs0.
    eexists. split; [done|].
    assert (List.length (normalise names) = List.length (normalise s0)) as Hlen.
    { rewrite !length_normalise.
      rewrite (columns_length _ _ _ Hwf Hn), (columns_length _ _ _ Hwf Hs0). done. }
    split.
    + rewrite length_corrected by done. apply length_normalise.
    + apply corrected_stripped; [|apply normalise_stripped].
      repeat constructor.
  - rewrite (cleaned_column df df' c Hwf Hclean), Hs0.
    2:{ rewrite !elem_of_cons, elem_of_nil. intros [-> | [-> | [-> | []]]]; try done;
        revert Hc; compute_done. }
    eexists. split; [done|]. split; [|by apply column_rule_stripped].
    pose proof (cleaned_nrows df df' Hwf Hclean) as Hn.
    destruct (cleaned_is_input df df' Hwf Hclean) as [_ Hwf'].
    assert (assoc c (columns df') = Some (column_rule c s0)) as E.
    { rewrite (cleaned_column df df' c Hwf Hclean), Hs0; [done|].
      rewrite !elem_of_cons, elem_of_nil. intros [-> | [-> | [-> | []]]]; try done;
        revert Hc; compute_done. }
    rewrite (columns_length _ _ _ Hwf' E), Hn.
    symmetry. exact (columns_length _ _ _ Hwf Hs0).
Qed.


End cells.

(** ** Issues, the summary and the snapshot *)

Lemma sum_mask_le (m : Mask) : (sum_mask m ≤ List.length m)%nat.
Proof. unfold sum_mask. apply length_filter. Qed.

Lemma sum_mask_zero (m : Mask) : sum_mask m = 0%nat ↔ Forall (λ b, b = false) m.
Proof.
  unfold sum_mask. induction m as [|b m IH]; [done|].
  rewrite list.Forall_cons. destruct b.
  - rewrite filter_cons_True by done. split; [done|]. by intros [? _].
  - rewrite filter_cons_False by done. rewrite IH. split; [done|]. by intros [_ ?].
Qed.

Section more.
Context `{PandasScalars}.



Lemma row_issues_empty (name valid amount : option cell) :
  row_issues name valid amount = "" ↔
  (∀ v, name = Some v → name_missing v = false) ∧
  (∀ v, valid = Some v → is_true v = true) ∧
  (∀ v, amount = Some v → bad_amount v = false).
Proof.
  unfold row_issues. split.
  - intros E. apply append_eq_nil in E as [E1 E]. apply append_eq_nil in E as [E2 E3].
    split; [|split]; intros v ->.
    + by destruct (name_missing v).
    + by destruct (is_true v).
    + by destruct (bad_amount v).
  - intros (H1 & H2 & H3).
    destruct name as [v1|]; [rewrite (H1 v1 eq_refl)|];
      (destruct valid as [v2|]; [rewrite (H2 v2 eq_refl)|]);
      (destruct amount as [v3|]; [rewrite (H3 v3 eq_refl)|]); done.
Qed.



Lemma null_counts_lookup (df : DataFrame) (c : string) (s : Series) :
  assoc c (columns df) = Some s → (c, sum_mask (isna s)) ∈ null_counts df.
Proof.
  unfold null_counts. induction (columns df) as [|[l s'] cs IH]; [done|].
  cbn [assoc]. case_bool_decide as E.
  - intros [= <-]. subst l. csimpl. apply list_elem_of_here.
  - intros Hs. csimpl. apply list_elem_of_further. by apply IH.
Qed.


End more.

(** * Beyond the claims: reading and writing files *)

(** ** Suffixes *)

Section paths.
Import PyStr.

Lemma lower_append (s t : string) : lower (s +:+ t) = lower s +:+ lower t.
Proof.
  induction s as [|c s IH]; [reflexivity|].
  rewrite append_cons. cbn [lower]. rewrite IH, append_cons. reflexivity.
Qed.

Lemma lower_length (s : string) : String.length (lower s) = String.length s.
Proof. induction s as [|c s IH]; cbn [lower String.length]; congruence. Qed.

Lemma append_length (s t : string) :
  String.length (s +:+ t) = (String.length s + String.length t)%nat.
Proof.
  induction s as [|c s IH]; [reflexivity|].
  rewrite append_cons. cbn [String.length]. rewrite IH. reflexivity.
Qed.

Lemma ends_with_iff (suffix s : string) :
  ends_with suffix s = true ↔ ∃ stem, s = stem +:+ suffix.
Proof.
  induction s as [|c s IH].
  - cbn [ends_with]. rewrite orb_false_r, bool_decide_eq_true. split.
    + intros <-. exists "". reflexivity.
    + intros [stem E]. symmetry in E. apply append_eq_nil in E as [_ ->]. reflexivity.
  - cbn [ends_with]. rewrite orb_true_iff, bool_decide_eq_true, IH. split.
    + intros [<- | [stem ->]].
      * exists "". reflexivity.
      * exists (String c stem). reflexivity.
    + intros [stem E]. symmetry in E. apply append_eq_cons in E as [[-> ->] | [s' [-> ->]]].
      * left. reflexivity.
      * right. exists s'. reflexivity.
Qed.

(** A lower-cased text that splits comes from a split of the text. *)
Lemma lower_eq_append (s a b : string) :
  lower s = a +:+ b → ∃ s1 s2, s = s1 +:+ s2 ∧ lower s1 = a ∧ lower s2 = b.
Proof.
  revert s. induction a as [|c a IH]; intros s E.
  - exists "", s. rewrite append_nil_l in E. auto.
  - rewrite append_cons in E. destruct s as [|d s]; [discriminate|].
    cbn [lower] in E. injection E as Ec E. apply IH in E as (s1 & s2 & -> & <- & <-).
    exists (String d s1), s2. rewrite append_cons. cbn [lower]. rewrite Ec. auto.
Qed.

End paths.

(** ** The pattern of the extensions *)

Section extension.
Import PyStr.

Lemma lang_alt_iff (r1 r2 : Re.regex) (s : string) :
  Re.lang (Re.Alt r1 r2) s ↔ Re.lang r1 s ∨ Re.lang r2 s.
Proof.
  split.
  - inversion 1; subst; auto.
  - intros [L | L]; [apply Re.lang_alt_l | apply Re.lang_alt_r]; exact L.
Qed.

Lemma lang_eps_iff (s : string) : Re.lang Re.Eps s ↔ s = "".
Proof.
  split.
  - inversion 1. reflexivity.
  - intros ->. constructor.
Qed.

Lemma lang_chr_i (a : ascii) (s : string) :
  Re.lang (Chr_i a) s ↔ ∃ c, s = String c "" ∧ lower_char c = lower_char a.
Proof.
  unfold Chr_i. rewrite lang_class_iff.
  split; intros (c & -> & E); exists c; split; try reflexivity.
  - apply bool_decide_eq_true in E. exact E.
  - apply bool_decide_eq_true. exact E.
Qed.

Lemma lang_word_i (w s : string) : Re.lang (Word_i w) s ↔ lower s = lower w.
Proof.
  revert s. induction w as [|a w IH]; intros s; cbn [Word_i lower].
  - rewrite lang_eps_iff. destruct s; cbn [lower]; split; congruence.
  - rewrite lang_cat_iff. split.
    + intros (s1 & s2 & -> & L1 & L2).
      apply lang_chr_i in L1 as (c & -> & Ec). apply IH in L2.
      rewrite append_cons, append_nil_l. cbn [lower]. congruence.
    + destruct s as [|c s]; cbn [lower]; [discriminate|]. intros E.
      injection E as Ec E.
      exists (String c ""), s. split; [reflexivity|]. split.
      * apply lang_chr_i. eauto.
      * apply IH. exact E.
Qed.

Lemma lang_extension (s : string) :
  Re.lang EXTENSION_REGEX s ↔ lower s ∈ [ ".csv"; ".xls"; ".xlsx" ].
Proof.
  unfold EXTENSION_REGEX, Opt.
  rewrite lang_cat_iff. split.
  - intros (s1 & s2 & -> & L1 & L2).
    apply lang_chr_i in L1 as (c & -> & Ec).
    rewrite append_cons, append_nil_l. cbn [lower]. rewrite Ec.
    change (lower_char ".") with "."%char.
    apply lang_alt_iff in L2 as [L | L].
    { apply lang_word_i in L. rewrite L. compute_done. }
    apply lang_alt_iff in L as [L | L].
    2:{ apply lang_word_i in L. rewrite L. compute_done. }
    apply lang_cat_iff in L as (t & u & -> & Lt & Lu).
    apply lang_word_i in Lt. rewrite lower_append, Lt.
    apply lang_alt_iff in Lu as [Lu | Lu].
    + apply lang_chr_i in Lu as (d & -> & Ed). cbn [lower]. rewrite Ed. compute_done.
    + apply lang_eps_iff in Lu as ->. compute_done.
  - intros Hin.
    destruct s as [|c s]; cbn [lower] in Hin.
    { exfalso. revert Hin. compute_done. }
    assert (lower_char c = "."%char ∧ lower s ∈ [ "csv"; "xls"; "xlsx" ]) as [Ec Hs].
    { rewrite !elem_of_cons, elem_of_nil in Hin. rewrite !elem_of_cons, elem_of_nil.
      destruct Hin as [E | [E | [E | []]]]; injection E as -> ->; auto. }
    exists (String c ""), s. split; [reflexivity|]. split.
    { apply lang_chr_i. eauto. }
    rewrite !elem_of_cons, elem_of_nil in Hs.
    destruct Hs as [E | [E | [E | []]]].
    + apply lang_alt_iff. left. apply lang_word_i. exact E.
    + apply lang_alt_iff. right. apply lang_alt_iff. right. apply lang_word_i. exact E.
    + apply lang_alt_iff. right. apply lang_alt_iff. left.
      change "xlsx" with ("xls" +:+ "x") in E.
      apply lower_eq_append in E as (t & u & -> & Et & Eu).
      apply lang_cat_iff. exists t, u. split; [reflexivity|]. split.
      * apply lang_word_i. exact Et.
      * apply lang_alt_iff. left. apply lang_chr_i.
        destruct u as [|d [|? ?]]; try discriminate.
        injection Eu as Ed. eauto.
Qed.

Lemma accepts_extension (s : string) :
  Re.accepts EXTENSION_REGEX s = true ↔ lower s ∈ [ ".csv"; ".xls"; ".xlsx" ].
Proof. rewrite accepts_lang. apply lang_extension. Qed.

End extension.

(** ** The substitution of [_write_file] *)

Section substitution.
Import PyStr.

Lemma lower_char_dot (c : ascii) : lower_char c = "."%char → c = "."%char.
Proof.
  destruct c as [[] [] [] [] [] [] [] []]; vm_compute; intros E; congruence.
Qed.

Lemma last_char_append (s t : string) :
  t ≠ "" → last_char (s +:+ t) = last_char t.
Proof.
  intros Ht. induction s as [|c s IH]; [reflexivity|].
  rewrite append_cons. cbn [last_char]. rewrite IH.
  destruct (s +:+ t) eqn:E; [|reflexivity].
  apply append_eq_nil in E as [_ ->]. done.
Qed.

Lemma last_char_lower (s : string) :
  last_char (lower s) = lower_char <$> last_char s.
Proof.
  induction s as [|c s IH]; [reflexivity|].
  cbn [lower last_char]. destruct s as [|d s]; [reflexivity|]. exact IH.
Qed.

Lemma drop_last_append (s : string) (c : ascii) :
  drop_last (s +:+ String c "") = s.
Proof.
  induction s as [|d s IH]; [reflexivity|].
  rewrite append_cons. cbn [drop_last]. rewrite IH.
  destruct (s +:+ String c "") eqn:E; [|reflexivity].
  apply append_eq_nil in E as [_ E]. discriminate.
Qed.

Lemma last_char_snoc (s : string) :
  s ≠ "" → ∃ c, last_char s = Some c ∧ s = drop_last s +:+ String c "".
Proof.
  induction s as [|d s IH]; [done|]. intros _.
  destruct s as [|e s].
  - exists d. split; reflexivity.
  - destruct IH as (c & E1 & E2); [done|]. exists c. split.
    + exact E1.
    + change (drop_last (String d (String e s))) with (String d (drop_last (String e s))).
      rewrite append_cons, <- E2. reflexivity.
Qed.

(** An extension starts with its only dot and ends with a letter. *)
Lemma extension_shape (ext : string) :
  lower ext ∈ [ ".csv"; ".xls"; ".xlsx" ] →
  ∃ rest, ext = String "." rest ∧ lower rest ∈ [ "csv"; "xls"; "xlsx" ].
Proof.
  destruct ext as [|c rest]; cbn [lower]; rewrite !elem_of_cons, elem_of_nil.
  { intros [? | [? | [? | []]]]; discriminate. }
  intros Hin. exists rest.
  assert (lower_char c = "."%char ∧ lower rest ∈ [ "csv"; "xls"; "xlsx" ]) as [Ec Hr].
  { rewrite !elem_of_cons, elem_of_nil.
    destruct Hin as [E | [E | [E | []]]]; injection E as -> ->; auto. }
  apply lower_char_dot in Ec as ->. auto.
Qed.

Lemma no_inner_dot (a b : string) :
  a +:+ String "." b ∉ [ "csv"; "xls"; "xlsx" ].
Proof.
  rewrite !elem_of_cons, elem_of_nil.
  intros [E | [E | [E | []]]];
    repeat (destruct a as [|? a]; [discriminate|];
            rewrite append_cons in E; injection E as _ E);
    destruct a; discriminate.
Qed.

Lemma not_accepts_inside (d : ascii) (stem ext : string) :
  lower ext ∈ [ ".csv"; ".xls"; ".xlsx" ] →
  Re.accepts EXTENSION_REGEX (String d (stem +:+ ext)) = false.
Proof.
  intros Hext. apply not_true_is_false. rewrite accepts_extension. intros Hin.
  apply extension_shape in Hin as (rest & E & Hrest).
  injection E as -> E. rewrite <- E, lower_append in Hrest.
  apply extension_shape in Hext as (r & -> & _).
  cbn [lower] in Hrest. change (lower_char ".") with "."%char in Hrest.
  exact (no_inner_dot _ _ Hrest).
Qed.

Lemma extension_last (ext : string) :
  lower ext ∈ [ ".csv"; ".xls"; ".xlsx" ] → last_char ext ≠ Some Re.LF.
Proof.
  intros Hext E.
  assert (last_char (lower ext) = Some Re.LF) as E'.
  { rewrite last_char_lower, E. reflexivity. }
  revert E'. rewrite !elem_of_cons, elem_of_nil in Hext.
  destruct Hext as [-> | [-> | [-> | []]]]; vm_compute; discriminate.
Qed.

Lemma extension_ne (ext : string) :
  lower ext ∈ [ ".csv"; ".xls"; ".xlsx" ] → ext ≠ "".
Proof. intros H ->. revert H. compute_done. Qed.

Lemma sub_extension_suffix (stem ext : string) :
  lower ext ∈ [ ".csv"; ".xls"; ".xlsx" ] →
  sub_extension (stem +:+ ext) = stem +:+ "_cleaned" +:+ ext.
Proof.
  intros Hext. induction stem as [|d stem IH].
  - rewrite !append_nil_l.
    destruct (extension_shape ext Hext) as (rest & -> & _).
    cbn [sub_extension]. apply accepts_extension in Hext. rewrite Hext. reflexivity.
  - rewrite !append_cons. cbn [sub_extension].
    rewrite not_accepts_inside by exact Hext.
    rewrite (bool_decide_eq_false_2 (last_char (String d (stem +:+ ext)) = Some Re.LF)).
    + cbn [andb]. rewrite IH. reflexivity.
    + rewrite <- append_cons, last_char_append by (apply extension_ne; exact Hext).
      apply extension_last. exact Hext.
Qed.

Lemma sub_extension_newline (stem ext : string) :
  lower ext ∈ [ ".csv"; ".xls"; ".xlsx" ] →
  sub_extension (stem +:+ ext +:+ String Re.LF "") =
  stem +:+ "_cleaned" +:+ ext +:+ String Re.LF "".
Proof.
  intros Hext.
  assert (Hno : ∀ s, Re.accepts EXTENSION_REGEX (s +:+ String Re.LF "") = false).
  { intros s. apply not_true_is_false. rewrite accepts_extension. intros Hin.
    assert (last_char (lower (s +:+ String Re.LF "")) = Some Re.LF) as E.
    { rewrite last_char_lower, last_char_append by done. reflexivity. }
    revert E. rewrite !elem_of_cons, elem_of_nil in Hin.
    destruct Hin as [-> | [-> | [-> | []]]]; vm_compute; discriminate. }
  induction stem as [|d stem IH].
  - rewrite !append_nil_l.
    destruct (extension_shape ext Hext) as (rest & -> & _).
    rewrite append_cons. cbn [sub_extension]. rewrite <- append_cons.
    rewrite Hno, last_char_append, drop_last_append by done.
    rewrite bool_decide_eq_true_2 by reflexivity.
    apply accepts_extension in Hext. rewrite Hext. reflexivity.
  - rewrite !append_cons. cbn [sub_extension].
    assert (String d (stem +:+ ext +:+ String Re.LF "") =
            String d (stem +:+ ext) +:+ String Re.LF "") as E.
    { rewrite append_cons, append_assoc. reflexivity. }
    rewrite !E. rewrite Hno, drop_last_append.
    rewrite not_accepts_inside by exact Hext.
    rewrite andb_false_r. rewrite IH. reflexivity.
Qed.

Lemma supported_iff (path : string) :
  supported path = true ↔
  ∃ stem ext, path = stem +:+ ext ∧ lower ext ∈ [ ".csv"; ".xls"; ".xlsx" ].
Proof.
  unfold supported. rewrite !orb_true_iff, !ends_with_iff. split.
  - intros [[s E] | [[s E] | [s E]]];
      apply lower_eq_append in E as (s1 & s2 & -> & _ & E2);
      exists s1, s2; rewrite E2; split; try reflexivity; compute_done.
  - intros (stem & ext & -> & Hext). rewrite lower_append.
    rewrite !elem_of_cons, elem_of_nil in Hext.
    destruct Hext as [-> | [-> | [-> | []]]]; eauto.
Qed.

Lemma sub_extension_fixed (path : string) :
  supported path = false →
  ¬ (last_char path = Some Re.LF ∧ supported (drop_last path) = true) →
  sub_extension path = path.
Proof.
  induction path as [|c path IH]; [reflexivity|]. intros Hs Hn.
  cbn [sub_extension].
  assert (Re.accepts EXTENSION_REGEX (String c path) = false) as ->.
  { apply not_true_is_false. intros A. apply accepts_extension in A.
    apply not_true_iff_false in Hs. apply Hs, supported_iff.
    exists "", (String c path). auto. }
  assert (bool_decide (last_char (String c path) = Some Re.LF) &&
          Re.accepts EXTENSION_REGEX (drop_last (String c path)) = false) as ->.
  { apply not_true_is_false. intros A. apply andb_true_iff in A as [A1 A2].
    apply bool_decide_eq_true in A1. apply accepts_extension in A2.
    apply Hn. split; [exact A1|]. apply supported_iff.
    exists "", (drop_last (String c path)). auto. }
  f_equal. apply IH.
  - apply not_true_is_false. intros A. apply not_true_iff_false in Hs. apply Hs.
    apply supported_iff in A as (stem & ext & -> & Hext). apply supported_iff.
    exists (String c stem), ext. auto.
  - intros [A1 A2]. apply Hn. destruct path as [|d path]; [discriminate|]. split.
    + exact A1.
    + apply supported_iff in A2 as (stem & ext & E & Hext). apply supported_iff.
      exists (String c stem), ext. split; [|exact Hext].
      change (drop_last (String c (String d path)))
        with (String c (drop_last (String d path))).
      rewrite E. reflexivity.
Qed.

End substitution.

(** ** [_read_file], [_write_file], [load_clean_validate] *)

Lemma append_suffix_inj (a b c d : string) :
  String.length b = String.length d → a +:+ b = c +:+ d → b = d.
Proof.
  revert c. induction a as [|x a IH]; intros [|y c] L E.
  - exact E.
  - rewrite append_nil_l in E. subst b. rewrite append_cons in L.
    cbn [String.length] in L. rewrite append_length in L. lia.
  - rewrite append_nil_l in E. subst d. rewrite append_cons in L.
    cbn [String.length] in L. rewrite append_length in L. lia.
  - rewrite !append_cons in E. injection E as _ E. exact (IH c L E).
Qed.

Lemma ends_with_csv (stem ext : string) :
  PyStr.lower ext ∈ [ ".csv"; ".xls"; ".xlsx" ] →
  ends_with ".csv" (PyStr.lower (stem +:+ ext)) = bool_decide (PyStr.lower ext = ".csv").
Proof.
  intros Hext. rewrite lower_append.
  destruct (decide (PyStr.lower ext = ".csv")) as [E | N].
  - rewrite bool_decide_eq_true_2 by exact E. apply ends_with_iff. rewrite E. eauto.
  - rewrite bool_decide_eq_false_2 by exact N. apply not_true_is_false.
    rewrite ends_with_iff. intros [s E].
    rewrite !elem_of_cons, elem_of_nil in Hext.
    destruct Hext as [E' | [E' | [E' | []]]]; [done| |]; rewrite E' in E.
    + apply append_suffix_inj in E; [discriminate | reflexivity].
    + change ".xlsx" with ("." +:+ "xlsx") in E. rewrite <- append_assoc in E.
      apply append_suffix_inj in E; [discriminate | reflexivity].
Qed.

Lemma supported_suffix (stem ext : string) :
  PyStr.lower ext ∈ [ ".csv"; ".xls"; ".xlsx" ] →
  ends_with ".xls" (PyStr.lower (stem +:+ ext)) ||
  ends_with ".xlsx" (PyStr.lower (stem +:+ ext)) = negb (bool_decide (PyStr.lower ext = ".csv")).
Proof.
  intros Hext.
  destruct (decide (PyStr.lower ext = ".csv")) as [E | N].
  - rewrite bool_decide_eq_true_2 by exact E. apply not_true_is_false.
    rewrite orb_true_iff, !ends_with_iff, lower_append, E.
    intros [[s E'] | [s E']].
    + apply append_suffix_inj in E'; [discriminate | reflexivity].
    + change ".xlsx" with ("." +:+ "xlsx") in E'. rewrite <- append_assoc in E'.
      apply append_suffix_inj in E'; [discriminate | reflexivity].
  - rewrite bool_decide_eq_false_2 by exact N.
    rewrite orb_true_iff, !ends_with_iff, lower_append.
    rewrite !elem_of_cons, elem_of_nil in Hext.
    destruct Hext as [E' | [E' | [E' | []]]]; [done| |]; rewrite E'; eauto.
Qed.

Section writing.
Context `{PandasFiles}.

Lemma write_file_supported (df : DataFrame) (stem ext : string) (fmt : file_format)
    (w : world) :
  (fmt, PyStr.lower ext) ∈ [ (CSV, ".csv"); (Excel, ".xls"); (Excel, ".xlsx") ] →
  let cleaned_path := stem +:+ "_cleaned" +:+ ext in
  _write_file df (stem +:+ ext) w =
  match (match fmt with CSV => to_csv | Excel => to_excel end) cleaned_path df with
  | Ok _ =>
      (Ok cleaned_path,
       {| disk := disk w ++ [ {| file_format_of := fmt; file_path := cleaned_path;
                                 file_frame := df |} ];
          stdout := stdout w |})
  | Raise e => (Raise e, w)
  end.
Proof.
  intros Hin cleaned_path.
  assert (PyStr.lower ext ∈ [ ".csv"; ".xls"; ".xlsx" ]) as Hext.
  { rewrite !elem_of_cons, elem_of_nil in Hin. rewrite !elem_of_cons, elem_of_nil.
    destruct Hin as [E | [E | [E | []]]]; injection E as _ ->; auto. }
  unfold _write_file. rewrite sub_extension_suffix by exact Hext.
  assert (ends_with ".csv" (PyStr.lower (stem +:+ "_cleaned" +:+ ext)) =
          match fmt with CSV => true | Excel => false end) as ->.
  { change (stem +:+ "_cleaned" +:+ ext) with (stem +:+ ("_cleaned" +:+ ext)).
    rewrite <- append_assoc, ends_with_csv by exact Hext.
    rewrite !elem_of_cons, elem_of_nil in Hin.
    destruct Hin as [E | [E | [E | []]]]; injection E as -> ->; reflexivity. }
  fold cleaned_path.
  unfold mbind, IO_bind, write, mret, IO_ret.
  destruct fmt.
  - destruct (to_csv cleaned_path df); reflexivity.
  - destruct (to_excel cleaned_path df); reflexivity.
Qed.

End writing.

Section loading.
Context `{PandasFiles}.

Lemma read_file_reader (path : string) :
  supported path = true →
  ∃ stem ext fmt,
    path = stem +:+ ext ∧
    (fmt, PyStr.lower ext) ∈ [ (CSV, ".csv"); (Excel, ".xls"); (Excel, ".xlsx") ] ∧
    _read_file path = (match fmt with CSV => read_csv | Excel => read_excel end) path.
Proof.
  intros Hs. apply supported_iff in Hs as (stem & ext & -> & Hext).
  unfold _read_file. rewrite ends_with_csv, supported_suffix by exact Hext.
  destruct (decide (PyStr.lower ext = ".csv")) as [E | N].
  - exists stem, ext, CSV. rewrite bool_decide_eq_true_2 by exact E.
    rewrite E. split; [reflexivity|]. split; [apply list_elem_of_here | reflexivity].
  - exists stem, ext, Excel. rewrite bool_decide_eq_false_2 by exact N.
    split; [reflexivity|]. split; [|reflexivity].
    rewrite !elem_of_cons, elem_of_nil in Hext. rewrite !elem_of_cons, elem_of_nil.
    destruct Hext as [E | [E | [E | []]]]; [done | rewrite E; auto ..].
Qed.

Lemma read_file_unsupported (path : string) :
  supported path = false →
  _read_file path = Raise (ValueError "Unsupported file format → use CSV or Excel.").
Proof.
  unfold supported, _read_file. intros Hs.
  apply orb_false_iff in Hs as [-> ->]. reflexivity.
Qed.





Context `{PandasScalars}.

Lemma write_file_disk (df : DataFrame) (path : string) (w w' : world) (e : exn) :
  _write_file df path w = (Raise e, w') → w' = w.
Proof.
  unfold _write_file, mbind, IO_bind, write, mret, IO_ret.
  destruct (ends_with ".csv" (PyStr.lower (sub_extension path)));
    [destruct (to_csv _ df) | destruct (to_excel _ df)]; intros E;
    injection E; congruence.
Qed.




End loading.

(** * The further theorems at the worked inputs *)

Lemma receipts_well_formed : well_formed (strip_labels receipts).
Proof. split; [compute_done|repeat constructor]. Defined.

Lemma receipts_clean : @clean_frame plain_scalars receipts = Ok receipts_cleaned.
Proof. vm_compute. reflexivity. Defined.
















